(** * feedback-demo: device protocol layer, protocol registry, connection
      manager and session value engine

    A shallow embedding of the JavaScript sources
    - [src/haptic/protocols/*.js]   (per-manufacturer command encoders),
    - [src/haptic/protocols/index.js] (the [PROTOCOLS] registry and
      [detectProtocol]),
    - [src/haptic/protocols/coyote.js] (Coyote V3/V2 encoders, the V2 send
      gate, [connectCoyote]),
    - [src/haptic/vibrator.js]      (the connection manager [connect]),
    - [src/config.js]               (patterns, session arcs, category state),
    together with the properties stated about them.

    Conventions of the embedding:
    - a JavaScript number that carries a fraction (a normalised intensity, a
      session progress, a frequency in Hz) is a rational [Q]; numbers that the
      code only ever produces through [Math.round]/[Math.floor] or integer
      literals are [Z];
    - a [Uint8Array] is a [list Z] whose elements went through [ToUint8];
    - module-level mutable objects ([coyote._state], [v2State], the
      [v2Sending]/[v2Pending] variables) are explicit state records threaded
      through the functions that read or write them;
    - [Math.random()] is an explicit argument [r] with [0 <= r < 1];
    - where the rounding of a floating-point operation decides the result
      ([randomInRange]), the numbers are IEEE 754 binary64 values, the
      kernel's primitive floats;
    - asynchronous code is a transition system whose steps are the points at
      which the event loop can run another task. *)

From Stdlib Require Import ZArith QArith Qround Qminmax Qabs Lia Lqa.
From Stdlib Require Import List String Ascii Bool DecimalString.
From Stdlib Require Floats.
Import ListNotations.

Local Open Scope string_scope.
Local Open Scope list_scope.
Local Open Scope Z_scope.

(* ================================================================== *)
(** ** JavaScript primitives used by the sources *)
(* ================================================================== *)

Module JS.

(** [Math.round(x)]: nearest integer, ties towards +infinity. *)
Definition Math_round (x : Q) : Z := Qfloor (x + (1 # 2)).

(** [Math.floor(x)]. *)
Definition Math_floor (x : Q) : Z := Qfloor x.

(** Truncation towards zero, the first step of [ToUint8]. *)
Definition trunc (x : Q) : Z := Z.quot (Qnum x) (Z.pos (Qden x)).

(** Storing an integer into a [Uint8Array] element: modulo 2^8. *)
Definition ToUint8 (z : Z) : Z := z mod 256.

(** Storing an arbitrary number into a [Uint8Array] element. *)
Definition ToUint8Q (x : Q) : Z := ToUint8 (trunc x).

(** [`${n}`] for an integer [n]: decimal digits with a leading minus sign
    for negatives. *)
Definition toString (n : Z) : string := NilZero.string_of_int (Z.to_int n).

(** [new TextEncoder().encode(s)] on an ASCII string: one byte per
    character. *)
Definition TextEncoder_encode (s : string) : list Z :=
    map (fun c => Z.of_N (N_of_ascii c)) (list_ascii_of_string s).

(** [String.prototype.toLowerCase] on the ASCII letters. *)
Definition lowerChar (c : ascii) : ascii :=
    let n := nat_of_ascii c in
    if (Nat.leb 65 n && Nat.leb n 90)%bool then ascii_of_nat (n + 32) else c.

Fixpoint toLowerCase (s : string) : string :=
    match s with
    | EmptyString => EmptyString
    | String c s' => String (lowerChar c) (toLowerCase s')
    end.

(** [s.startsWith(p)]. *)
Definition startsWith (s p : string) : bool := String.prefix p s.

(** [s.includes(p)]. *)
Fixpoint includes (s p : string) : bool :=
    match s with
    | EmptyString => String.prefix p EmptyString
    | String _ s' => (String.prefix p s || includes s' p)%bool
    end.

(** The binary64 number nearest to [m * 2^e], ties to even: the value of a
    numeric literal. *)
Definition Number (m e : Z) : PrimFloat.float :=
    FloatOps.SF2Prim (SpecFloat.binary_normalize 53 1024 m e false).

(** [Math.floor(x)] of a finite binary64 number, as an integer.  Of an
    infinity or of [NaN], which are not integers, the model takes 0; no
    statement below reaches that case. *)
Definition Math_floor64 (x : PrimFloat.float) : Z :=
    match FloatOps.Prim2SF x with
    | SpecFloat.S754_finite s m e =>
        let n := if s then Z.neg m else Z.pos m in
        if 0 <=? e then n * 2 ^ e else n / 2 ^ (- e)
    | _ => 0
    end.

End JS.
Import JS.

Definition Bytes := list Z.

(* ================================================================== *)
(** ** Stateless vibrator protocols *)
(* ================================================================== *)

(** [lovense.js]: ASCII text commands. *)
Module lovense.
Definition id : string := "lovense".
Definition name : string := "Lovense".
Definition maxIntensity : Z := 20.

Definition buildCommand (intensity : Q) : Bytes :=
    let level := Math_round (intensity * inject_Z maxIntensity) in
    let cmd := ("Vibrate:" ++ toString level ++ ";")%string in
    TextEncoder_encode cmd.

Definition buildStopCommand : Bytes := TextEncoder_encode "Vibrate:0;".
End lovense.

(** [aneros.js]: two bytes, [0xF1 + motorIndex] then the level. *)
Module aneros.
Definition id : string := "aneros".
Definition name : string := "Aneros".
Definition maxIntensity : Z := 255.

Definition buildCommand (intensity : Q) (motorIndex : Z) : Bytes :=
    let level := Math_round (intensity * inject_Z maxIntensity) in
    [ToUint8 (0xF1 + motorIndex); ToUint8 level].

Definition buildStopCommand (motorIndex : Z) : Bytes :=
    [ToUint8 (0xF1 + motorIndex); ToUint8 0x00].
End aneros.

(** [kiiroo.js]: one level byte per motor. *)
Module kiiroo.
Definition id : string := "kiiroo".
Definition name : string := "Kiiroo".
Definition maxIntensity : Z := 255.
Definition motorCount : nat := 3.

Definition buildCommand (intensity : Q) (motorCount : nat) : Bytes :=
    let level := Math_round (intensity * inject_Z maxIntensity) in
    let bytes := repeat level motorCount in
    map ToUint8 bytes.

Definition buildStopCommand (motorCount : nat) : Bytes :=
    map ToUint8 (repeat 0 motorCount).
End kiiroo.

(** [svakom.js]: fixed six-byte frame with an on/off multiplier. *)
Module svakom.
Definition id : string := "svakom".
Definition name : string := "Svakom".
Definition maxIntensity : Z := 255.
Definition keepaliveInterval : Z := 1000.

Definition buildCommand (intensity : Q) : Bytes :=
    let level := Math_round (intensity * inject_Z maxIntensity) in
    let multiplier := if level =? 0 then 0x00 else 0x01 in
    map ToUint8 [0x55; 0x04; 0x03; 0x00; multiplier; level].

Definition buildStopCommand : Bytes :=
    map ToUint8 [0x55; 0x04; 0x03; 0x00; 0x00; 0x00].
End svakom.

(** [satisfyer.js]: four copies of the level per motor. *)
Module satisfyer.
Definition id : string := "satisfyer".
Definition name : string := "Satisfyer".
Definition maxIntensity : Z := 100.
Definition motorCount : nat := 1.
Definition keepaliveInterval : Z := 3000.

Definition buildCommand (intensity : Q) (motorCount : nat) : Bytes :=
    let level := Math_round (intensity * inject_Z maxIntensity) in
    let bytes := flat_map (fun _ => [level; level; level; level]) (seq 0 motorCount) in
    map ToUint8 bytes.

Definition buildStopCommand (motorCount : nat) : Bytes :=
    buildCommand 0 motorCount.
End satisfyer.

(** [lelo.js]: [0x01, speed1, speed2]. *)
Module lelo.
Definition id : string := "lelo".
Definition name : string := "Lelo".
Definition maxIntensity : Z := 255.

Definition buildCommand (intensity : Q) (intensity2 : option Q) : Bytes :=
    let level1 := Math_round (intensity * inject_Z maxIntensity) in
    let level2 :=
      match intensity2 with
      | Some i2 => Math_round (i2 * inject_Z maxIntensity)
      | None => level1
      end in
    map ToUint8 [0x01; level1; level2].

Definition buildStopCommand : Bytes := map ToUint8 [0x01; 0x00; 0x00].
End lelo.

(** [wevibe.js]: eight-byte frame, both motor levels packed in one byte.
    The JavaScript bit operators work on 32-bit integers; the result is then
    stored modulo 2^8, which agrees with [ToUint8] of the unbounded value. *)
Module wevibe.
Definition id : string := "wevibe".
Definition name : string := "We-Vibe".
Definition maxIntensity : Z := 15.

Definition buildCommand (intensity : Q) (intensityExt : option Q) : Bytes :=
    let intLevel := Math_round (intensity * inject_Z maxIntensity) in
    let extLevel :=
      match intensityExt with
      | Some e => Math_round (e * inject_Z maxIntensity)
      | None => intLevel
      end in
    if ((intLevel =? 0) && (extLevel =? 0))%bool then
      map ToUint8 [0x0f; 0x00; 0x00; 0x00; 0x00; 0x00; 0x00; 0x00]
    else
      let combinedSpeed := Z.lor extLevel (Z.shiftl intLevel 4) in
      map ToUint8 [0x0f; 0x03; 0x00; combinedSpeed; 0x00; 0x03; 0x00; 0x00].

Definition buildStopCommand : Bytes :=
    map ToUint8 [0x0f; 0x00; 0x00; 0x00; 0x00; 0x00; 0x00; 0x00].
End wevibe.

(** [magicmotion.js]: fifteen-byte frame carrying the level twice. *)
Module magicmotion.
Definition id : string := "magicmotion".
Definition name : string := "Magic Motion".
Definition maxIntensity : Z := 255.

Definition buildCommand (intensity : Q) : Bytes :=
    let level := Math_round (intensity * inject_Z maxIntensity) in
    map ToUint8
      [0x0b; 0xff; 0x04; 0x0a; 0x32; 0x32; 0x00; 0x04; 0x08; level;
       0x64; 0x00; 0x04; 0x08; level].

Definition buildStopCommand : Bytes := buildCommand 0.
End magicmotion.

(** [mysteryvibe.js]: one level byte per motor, six motors by default. *)
Module mysteryvibe.
Definition id : string := "mysteryvibe".
Definition name : string := "MysteryVibe".
Definition maxIntensity : Z := 255.
Definition motorCount : nat := 6.

Definition buildCommand (intensity : Q) (motorCount : nat) : Bytes :=
    let level := Math_round (intensity * inject_Z maxIntensity) in
    map ToUint8 (repeat level motorCount).

Definition buildStopCommand (motorCount : nat) : Bytes :=
    map ToUint8 (repeat 0 motorCount).
End mysteryvibe.

(* ================================================================== *)
(** ** The Coyote e-stim protocol ([coyote.js]) *)
(* ================================================================== *)

(** [encodeFrequency(hz)]: frequency in Hz to the protocol byte value. *)
Definition encodeFrequency (hz : Q) : Q :=
  let hz := Qmin 1000 (Qmax 10 hz) in
  if Qle_bool hz 100 then hz
  else if Qle_bool hz 600 then inject_Z (Math_round ((hz - 100) / 5) + 100)
  else inject_Z (Math_round ((hz - 600) / 10) + 200).

(** [decodeFrequency(val)], the reverse mapping given in
    [COYOTE-PROTOCOL.md] next to the encoder. *)
Definition decodeFrequency (val : Q) : Q :=
  if Qle_bool val 100 then val
  else if Qle_bool val 200 then ((val - 100) * 5) + 100
  else ((val - 200) * 10) + 600.

(** The three segments of the encoder, with the rounded quotient [k] of the
    two compressed ones; used to state and prove the properties of
    [encodeFrequency]. *)
Inductive Segment (hz : Q) : Prop :=
| Passthrough :
    (hz <= 100)%Q -> encodeFrequency hz == hz -> Segment hz
| DivideBy5 (k : Z) :
    (100 < hz <= 600)%Q ->
    encodeFrequency hz = inject_Z (k + 100) ->
    k = Math_round ((hz - 100) / 5) -> 0 <= k <= 100 ->
    (inject_Z k * 5 - (5 # 2) <= hz - 100 < inject_Z k * 5 + (5 # 2))%Q ->
    Segment hz
| DivideBy10 (k : Z) :
    (600 < hz <= 1000)%Q ->
    encodeFrequency hz = inject_Z (k + 200) ->
    k = Math_round ((hz - 600) / 10) -> 0 <= k <= 40 ->
    (inject_Z k * 10 - 5 <= hz - 600 < inject_Z k * 10 + 5)%Q ->
    Segment hz.

(** Reading sample [i] of a JavaScript array and storing [f] of it into a
    [Uint8Array]: a missing element is [undefined], every arithmetic result
    on it is [NaN], and [NaN] is stored as 0. *)
Definition sampleByte (f : Z -> Z) (arr : list Z) (i : nat) : Z :=
  match nth_error arr i with
  | Some x => f x
  | None => 0
  end.

Module coyote.
Definition id : string := "coyote".
Definition name : string := "DG-Lab Coyote".
Definition maxIntensity : Z := 200.
Definition keepaliveInterval : Z := 100.

Record Waveform := mkWaveform {
  freq : list Z;
  intensity : list Z;
}.

(** The argument object of [buildB0Command], after its defaults. *)
Record B0Options := mkB0Options {
  sequence : Z;
  modeA : Z;
  modeB : Z;
  o_intensityA : Z;
  o_intensityB : Z;
  waveFreqA : list Z;
  waveIntA : list Z;
  waveFreqB : list Z;
  waveIntB : list Z;
}.

(** [buildB0Command(options)]: the 20-byte main control frame. *)
Definition buildB0Command (options : B0Options) : Bytes :=
  let freqByte := sampleByte (fun hz => ToUint8Q (encodeFrequency (inject_Z hz))) in
  let intByte := sampleByte (fun w => ToUint8 (Z.min 100 (Z.max 0 w))) in
  [ ToUint8 0xB0;
    ToUint8 (Z.lor (Z.lor (Z.shiftl (sequence options) 4)
                          (Z.shiftl (modeB options) 2))
                   (modeA options));
    ToUint8 (Z.min 200 (Z.max 0 (o_intensityA options)));
    ToUint8 (Z.min 200 (Z.max 0 (o_intensityB options))) ]
  ++ map (freqByte (waveFreqA options)) (seq 0 4)
  ++ map (intByte (waveIntA options)) (seq 0 4)
  ++ map (freqByte (waveFreqB options)) (seq 0 4)
  ++ map (intByte (waveIntB options)) (seq 0 4).

Definition defaultWaveform : Waveform :=
  {| freq := [100; 100; 100; 100]; intensity := [50; 50; 50; 50] |}.

(** The mutable [_state] object. *)
Record State := mkState {
  intensityA : Z;
  intensityB : Z;
  waveformA : option Waveform;
  waveformB : option Waveform;
}.

(** The value [_state] has in the object literal and after [init]. *)
Definition resetState : State :=
  {| intensityA := 0; intensityB := 0; waveformA := None; waveformB := None |}.

(** [this._state.waveformX?.freq || this.defaultWaveform.freq]. *)
Definition freqOr (w : option Waveform) : list Z :=
  match w with Some w => freq w | None => freq defaultWaveform end.

Definition intensityOr (w : option Waveform) : list Z :=
  match w with Some w => intensity w | None => intensity defaultWaveform end.

(** The frame built from the current [_state] by [buildCommand] and
    [buildFullCommand]. *)
Definition frameOfState (st : State) : Bytes :=
  buildB0Command
    {| sequence := 0; modeA := 3; modeB := 3;
       o_intensityA := intensityA st;
       o_intensityB := intensityB st;
       waveFreqA := freqOr (waveformA st);
       waveIntA := intensityOr (waveformA st);
       waveFreqB := freqOr (waveformB st);
       waveIntB := intensityOr (waveformB st) |}.

(** [buildCommand(intensity, motorIndex = 0)]. *)
Definition buildCommand (st : State) (intensity : Q) (motorIndex : Z)
  : State * Bytes :=
  let level := Math_round (intensity * inject_Z maxIntensity) in
  let st' :=
    if motorIndex =? 0
    then {| intensityA := level; intensityB := intensityB st;
            waveformA := waveformA st; waveformB := waveformB st |}
    else {| intensityA := intensityA st; intensityB := level;
            waveformA := waveformA st; waveformB := waveformB st |} in
  (st', frameOfState st').

(** The argument object of [buildFullCommand]; [None] is an absent field. *)
Record FullOptions := mkFullOptions {
  f_intensityA : option Z;
  f_intensityB : option Z;
  f_waveformA : option Waveform;
  f_waveformB : option Waveform;
}.

(** [buildFullCommand(options)]. *)
Definition buildFullCommand (st : State) (options : FullOptions)
  : State * Bytes :=
  let st' :=
    {| intensityA := match f_intensityA options with Some a => a | None => intensityA st end;
       intensityB := match f_intensityB options with Some b => b | None => intensityB st end;
       waveformA := match f_waveformA options with Some w => Some w | None => waveformA st end;
       waveformB := match f_waveformB options with Some w => Some w | None => waveformB st end |} in
  (st', frameOfState st').

(** [buildStopCommand()]: zeroes the two intensities of [_state] and builds a
    frame from [intensityA: 0, intensityB: 0] and the defaults of
    [buildB0Command]. *)
Definition buildStopCommand (st : State) : State * Bytes :=
  let st' :=
    {| intensityA := 0; intensityB := 0;
       waveformA := waveformA st; waveformB := waveformB st |} in
  (st',
   buildB0Command
     {| sequence := 0; modeA := 3; modeB := 3;
        o_intensityA := 0; o_intensityB := 0;
        waveFreqA := [100; 100; 100; 100];
        waveIntA := [50; 50; 50; 50];
        waveFreqB := [100; 100; 100; 100];
        waveIntB := [50; 50; 50; 50] |}).
End coyote.

(** [encodeV2Power(a, b)]: A in bits 11-21, B in bits 0-10. *)
Definition encodeV2Power (a b : Z) : Bytes :=
  let a := Z.min 2047 (Z.max 0 a) in
  let b := Z.min 2047 (Z.max 0 b) in
  let byte0 := Z.land b 0xFF in
  let byte1 := Z.lor (Z.land (Z.shiftr b 8) 0x07) (Z.shiftl (Z.land a 0x1F) 3) in
  let byte2 := Z.land (Z.shiftr a 5) 0x3F in
  map ToUint8 [byte0; byte1; byte2].

(** [encodeV2Wave(x, y, z)]. *)
Definition encodeV2Wave (x y z : Z) : Bytes :=
  let x := Z.min 31 (Z.max 0 x) in
  let y := Z.min 1023 (Z.max 0 y) in
  let z := Z.min 31 (Z.max 0 z) in
  let byte0 := Z.lor (Z.land x 0x1F) (Z.shiftl (Z.land y 0x07) 5) in
  let byte1 := Z.land (Z.shiftr y 3) 0x7F in
  let byte2 := Z.land z 0x1F in
  map ToUint8 [byte0; byte1; byte2].

(** The [v2Protocol] object created by [connectV2]. *)
Module coyote_v2.
Definition id : string := "coyote-v2".
Definition name : string := "DG-Lab Coyote V2".
Definition maxIntensity : Z := 2047.
Definition keepaliveInterval : Z := 100.

(** The [v2State] object. *)
Record State := mkState {
  intensityA : Z;
  intensityB : Z;
  interval : Z;
  connected : bool;
}.

Definition initialState : State :=
  {| intensityA := 0; intensityB := 0; interval := 100; connected := true |}.

(** [buildCommand(intensity, motorIndex = 0)]. *)
Definition buildCommand (st : State) (intensity : Q) (motorIndex : Z)
  : State * Bytes :=
  let level := Math_round (intensity * 1024) in
  let st' :=
    if motorIndex =? 0
    then {| intensityA := level; intensityB := intensityB st;
            interval := interval st; connected := connected st |}
    else {| intensityA := intensityA st; intensityB := level;
            interval := interval st; connected := connected st |} in
  (st', encodeV2Power (intensityA st') (intensityB st')).

(** [buildStopCommand()]. *)
Definition buildStopCommand (st : State) : State * Bytes :=
  ({| intensityA := 0; intensityB := 0;
      interval := interval st; connected := connected st |},
   encodeV2Power 0 0).
End coyote_v2.

(* ================================================================== *)
(** ** The protocol interface *)
(* ================================================================== *)

(** The protocol objects that the connection manager can hold. *)
Inductive Protocol :=
| Satisfyer | Lovense | WeVibe | Lelo | Kiiroo | Svakom
| MagicMotion | MysteryVibe | Aneros | Coyote | CoyoteV2.

Definition protocol_id (p : Protocol) : string :=
  match p with
  | Satisfyer => satisfyer.id | Lovense => lovense.id | WeVibe => wevibe.id
  | Lelo => lelo.id | Kiiroo => kiiroo.id | Svakom => svakom.id
  | MagicMotion => magicmotion.id | MysteryVibe => mysteryvibe.id
  | Aneros => aneros.id | Coyote => coyote.id | CoyoteV2 => coyote_v2.id
  end.

Definition maxIntensity (p : Protocol) : Z :=
  match p with
  | Satisfyer => satisfyer.maxIntensity | Lovense => lovense.maxIntensity
  | WeVibe => wevibe.maxIntensity | Lelo => lelo.maxIntensity
  | Kiiroo => kiiroo.maxIntensity | Svakom => svakom.maxIntensity
  | MagicMotion => magicmotion.maxIntensity
  | MysteryVibe => mysteryvibe.maxIntensity
  | Aneros => aneros.maxIntensity | Coyote => coyote.maxIntensity
  | CoyoteV2 => coyote_v2.maxIntensity
  end.

Definition keepaliveInterval (p : Protocol) : option Z :=
  match p with
  | Satisfyer => Some satisfyer.keepaliveInterval
  | Svakom => Some svakom.keepaliveInterval
  | Coyote => Some coyote.keepaliveInterval
  | CoyoteV2 => Some coyote_v2.keepaliveInterval
  | _ => None
  end.

(** The state held by the stateful protocol objects. *)
Record ProtoState := mkProtoState {
  coyoteState : coyote.State;
  v2State : coyote_v2.State;
}.

Definition protoState0 : ProtoState :=
  {| coyoteState := coyote.resetState; v2State := coyote_v2.initialState |}.

(** [protocol.buildCommand(intensity)], the call made by the connection
    manager: every further parameter takes its default. *)
Definition buildCommand (p : Protocol) (st : ProtoState) (intensity : Q)
  : ProtoState * Bytes :=
  match p with
  | Satisfyer => (st, satisfyer.buildCommand intensity 1)
  | Lovense => (st, lovense.buildCommand intensity)
  | WeVibe => (st, wevibe.buildCommand intensity None)
  | Lelo => (st, lelo.buildCommand intensity None)
  | Kiiroo => (st, kiiroo.buildCommand intensity 1)
  | Svakom => (st, svakom.buildCommand intensity)
  | MagicMotion => (st, magicmotion.buildCommand intensity)
  | MysteryVibe => (st, mysteryvibe.buildCommand intensity 6)
  | Aneros => (st, aneros.buildCommand intensity 0)
  | Coyote =>
      let '(c, bytes) := coyote.buildCommand (coyoteState st) intensity 0 in
      ({| coyoteState := c; v2State := v2State st |}, bytes)
  | CoyoteV2 =>
      let '(v, bytes) := coyote_v2.buildCommand (v2State st) intensity 0 in
      ({| coyoteState := coyoteState st; v2State := v |}, bytes)
  end.

(** [protocol.buildStopCommand()]. *)
Definition buildStopCommand (p : Protocol) (st : ProtoState)
  : ProtoState * Bytes :=
  match p with
  | Satisfyer => (st, satisfyer.buildStopCommand 1)
  | Lovense => (st, lovense.buildStopCommand)
  | WeVibe => (st, wevibe.buildStopCommand)
  | Lelo => (st, lelo.buildStopCommand)
  | Kiiroo => (st, kiiroo.buildStopCommand 1)
  | Svakom => (st, svakom.buildStopCommand)
  | MagicMotion => (st, magicmotion.buildStopCommand)
  | MysteryVibe => (st, mysteryvibe.buildStopCommand 6)
  | Aneros => (st, aneros.buildStopCommand 0)
  | Coyote =>
      let '(c, bytes) := coyote.buildStopCommand (coyoteState st) in
      ({| coyoteState := c; v2State := v2State st |}, bytes)
  | CoyoteV2 =>
      let '(v, bytes) := coyote_v2.buildStopCommand (v2State st) in
      ({| coyoteState := coyoteState st; v2State := v |}, bytes)
  end.

(** Protocols that keep no state between calls. *)
Definition stateless (p : Protocol) : bool :=
  match p with
  | Coyote | CoyoteV2 => false
  | _ => true
  end.

(** *** Reading the level back out of a frame

    The claims speak about "the integer level encoded into the bytes".  The
    functions below read that level back following each frame layout; they
    belong to the statements, not to the program. *)

Fixpoint parseDigits (acc : Z) (seen : bool) (bs : Bytes) : option Z :=
  match bs with
  | [] => None
  | b :: rest =>
      if b =? 59 (* ';' *) then
        match rest with
        | [] => if seen then Some acc else None
        | _ :: _ => None
        end
      else if ((48 <=? b) && (b <=? 57))%bool
           then parseDigits (acc * 10 + (b - 48)) true rest
           else None
  end.

Fixpoint stripPrefix (pre bs : Bytes) : option Bytes :=
  match pre, bs with
  | [], _ => Some bs
  | p :: pre', b :: bs' => if p =? b then stripPrefix pre' bs' else None
  | _ :: _, [] => None
  end.

(** The signed decimal number between ["Vibrate:"] and [";"]. *)
Definition parseVibrate (bs : Bytes) : option Z :=
  match stripPrefix (TextEncoder_encode "Vibrate:") bs with
  | Some (45 (* '-' *) :: ds) => option_map Z.opp (parseDigits 0 false ds)
  | Some ds => parseDigits 0 false ds
  | None => None
  end.

(** Channel A of a V2 power frame: bits 11-21 of the 24-bit value. *)
Definition decodeV2PowerA (bs : Bytes) : option Z :=
  match bs with
  | [b0; b1; b2] =>
      Some (Z.land (Z.shiftr (b0 + Z.shiftl b1 8 + Z.shiftl b2 16) 11) 0x7FF)
  | _ => None
  end.

(** The level of the (first) motor or of channel A in a command frame. *)
Definition encodedLevel (p : Protocol) (bytes : Bytes) : option Z :=
  match p with
  | Lovense => parseVibrate bytes
  | Satisfyer | Kiiroo | MysteryVibe => nth_error bytes 0
  | Aneros | Lelo => nth_error bytes 1
  | Svakom => nth_error bytes 5
  | MagicMotion => nth_error bytes 9
  | WeVibe => option_map (fun b => Z.shiftr b 4) (nth_error bytes 3)
  | Coyote => nth_error bytes 2
  | CoyoteV2 => decodeV2PowerA bytes
  end.

(** The factor by which [buildCommand] multiplies the intensity: the
    protocol's [maxIntensity], except for the V2 object, which uses 1024. *)
Definition levelScale (p : Protocol) : Z :=
  match p with
  | CoyoteV2 => 1024
  | _ => maxIntensity p
  end.

(** Protocols whose encoder bounds the level with [Math.min]/[Math.max]. *)
Definition clampsLevel (p : Protocol) : bool :=
  match p with
  | Coyote | CoyoteV2 => true
  | _ => false
  end.

(* ================================================================== *)
(** ** The protocol registry ([index.js]) *)
(* ================================================================== *)

(** Every regular expression of the registry has the shape [/^literal/] or
    [/^literal/i]. *)
Record Pattern := mkPattern {
  literal : string;
  ignoreCase : bool;
}.

Definition re (s : string) : Pattern := mkPattern s false.
Definition rei (s : string) : Pattern := mkPattern s true.

(** [pattern.test(s)]. *)
Definition test (pattern : Pattern) (s : string) : bool :=
  if ignoreCase pattern
  then startsWith (toLowerCase s) (toLowerCase (literal pattern))
  else startsWith s (literal pattern).

Record ProtocolDef := mkDef {
  def_id : string;
  namePatterns : list Pattern;
  serviceUUIDs : list string;
  protocol : Protocol;
}.

Definition PROTOCOLS : list ProtocolDef :=
  [ mkDef "satisfyer"
      [re "SF"; rei "Satisfyer"; rei "SAT"]
      ["0000fff0-0000-1000-8000-00805f9b34fb"]
      Satisfyer;
    mkDef "lovense"
      [re "LVS-"; re "Lush"; re "Hush"; re "Edge"; re "Osci"; re "Domi";
       re "Nora"; re "Max"; re "Ambi"; re "Ferri"; re "Diamo"; re "Dolce";
       re "Exomoon"; re "Tenera"; re "Flexer"; re "Gravity"; re "Gemini";
       re "Lapis"; rei "Solace"]
      ["50300001-0024-4bd4-bbd5-a6920e4c5653";
       "53300001-0023-4bd4-bbd5-a6920e4c5653";
       "57300001-0023-4bd4-bbd5-a6920e4c5653";
       "5a300001-0023-4bd4-bbd5-a6920e4c5653";
       "5a300001-0024-4bd4-bbd5-a6920e4c5653";
       "6e400001-b5a3-f393-e0a9-e50e24dcca9e"]
      Lovense;
    mkDef "wevibe"
      [re "Cougar"; re "Ditto"; re "Gala"; re "Jive"; re "Match"; re "Melt";
       re "Moxie"; re "Nova"; re "Pivot"; re "Rave"; re "Sync"; re "Vector";
       re "Verge"; re "Wish"; rei "We-Vibe"]
      ["f000bb03-0451-4000-b000-000000000000"]
      WeVibe;
    mkDef "lelo"
      [re "F1s"; rei "LELO"; re "Sona"; re "Tiani"; re "Hugo"; re "Ida";
       re "Ina"; re "Lily"; re "Mona"; re "Ora"; re "Sila"; rei "Soraya"]
      []
      Lelo;
    mkDef "kiiroo"
      [re "Onyx"; re "Pearl"; re "Fuse"; re "Titan"; re "Cliona";
       rei "OhMiBod"; rei "Kiiroo"]
      []
      Kiiroo;
    mkDef "svakom"
      [rei "Svakom"; re "Emma"; re "Ella"; re "Vicky"; re "Alex"; re "Sam";
       re "Iker"; re "Tarax"; rei "Pulse"]
      []
      Svakom;
    mkDef "magicmotion"
      [rei "Magic Motion"; re "Kegel"; re "Flamingo"; re "Candy"; re "Bunny";
       rei "Eidolon"]
      []
      MagicMotion;
    mkDef "mysteryvibe"
      [re "Crescendo"; re "Tenuto"; re "Poco"; rei "MysteryVibe"]
      []
      MysteryVibe;
    mkDef "aneros"
      [rei "Vivi"]
      []
      Aneros;
    mkDef "coyote"
      [rei "D-LAB ESTIM"; re "47L"]
      ["0000180c-0000-1000-8000-00805f9b34fb"]
      Coyote ].

(** A GATT characteristic, as far as the sources look at it. *)
Record Characteristic := mkChar {
  c_uuid : string;
  write : bool;
  writeWithoutResponse : bool;
}.

(** A GATT service: its UUID and what [getCharacteristics()] resolves to
    ([None]: the call rejects). *)
Record Service := mkService {
  uuid : string;
  getCharacteristics : option (list Characteristic);
}.

(** [def.namePatterns.some(pattern => pattern.test(deviceName))]. *)
Definition nameMatches (def : ProtocolDef) (deviceName : string) : bool :=
  existsb (fun pattern => test pattern deviceName) (namePatterns def).

(** [def.serviceUUIDs.length > 0 &&
     def.serviceUUIDs.some(uuid => serviceUUIDs.includes(uuid.toLowerCase()))]. *)
Definition uuidMatches (def : ProtocolDef) (serviceUUIDs' : list string) : bool :=
  ((0 <? List.length (serviceUUIDs def))%nat &&
   existsb (fun uuid => existsb (String.eqb (toLowerCase uuid)) serviceUUIDs')
           (serviceUUIDs def))%bool.

(** Which of the two [console.log] lines reported the detection. *)
Inductive DetectedBy := ByName | ByServiceUUID.

(** The [for (const def of PROTOCOLS)] loop of [detectProtocol]. *)
Fixpoint detectLoop (defs : list ProtocolDef) (deviceName : string)
         (serviceUUIDs' : list string) : option (DetectedBy * ProtocolDef) :=
  match defs with
  | [] => None
  | def :: rest =>
      if nameMatches def deviceName then Some (ByName, def)
      else if uuidMatches def serviceUUIDs' then Some (ByServiceUUID, def)
      else detectLoop rest deviceName serviceUUIDs'
  end.

(** [detectProtocol(deviceName, services)]; [None] is the [null] result. *)
Definition detectProtocol (deviceName : string) (services : list Service)
  : option Protocol :=
  let serviceUUIDs' := map (fun s => toLowerCase (uuid s)) services in
  option_map (fun d => protocol (snd d))
             (detectLoop PROTOCOLS deviceName serviceUUIDs').

(** [isCoyote(deviceName)]. *)
Definition isCoyote (deviceName : string) : bool :=
  match deviceName with
  | EmptyString => false
  | _ =>
      let name := toLowerCase deviceName in
      (startsWith name "d-lab" || startsWith name "dg-lab" ||
       startsWith name "47l" || startsWith name "coyote" ||
       includes name "estim")%bool
  end.

(* ================================================================== *)
(** ** The connection manager ([vibrator.js], [connectCoyote]) *)
(* ================================================================== *)

(** An exception or promise rejection, by its message. *)
Definition Error := string.

(** What the BLE stack answers during one pass through the [try] block of
    the retry loop. *)
Record GattAttempt := mkAttempt {
  (** [device.gatt.connect()]: [None] resolves, [Some e] rejects with [e]. *)
  gatt_connect : option Error;
  (** [server.getPrimaryServices()]. *)
  getPrimaryServices : Error + list Service;
}.

(** The observable steps of the retry loop. *)
Inductive LoopEvent :=
| EvGattConnect (attempt : nat)
| EvDelay (ms : Z)
| EvGetPrimaryServices (attempt : nat)
| EvWarn (attempt : nat) (message : Error).

(** How the [for] statement is left. *)
Inductive LoopResult :=
| Broke (services : list Service)
| Threw (e : Error)
| Fell.

(** The [try] block: connect, settle for 300 ms, enumerate the services. *)
Definition tryBlock (a : GattAttempt) (attempt : nat)
  : list LoopEvent * (Error + list Service) :=
  match gatt_connect a with
  | Some e => ([EvGattConnect attempt], inl e)
  | None =>
      ([EvGattConnect attempt; EvDelay 300; EvGetPrimaryServices attempt],
       getPrimaryServices a)
  end.

(** [for (let attempt = 1; attempt <= 3; attempt++) { try ... catch ... }],
    as an iteration over the attempt numbers; [env attempt] is what the BLE
    stack does on that attempt. *)
Fixpoint connectLoop (env : nat -> GattAttempt) (attempts : list nat)
  : list LoopEvent * LoopResult :=
  match attempts with
  | [] => ([], Fell)
  | attempt :: rest =>
      match tryBlock (env attempt) attempt with
      | (evs, inr services) => (evs, Broke services)
      | (evs, inl e) =>
          if (attempt =? 3)%nat
          then (evs ++ [EvWarn attempt e], Threw e)
          else
            let '(evs', r) := connectLoop env rest in
            (evs ++ [EvWarn attempt e; EvDelay 500] ++ evs', r)
      end
  end.

Definition retryConnect (env : nat -> GattAttempt)
  : list LoopEvent * LoopResult :=
  connectLoop env [1; 2; 3]%nat.

(** Whether the [try] block of attempt [n] completes or throws. *)
Definition attemptOutcome (env : nat -> GattAttempt) (n : nat)
  : Error + list Service :=
  snd (tryBlock (env n) n).

(** The number of [device.gatt.connect()] calls in a trace. *)
Definition connectCalls (evs : list LoopEvent) : nat :=
  List.length
    (filter (fun e => match e with EvGattConnect _ => true | _ => false end) evs).

Inductive WriteMethod := WriteValue | WriteValueWithoutResponse.

(** One characteristic write. *)
Record BleWrite := mkBleWrite {
  target : Characteristic;
  method : WriteMethod;
  payload : Bytes;
}.

Inductive Version := V3 | V2.

Definition COYOTE_V3_CONTROL_SERVICE := "0000180c-0000-1000-8000-00805f9b34fb".
Definition COYOTE_V3_WRITE_CHAR := "0000150a-0000-1000-8000-00805f9b34fb".
Definition COYOTE_V2_SERVICE_A := "955a180a-0fe2-f5aa-a094-84b8d4f3e8ad".
Definition COYOTE_V2_SERVICE_B := "955a180b-0fe2-f5aa-a094-84b8d4f3e8ad".
Definition COYOTE_V2_POWER := "955a1504-0fe2-f5aa-a094-84b8d4f3e8ad".
Definition COYOTE_V2_WAVE_A := "955a1506-0fe2-f5aa-a094-84b8d4f3e8ad".
Definition COYOTE_V2_WAVE_B := "955a1505-0fe2-f5aa-a094-84b8d4f3e8ad".

(** [buildBFCommand({ limitA: 200, limitB: 200 })]. *)
Definition buildBFCommand (limitA limitB : Z) : Bytes :=
  map ToUint8 [0xBF; limitA; limitB; 160; 160; 30; 30].

(** What [connectCoyote] resolves to. *)
Record CoyoteLink := mkCoyoteLink {
  l_writeChar : Characteristic;
  l_waveAChar : option Characteristic;
  l_waveBChar : option Characteristic;
  l_version : Version;
  l_protocol : Protocol;
}.

(** [connectV3]: the write characteristic of the control service. *)
Definition connectV3 (service : Service) : Error + CoyoteLink :=
  match getCharacteristics service with
  | None => inl "NotFoundError"
  | Some chars =>
      match find (fun c => String.eqb (c_uuid c) COYOTE_V3_WRITE_CHAR) chars with
      | None => inl "NotFoundError"
      | Some c => inr (mkCoyoteLink c None None V3 Coyote)
      end
  end.

(** The scan of [connectV2]: the last characteristic seen with each UUID. *)
Definition scanV2 (allServices : list Service)
  : option Characteristic * option Characteristic * option Characteristic :=
  let v2Services :=
    filter (fun s => (String.eqb (uuid s) COYOTE_V2_SERVICE_A ||
                      String.eqb (uuid s) COYOTE_V2_SERVICE_B)%bool) allServices in
  fold_left
    (fun acc svc =>
       match getCharacteristics svc with
       | None => acc
       | Some chars =>
           fold_left
             (fun '(powerChar, waveAChar, waveBChar) c =>
                (if String.eqb (c_uuid c) COYOTE_V2_POWER then Some c else powerChar,
                 if String.eqb (c_uuid c) COYOTE_V2_WAVE_A then Some c else waveAChar,
                 if String.eqb (c_uuid c) COYOTE_V2_WAVE_B then Some c else waveBChar))
             chars acc
       end)
    v2Services (None, None, None).

Definition connectV2 (allServices : list Service) : Error + CoyoteLink :=
  match scanV2 allServices with
  | (None, _, _) =>
      inl "V2 power characteristic not found. Device may use different protocol."
  | (Some powerChar, waveAChar, waveBChar) =>
      inr (mkCoyoteLink powerChar waveAChar waveBChar V2 CoyoteV2)
  end.

(** [connectCoyote(device, server, services)]. *)
Definition connectCoyote (services : list Service) : Error + CoyoteLink :=
  match find (fun s => String.eqb (uuid s) COYOTE_V3_CONTROL_SERVICE) services with
  | Some v3Service => connectV3 v3Service
  | None =>
      if existsb (fun s => (String.eqb (uuid s) COYOTE_V2_SERVICE_B ||
                            String.eqb (uuid s) COYOTE_V2_SERVICE_A)%bool) services
      then connectV2 services
      else inl "No known Coyote service found. Check console for available services."
  end.

(** The handle returned by [connect], with the variables its closures
    capture. *)
Record Handle := mkHandle {
  h_name : string;
  h_protocol : Protocol;
  writeChar : Characteristic;
  waveAChar : option Characteristic;
  waveBChar : option Characteristic;
  useWriteWithoutResponse : bool;
}.

(** The writes attempted by [protocol.init(writeChar)]. *)
Definition init (h : Handle) : list BleWrite :=
  match h_protocol h with
  | Satisfyer => [mkBleWrite (writeChar h) WriteValue (map ToUint8 [0x01])]
  | WeVibe =>
      [mkBleWrite (writeChar h) WriteValue
         (map ToUint8 [0x0f; 0x03; 0x00; 0x99; 0x00; 0x03; 0x00; 0x00]);
       mkBleWrite (writeChar h) WriteValue
         (map ToUint8 [0x0f; 0x00; 0x00; 0x00; 0x00; 0x00; 0x00; 0x00])]
  | Coyote => [mkBleWrite (writeChar h) WriteValue (buildBFCommand 200 200)]
  | CoyoteV2 =>
      let waveCmd := encodeV2Wave 10 100 10 in
      let w c := mkBleWrite c WriteValueWithoutResponse waveCmd in
      match waveAChar h with Some c => [w c] | None => [] end ++
      match waveBChar h with Some c => [w c] | None => [] end
  | _ => []
  end.

(** [services.find(s => !s.uuid.startsWith('00001800') &&
    !s.uuid.startsWith('00001801')) || services[0]]; [None] is the
    [undefined] of an empty service list. *)
Definition targetService (services : list Service) : option Service :=
  match find (fun s => (negb (startsWith (uuid s) "00001800") &&
                        negb (startsWith (uuid s) "00001801"))%bool) services with
  | Some s => Some s
  | None => nth_error services 0
  end.

(** [c => c.properties.write || c.properties.writeWithoutResponse]. *)
Definition writable (c : Characteristic) : bool :=
  (write c || writeWithoutResponse c)%bool.

(** The part of [connect] that follows the retry loop, up to the returned
    handle. *)
Definition openDevice (deviceName : string) (services : list Service)
  : Error + Handle :=
  if isCoyote deviceName then
    match connectCoyote services with
    | inl e => inl e
    | inr result =>
        inr (mkHandle deviceName (l_protocol result) (l_writeChar result)
               (l_waveAChar result) (l_waveBChar result)
               (match l_version result with V2 => true | V3 => false end))
    end
  else
    let protocol :=
      match detectProtocol deviceName services with
      | Some p => p
      | None => Lovense
      end in
    match targetService services with
    | None => inl "TypeError"
    | Some targetService =>
        match getCharacteristics targetService with
        | None => inl "getCharacteristics rejected"
        | Some chars =>
            match find writable chars with
            | None => inl "No writable characteristic found"
            | Some writeChar =>
                inr (mkHandle deviceName protocol writeChar None None false)
            end
        end
    end.

(** [connect()] once the user has picked the device called [deviceName]. *)
Definition connect (deviceName : string) (env : nat -> GattAttempt)
  : list LoopEvent * (Error + Handle) :=
  match retryConnect env with
  | (evs, Broke services) => (evs, openDevice deviceName services)
  | (evs, Threw e) => (evs, inl e)
  | (evs, Fell) => (evs, inl "TypeError")
  end.

(** [writeToChar(char, data)]. *)
Definition writeToChar (h : Handle) (char : Characteristic) (data : Bytes)
  : BleWrite :=
  if (useWriteWithoutResponse h || negb (write char))%bool
  then mkBleWrite char WriteValueWithoutResponse data
  else mkBleWrite char WriteValue data.

(** Whether the protocol object has a [sendCommand] method. *)
Definition hasSendCommand (p : Protocol) : bool :=
  match p with CoyoteV2 => true | _ => false end.

(** What [send] hands to the device layer. *)
Inductive SendAction :=
| ViaSendCommand (intensity : Q)
| DirectWrite (w : BleWrite).

(** The variables captured by the closures of the handle. *)
Record ManagerState := mkManager {
  _active : bool;
  _lastCommand : option Bytes;
  _lastIntensity : Q;
}.

(** [send(intensity)]. *)
Definition send (h : Handle) (m : ManagerState) (st : ProtoState) (intensity : Q)
  : ManagerState * ProtoState * SendAction :=
  let '(st', cmd) := buildCommand (h_protocol h) st intensity in
  let m' := {| _active := _active m; _lastCommand := Some cmd;
               _lastIntensity := intensity |} in
  if hasSendCommand (h_protocol h)
  then (m', st', ViaSendCommand intensity)
  else (m', st', DirectWrite (writeToChar h (writeChar h) cmd)).

(* ================================================================== *)
(** ** The V2 write gate ([v2Protocol.sendCommand] / [stopCommand]) *)
(* ================================================================== *)

(** The closures of [connectV2] run on the single-threaded event loop: a
    call runs without interruption until it reaches an [await], and resumes
    when the awaited promise settles.  A state of the model is the content
    of the variables the closures share, plus the characteristic writes
    that have been issued and have not settled yet.  An event is one task of
    the event loop. *)
Module V2Gate.

Inductive Target := WaveA | WaveB | Power.

(** The suspended call that awaits an outstanding write. *)
Inductive Task :=
| SendTask (level : Z) (target : Target)
| StopTask.

Inductive WriteResult :=
| Resolved
| Rejected (mentionsDisconnected : bool).

Inductive Event :=
(** a call of [sendCommand(intensity, writeChar)] *)
| SendCommand (intensity : Q)
(** a call of [stopCommand()] *)
| StopCommand
(** the 10 ms timer of a [stopCommand] waiting in its [while] loop fires *)
| StopPoll
(** the [k]-th outstanding write settles *)
| Settle (k : nat) (r : WriteResult)
(** the [gattserverdisconnected] listener runs *)
| GattDisconnected.

Record State := mkState {
  v2State : coyote_v2.State;
  v2Sending : bool;
  v2Pending : option Q;
  (** writes issued and not yet settled, oldest first *)
  inflight : list Task;
  (** levels of the power writes that resolved, oldest first *)
  transmitted : list Z;
  (** [stopCommand] calls sleeping in the [while (v2Sending)] loop *)
  stopWaiting : nat;
}.

Definition initial : State :=
  {| v2State := coyote_v2.initialState; v2Sending := false; v2Pending := None;
     inflight := []; transmitted := []; stopWaiting := 0 |}.

(** The bytes of the write a task is waiting for. *)
Definition taskPayload (t : Task) : Bytes :=
  match t with
  | SendTask level Power => encodeV2Power level level
  | SendTask _ _ => encodeV2Wave 10 100 10
  | StopTask => encodeV2Power 0 0
  end.

Section Gate.

(** Whether [connectV2] found the two waveform characteristics. *)
Variables (waveAChar waveBChar : bool).

Definition issue (s : State) (t : Task) : State :=
  {| v2State := v2State s; v2Sending := v2Sending s; v2Pending := v2Pending s;
     inflight := inflight s ++ [t]; transmitted := transmitted s;
     stopWaiting := stopWaiting s |}.

(** [sendCommand(intensity, writeChar)] up to its first [await]. *)
Definition sendCommand (s : State) (intensity : Q) : State :=
  if negb (coyote_v2.connected (v2State s)) then s
  else if v2Sending s then
    {| v2State := v2State s; v2Sending := v2Sending s;
       v2Pending := Some intensity;
       inflight := inflight s; transmitted := transmitted s;
       stopWaiting := stopWaiting s |}
  else
    let level := Math_round (intensity * 1024) in
    let s1 :=
      {| v2State :=
           {| coyote_v2.intensityA := level; coyote_v2.intensityB := level;
              coyote_v2.interval := coyote_v2.interval (v2State s);
              coyote_v2.connected := coyote_v2.connected (v2State s) |};
         v2Sending := true; v2Pending := v2Pending s;
         inflight := inflight s; transmitted := transmitted s;
         stopWaiting := stopWaiting s |} in
    if waveAChar then issue s1 (SendTask level WaveA)
    else if waveBChar then issue s1 (SendTask level WaveB)
    else issue s1 (SendTask level Power).

(** The [finally] block of [sendCommand]. *)
Definition sendFinally (s : State) : State :=
  let s1 :=
    {| v2State := v2State s; v2Sending := false; v2Pending := v2Pending s;
       inflight := inflight s; transmitted := transmitted s;
       stopWaiting := stopWaiting s |} in
  match v2Pending s1 with
  | Some pending =>
      sendCommand
        {| v2State := v2State s1; v2Sending := v2Sending s1; v2Pending := None;
           inflight := inflight s1; transmitted := transmitted s1;
           stopWaiting := stopWaiting s1 |}
        pending
  | None => s1
  end.

(** The [catch] block of [sendCommand]. *)
Definition sendCatch (s : State) (mentionsDisconnected : bool) : State :=
  if mentionsDisconnected then
    {| v2State :=
         {| coyote_v2.intensityA := coyote_v2.intensityA (v2State s);
            coyote_v2.intensityB := coyote_v2.intensityB (v2State s);
            coyote_v2.interval := coyote_v2.interval (v2State s);
            coyote_v2.connected := false |};
       v2Sending := v2Sending s; v2Pending := v2Pending s;
       inflight := inflight s; transmitted := transmitted s;
       stopWaiting := stopWaiting s |}
  else s.

Definition logTransmitted (s : State) (level : Z) : State :=
  {| v2State := v2State s; v2Sending := v2Sending s; v2Pending := v2Pending s;
     inflight := inflight s; transmitted := transmitted s ++ [level];
     stopWaiting := stopWaiting s |}.

(** [stopCommand()] from the end of its [while] loop to its [await]. *)
Definition stopEnter (s : State) : State :=
  issue
    {| v2State :=
         {| coyote_v2.intensityA := 0; coyote_v2.intensityB := 0;
            coyote_v2.interval := coyote_v2.interval (v2State s);
            coyote_v2.connected := coyote_v2.connected (v2State s) |};
       v2Sending := true; v2Pending := None;
       inflight := inflight s; transmitted := transmitted s;
       stopWaiting := stopWaiting s |}
    StopTask.

(** The [finally] block of [stopCommand]. *)
Definition stopFinally (s : State) : State :=
  {| v2State := v2State s; v2Sending := false; v2Pending := v2Pending s;
     inflight := inflight s; transmitted := transmitted s;
     stopWaiting := stopWaiting s |}.

(** The continuation of a suspended call once its write has settled. *)
Definition resume (s : State) (t : Task) (r : WriteResult) : State :=
  match t, r with
  | SendTask level WaveA, Resolved =>
      if waveBChar then issue s (SendTask level WaveB)
      else issue s (SendTask level Power)
  | SendTask level WaveB, Resolved => issue s (SendTask level Power)
  | SendTask level Power, Resolved => sendFinally (logTransmitted s level)
  | SendTask _ _, Rejected d => sendFinally (sendCatch s d)
  | StopTask, Resolved => stopFinally (logTransmitted s 0)
  | StopTask, Rejected _ => stopFinally s
  end.

Fixpoint removeNth {A} (k : nat) (l : list A) : list A :=
  match k, l with
  | _, [] => []
  | O, _ :: l' => l'
  | S k', x :: l' => x :: removeNth k' l'
  end.

(** One task of the event loop. *)
Definition step (s : State) (e : Event) : State :=
  match e with
  | SendCommand intensity => sendCommand s intensity
  | StopCommand =>
      if v2Sending s then
        {| v2State := v2State s; v2Sending := v2Sending s;
           v2Pending := v2Pending s; inflight := inflight s;
           transmitted := transmitted s; stopWaiting := S (stopWaiting s) |}
      else stopEnter s
  | StopPoll =>
      match stopWaiting s with
      | O => s
      | S n =>
          if v2Sending s then s
          else stopEnter
                 {| v2State := v2State s; v2Sending := v2Sending s;
                    v2Pending := v2Pending s; inflight := inflight s;
                    transmitted := transmitted s; stopWaiting := n |}
      end
  | Settle k r =>
      match nth_error (inflight s) k with
      | None => s
      | Some t =>
          resume
            {| v2State := v2State s; v2Sending := v2Sending s;
               v2Pending := v2Pending s; inflight := removeNth k (inflight s);
               transmitted := transmitted s; stopWaiting := stopWaiting s |}
            t r
      end
  | GattDisconnected =>
      {| v2State :=
           {| coyote_v2.intensityA := coyote_v2.intensityA (v2State s);
              coyote_v2.intensityB := coyote_v2.intensityB (v2State s);
              coyote_v2.interval := coyote_v2.interval (v2State s);
              coyote_v2.connected := false |};
         v2Sending := v2Sending s; v2Pending := v2Pending s;
         inflight := inflight s; transmitted := transmitted s;
         stopWaiting := stopWaiting s |}
  end.

(** The state after a sequence of tasks. *)
Definition run (s : State) (evs : list Event) : State := fold_left step evs s.

End Gate.

(** An interleaving made of send requests and of writes that resolve. *)
Definition sendOnly (e : Event) : bool :=
  match e with
  | SendCommand _ => true
  | Settle _ Resolved => true
  | _ => false
  end.

(** How many writes are still to resolve before the gate is idle: those of
    the send under way, and three at most for a pending intensity. *)
Definition remaining (t : Task) : nat :=
  match t with
  | SendTask _ WaveA => 3
  | SendTask _ WaveB => 2
  | SendTask _ Power => 1
  | StopTask => 1
  end.

Definition backlog (s : State) : nat :=
  (match v2Pending s with Some _ => 3 | None => 0 end +
   match inflight s with t :: _ => remaining t | [] => 0 end)%nat.

(** The request that is the most recent one after event [e]. *)
Definition requestAfter (req : option Q) (e : Event) : option Q :=
  match e with
  | SendCommand i => Some i
  | _ => req
  end.

(** The intensity of the most recent [sendCommand] call of a trace. *)
Definition lastRequested (evs : list Event) : option Q :=
  fold_left requestAfter evs None.

(** The level [sendCommand] computes from an intensity. *)
Definition levelOf (intensity : Q) : Z := Math_round (intensity * 1024).

(** The last element of a log. *)
Definition latest {A} (l : list A) : option A :=
  match rev l with
  | x :: _ => Some x
  | [] => None
  end.

(** The gate: the flag [v2Sending] is up exactly while one write is
    outstanding, and no second write is. *)
Definition Gated (s : State) : Prop :=
  if v2Sending s then List.length (inflight s) = 1%nat else inflight s = [].

(** What relates a state to the most recent request [req], as long as the
    device stays connected and every write resolves: while a send is under
    way, the pending slot holds the most recent request, or is empty and
    the send under way is the most recent request; once idle, the last power
    level transmitted is that of the most recent request. *)
Definition Converging (s : State) (req : option Q) : Prop :=
  coyote_v2.connected (v2State s) = true /\
  if v2Sending s then
    exists level target,
      inflight s = [SendTask level target] /\
      match v2Pending s with
      | Some p => req = Some p
      | None => exists i, req = Some i /\ level = levelOf i
      end
  else
    inflight s = [] /\ v2Pending s = None /\
    match req with
    | Some i => latest (transmitted s) = Some (levelOf i)
    | None => transmitted s = []
    end.

End V2Gate.

(* ================================================================== *)
(** ** The session value engine ([config.js]) *)
(* ================================================================== *)

Module config.

(** The object returned by an arc function. *)
Record Range := mkRange {
  min : Q;
  max : Q;
}.

(** [SESSION_ARCS], in the order of the object literal. *)
Definition SESSION_ARCS : list (string * (Q -> Range)) :=
  [ ("constant", fun t => {| min := 0; max := 1 |});
    ("open_up", fun t => {| min := 0; max := t |});
    ("close_down", fun t => {| min := 0; max := 1 - t |});
    ("open_down", fun t => {| min := 1 - t; max := 1 |});
    ("close_up", fun t => {| min := t; max := 1 |});
    ("slide_up_wide", fun t => {| min := t * (1#4); max := (3#4) + t * (1#4) |});
    ("slide_up", fun t => {| min := t * (1#2); max := (1#2) + t * (1#2) |});
    ("slide_up_narrow", fun t => {| min := t * (3#4); max := (1#4) + t * (3#4) |});
    ("slide_down_wide", fun t => {| min := (1#4) - t * (1#4); max := 1 - t * (1#4) |});
    ("slide_down", fun t => {| min := (1#2) - t * (1#2); max := 1 - t * (1#2) |});
    ("slide_down_narrow", fun t => {| min := (3#4) - t * (3#4); max := 1 - t * (3#4) |});
    ("focus_high", fun t =>
       let width := 1 - t * (4#5) in
       {| min := Qmax 0 (t - width / 2); max := Qmin 1 (t + width / 2) |});
    ("focus_low", fun t =>
       let width := 1 - t * (4#5) in
       let center := 1 - t in
       {| min := Qmax 0 (center - width / 2); max := Qmin 1 (center + width / 2) |}) ]%Q.

(** [SESSION_ARCS[arcName] || SESSION_ARCS.constant]. *)
Definition arcFn (arcName : string) : Q -> Range :=
  match find (fun entry => String.eqb (fst entry) arcName) SESSION_ARCS with
  | Some entry => snd entry
  | None => fun t => {| min := 0; max := 1 |}
  end.

(** [applySessionArc(arcName, min, max, sessionProgress)]. *)
Definition applySessionArc (arcName : string) (min' max' sessionProgress : Q)
  : Range :=
  let normalized := arcFn arcName sessionProgress in
  let range := (max' - min')%Q in
  {| min := min' + range * min normalized;
     max := min' + range * max normalized |}%Q.

Record SwitchSettings := mkSwitch {
  minInstances : Z;
  maxInstances : Z;
}.

Record CategoryState := mkCategory {
  patterns : list string;
  currentPattern : string;
  index : Z;
  instancesRemaining : Z;
}.

(** [pickRandom(arr)], with [r] the value of [Math.random()]; [None] is the
    [undefined] read past the end of the array. *)
Definition pickRandom {A} (r : Q) (arr : list A) : option A :=
  nth_error arr (Z.to_nat (Math_floor (r * inject_Z (Z.of_nat (List.length arr))))).

(** [randomInRange(min, max)], with [r] the value of [Math.random()]:
    [Math.floor(min + Math.random() * (max - min + 1))], each operation
    rounded to binary64 as JavaScript does. *)
Definition randomInRange (r : PrimFloat.float) (min' max' : Z) : Z :=
  Math_floor64
    (PrimFloat.add (Number min' 0)
       (PrimFloat.mul r
          (PrimFloat.add (PrimFloat.sub (Number max' 0) (Number min' 0))
                         (Number 1 0)))).

(** [advanceCategory(catState, switchSettings)]; [r1] is the draw of
    [pickRandom] and [r2] the draw of [randomInRange].  [pickRandom] is only
    called on a non-empty array here, so the [undefined] case keeps the
    current pattern. *)
Definition advanceCategory (catState : CategoryState)
           (switchSettings : SwitchSettings) (r1 : Q) (r2 : PrimFloat.float)
  : CategoryState :=
  let index' := index catState + 1 in
  let instancesRemaining' := instancesRemaining catState - 1 in
  if ((instancesRemaining' <=? 0) &&
      (1 <? List.length (patterns catState))%nat)%bool
  then
    let otherPatterns :=
      filter (fun p => negb (String.eqb p (currentPattern catState)))
             (patterns catState) in
    let picked :=
      if (0 <? List.length otherPatterns)%nat
      then pickRandom r1 otherPatterns
      else pickRandom r1 (patterns catState) in
    {| patterns := patterns catState;
       currentPattern :=
         match picked with Some p => p | None => currentPattern catState end;
       index := 0;
       instancesRemaining :=
         randomInRange r2 (minInstances switchSettings)
                       (maxInstances switchSettings) |}
  else
    {| patterns := patterns catState;
       currentPattern := currentPattern catState;
       index := index';
       instancesRemaining := instancesRemaining' |}.

End config.


(* ================================================================== *)
(** ** Reading frames back (for the statements about the encoders) *)
(* ================================================================== *)

(** Three bytes as one number, least significant byte first. *)
Definition littleEndian24 (bs : Bytes) : option Z :=
  match bs with
  | [b0; b1; b2] => Some (b0 + Z.shiftl b1 8 + Z.shiftl b2 16)
  | _ => None
  end.

(** Channel B of a V2 power frame: bits 0-10 of the 24-bit value. *)
Definition decodeV2PowerB (bs : Bytes) : option Z :=
  option_map (fun v => Z.land v 0x7FF) (littleEndian24 bs).

(** The fields of byte 1 of a B0 frame:
    [Seq:4bits][ModeB:2bits][ModeA:2bits]. *)
Definition b0Sequence (byte1 : Z) : Z := Z.shiftr byte1 4.
Definition b0ModeB (byte1 : Z) : Z := Z.land (Z.shiftr byte1 2) 3.
Definition b0ModeA (byte1 : Z) : Z := Z.land byte1 3.

(** [Math.min(hi, Math.max(lo, x))] on integers. *)
Definition clamp (lo hi x : Z) : Z := Z.min hi (Z.max lo x).

(** [encodeFrequency] on a whole number of Hz, in integer arithmetic. *)
Definition encodeFrequencyZ (hz : Z) : Z :=
  let hz := clamp 10 1000 hz in
  if hz <=? 100 then hz
  else if hz <=? 600 then (2 * (hz - 100) + 5) / 10 + 100
  else (hz - 600 + 5) / 10 + 200.

(** Two argument objects of [buildFullCommand] combined: a field present in
    [later] wins over the same field of [earlier]. *)
Definition mergeFullOptions (earlier later : coyote.FullOptions)
  : coyote.FullOptions :=
  let pick {A} (l e : option A) := match l with Some x => Some x | None => e end in
  {| coyote.f_intensityA := pick (coyote.f_intensityA later) (coyote.f_intensityA earlier);
     coyote.f_intensityB := pick (coyote.f_intensityB later) (coyote.f_intensityB earlier);
     coyote.f_waveformA := pick (coyote.f_waveformA later) (coyote.f_waveformA earlier);
     coyote.f_waveformB := pick (coyote.f_waveformB later) (coyote.f_waveformB earlier) |}.

(* ================================================================== *)
(** ** The registry's lookups by id ([index.js]) *)
(* ================================================================== *)

(** The [name] property of a protocol object. *)
Definition protocol_name (p : Protocol) : string :=
  match p with
  | Satisfyer => satisfyer.name | Lovense => lovense.name | WeVibe => wevibe.name
  | Lelo => lelo.name | Kiiroo => kiiroo.name | Svakom => svakom.name
  | MagicMotion => magicmotion.name | MysteryVibe => mysteryvibe.name
  | Aneros => aneros.name | Coyote => coyote.name | CoyoteV2 => coyote_v2.name
  end.

(** [getProtocol(id)]: [PROTOCOLS.find(p => p.id === id)?.protocol || null]. *)
Definition getProtocol (id : string) : option Protocol :=
  option_map protocol (find (fun p => String.eqb (def_id p) id) PROTOCOLS).

(** [listProtocols()]. *)
Definition listProtocols : list (string * string) :=
  map (fun p => (def_id p, protocol_name (protocol p))) PROTOCOLS.

(* ================================================================== *)
(** ** The handle returned by [connect] ([vibrator.js]) *)
(* ================================================================== *)

(** The methods of the handle act on the variables [_active],
    [_keepaliveTimer], [_lastCommand], [_lastIntensity] of the closure and
    on the state of the protocol object.  Each method returns the calls it
    makes on the device layer, in order; a characteristic write is recorded
    when it is issued.  What [sendCommand] and [stopCommand] of the V2
    object do once called is the subject of [V2Gate]; here they are recorded
    as calls. *)
Module handle.

Record State := mkState {
  manager : ManagerState;
  (** whether [setInterval] is armed ([_keepaliveTimer] is not [null]) *)
  _keepaliveTimer : bool;
  proto : ProtoState;
}.

Inductive Action :=
| Wrote (w : BleWrite)
| SendCommandCalled (intensity : Q)
| StopCommandCalled.

(** The closure variables right after [connect]. *)
Definition initial (st : ProtoState) : State :=
  {| manager := mkManager false None 0; _keepaliveTimer := false; proto := st |}.

(** Whether [protocol.keepaliveInterval] is truthy. *)
Definition hasKeepalive (p : Protocol) : bool :=
  match keepaliveInterval p with
  | Some ms => negb (ms =? 0)
  | None => false
  end.

(** Whether the protocol object has a [stopCommand] method. *)
Definition hasStopCommand (p : Protocol) : bool :=
  match p with CoyoteV2 => true | _ => false end.

(** [startKeepalive()]. *)
Definition startKeepalive (h : Handle) (s : State) : State :=
  if (hasKeepalive (h_protocol h) && negb (_keepaliveTimer s))%bool
  then {| manager := manager s; _keepaliveTimer := true; proto := proto s |}
  else s.

(** [stopKeepalive()]. *)
Definition stopKeepalive (s : State) : State :=
  {| manager := manager s; _keepaliveTimer := false; proto := proto s |}.

(** [send(intensity)] of the handle. *)
Definition send (h : Handle) (s : State) (intensity : Q) : State * list Action :=
  let '(m', st', action) := send h (manager s) (proto s) intensity in
  ({| manager := m'; _keepaliveTimer := _keepaliveTimer s; proto := st' |},
   match action with
   | ViaSendCommand i => [SendCommandCalled i]
   | DirectWrite w => [Wrote w]
   end).

(** [activate(intensity)]. *)
Definition activate (h : Handle) (s : State) (intensity : Q)
  : State * list Action :=
  let s1 :=
    {| manager := {| _active := true;
                     _lastCommand := _lastCommand (manager s);
                     _lastIntensity := _lastIntensity (manager s) |};
       _keepaliveTimer := _keepaliveTimer s; proto := proto s |} in
  send h (startKeepalive h s1) intensity.

(** [stop()]. *)
Definition stop (h : Handle) (s : State) : State * list Action :=
  let s1 := stopKeepalive s in
  let m' := {| _active := false; _lastCommand := None; _lastIntensity := 0 |} in
  if hasStopCommand (h_protocol h)
  then ({| manager := m'; _keepaliveTimer := _keepaliveTimer s1;
           proto := proto s1 |},
        [StopCommandCalled])
  else
    let '(st', cmd) := buildStopCommand (h_protocol h) (proto s1) in
    ({| manager := m'; _keepaliveTimer := _keepaliveTimer s1; proto := st' |},
     [Wrote (writeToChar h (writeChar h) cmd)]).

(** The callback given to [setInterval], which runs only while the timer is
    armed. *)
Definition tick (h : Handle) (s : State) : list Action :=
  if _keepaliveTimer s then
    if _active (manager s) then
      if hasSendCommand (h_protocol h)
      then [SendCommandCalled (_lastIntensity (manager s))]
      else match _lastCommand (manager s) with
           | Some cmd => [Wrote (writeToChar h (writeChar h) cmd)]
           | None => []
           end
    else []
  else [].

(** [disconnect()], as far as the closure variables go. *)
Definition disconnect (s : State) : State := stopKeepalive s.

(** [isActive]. *)
Definition isActive (s : State) : bool := _active (manager s).

(** A call made on the handle by its user; [activate()] without an argument
    takes the default intensity 0.5. *)
Inductive Call :=
| CallSend (intensity : Q)
| CallActivate (intensity : option Q)
| CallStop
| CallDisconnect.

Definition call (h : Handle) (s : State) (c : Call) : State * list Action :=
  match c with
  | CallSend intensity => send h s intensity
  | CallActivate (Some intensity) => activate h s intensity
  | CallActivate None => activate h s (1 # 2)
  | CallStop => stop h s
  | CallDisconnect => (disconnect s, [])
  end.

(** The state after a sequence of calls, each one awaited. *)
Definition calls (h : Handle) (s : State) (cs : list Call) : State :=
  fold_left (fun s c => fst (call h s c)) cs s.

End handle.

(** The characteristic writes one [sendCommand] makes when every write
    resolves: the power write, after one waveform write per waveform
    characteristic found. *)
Definition writesPerSend (waveAChar waveBChar : bool) : nat :=
  ((if waveAChar then 1 else 0) + (if waveBChar then 1 else 0) + 1)%nat.

(* ================================================================== *)
(** ** Patterns and session state ([config.js], continued) *)
(* ================================================================== *)

Module engine.

(** [PATTERNS], in the order of the object literal. *)
Definition PATTERNS : list (string * list Q) :=
  [ ("constant", [1]);
    ("climb", [0; 2 # 10; 4 # 10; 6 # 10; 8 # 10; 1]);
    ("descend", [1; 8 # 10; 6 # 10; 4 # 10; 2 # 10; 0]);
    ("pulse", [5 # 10; 8 # 10; 5 # 10; 8 # 10; 5 # 10; 1]);
    ("tease", [3 # 10; 6 # 10; 3 # 10; 7 # 10; 3 # 10; 8 # 10; 3 # 10; 1]);
    ("surge", [4 # 10; 4 # 10; 6 # 10; 6 # 10; 8 # 10; 8 # 10; 1; 1]);
    ("wave", [3 # 10; 5 # 10; 8 # 10; 1; 8 # 10; 5 # 10; 3 # 10]);
    ("heartbeat", [2 # 10; 1; 4 # 10; 8 # 10; 2 # 10]);
    ("staircase", [25 # 100; 25 # 100; 5 # 10; 5 # 10; 75 # 100; 75 # 100; 1; 1]) ]%Q.

(** [PATTERNS[patternName] || PATTERNS.constant].  A name that the object
    literal does not define falls back to [constant]; names that JavaScript
    finds on [Object.prototype] are outside the model. *)
Definition patternOf (patternName : string) : list Q :=
  match find (fun entry => String.eqb (fst entry) patternName) PATTERNS with
  | Some entry => snd entry
  | None => [1%Q]
  end.

(** [getPatternValue(patternName, index, min, max)], with [r] the value of
    [Math.random()].  [%] is the remainder with the sign of [index]; [None]
    is the [NaN] that results from reading the array at a negative
    position. *)
Definition getPatternValue (r : Q) (patternName : string) (index : Z)
           (min' max' : Q) : option Q :=
  if String.eqb patternName "random" then
    Some (min' + r * (max' - min'))%Q
  else
    let pattern := patternOf patternName in
    let k := Z.rem index (Z.of_nat (List.length pattern)) in
    match (if k <? 0 then None else nth_error pattern (Z.to_nat k)) with
    | Some normalized => Some (min' + normalized * (max' - min'))%Q
    | None => None
    end.

(** [getPatternLength(patternName)]. *)
Definition getPatternLength (patternName : string) : Z :=
  if String.eqb patternName "random" then 1
  else Z.of_nat (List.length (patternOf patternName)).

(** One of [settings.intensity], [settings.delay], [settings.reward]. *)
Record Category := mkCategorySettings {
  metapattern : string;
  c_patterns : list string;
  c_min : Q;
  c_max : Q;
}.

Record Settings := mkSettings {
  (** in seconds *)
  sessionDuration : Q;
  s_intensity : Category;
  s_delay : Category;
  s_reward : Category;
  patternSwitch : config.SwitchSettings;
}.

(** The fields of [DEFAULT_SETTINGS] that the session engine reads. *)
Definition DEFAULT_SETTINGS : Settings :=
  {| sessionDuration := 600;
     s_intensity := mkCategorySettings "close_up" ["climb"; "surge"; "wave"]
                                       (1 # 10) (7 # 10);
     s_delay := mkCategorySettings "focus_high" ["random"] 4 12;
     s_reward := mkCategorySettings "close_down" ["descend"; "surge"; "wave"]
                                    (5 # 10) (12 # 10);
     patternSwitch := config.mkSwitch 8 16 |}.

(** The two values of [Math.random()] used on one category state: by
    [pickRandom] and by [randomInRange]. *)
Record Draw := mkDraw {
  pick : Q;
  instances : PrimFloat.float;
}.

(** [createCategoryState(patterns, switchSettings)].  [pickRandom] reads
    inside the array for every draw in [0, 1); the [undefined] it would
    return otherwise is kept as the property name it is used as. *)
Definition createCategoryState (patterns : list string)
           (switchSettings : config.SwitchSettings) (d : Draw)
  : config.CategoryState :=
  let selectedPatterns :=
    if (0 <? List.length patterns)%nat then patterns else ["constant"] in
  let currentPattern :=
    match config.pickRandom (pick d) selectedPatterns with
    | Some p => p
    | None => "undefined"
    end in
  {| config.patterns := selectedPatterns;
     config.currentPattern := currentPattern;
     config.index := 0;
     config.instancesRemaining :=
       config.randomInRange (instances d)
         (config.minInstances switchSettings)
         (config.maxInstances switchSettings) |}.

(** The session object; times are in milliseconds. *)
Record Session := mkSession {
  intensity : config.CategoryState;
  delay : config.CategoryState;
  reward : config.CategoryState;
  step : Z;
  startTime : Z;
  duration : Q;
}.

(** [createSession(settings)], with [now] the value of [Date.now()]. *)
Definition createSession (settings : Settings) (now : Z) (dI dD dR : Draw)
  : Session :=
  {| intensity := createCategoryState (c_patterns (s_intensity settings))
                                      (patternSwitch settings) dI;
     delay := createCategoryState (c_patterns (s_delay settings))
                                  (patternSwitch settings) dD;
     reward := createCategoryState (c_patterns (s_reward settings))
                                   (patternSwitch settings) dR;
     step := 0;
     startTime := now;
     duration := (sessionDuration settings * 1000)%Q |}.

(** [getSessionProgress(session)], with [now] the value of [Date.now()].
    With a duration of 0 the quotient is an infinity, which the clamp turns
    into 1 or 0, or it is [NaN] (here [None]) when no time has elapsed. *)
Definition getSessionProgress (now : Z) (session : Session) : option Q :=
  let elapsed := inject_Z (now - startTime session) in
  if Qeq_bool (duration session) 0 then
    if 0 <? now - startTime session then Some 1%Q
    else if now - startTime session <? 0 then Some 0%Q
    else None
  else Some (Qmin 1 (Qmax 0 (elapsed / duration session))).

(** [isSessionComplete(session)]; [NaN >= 1] is false. *)
Definition isSessionComplete (now : Z) (session : Session) : bool :=
  match getSessionProgress now session with
  | Some progress => Qle_bool 1 progress
  | None => false
  end.

(** The values of [Math.random()] used by one call of [getNextValues]. *)
Record Draws := mkDraws {
  valueI : Q;
  valueD : Q;
  valueR : Q;
  advanceI : Draw;
  advanceD : Draw;
  advanceR : Draw;
}.

(** The object returned by [getNextValues]. *)
Record Values := mkValues {
  v_intensity : option Q;
  v_delay : option Q;
  v_reward : option Q;
  v_progress : Q;
}.

(** [getNextValues(settings, session)]: the returned object and the session
    after the call.  [None] stands for a call whose progress is [NaN], which
    the model does not follow further. *)
Definition getNextValues (settings : Settings) (session : Session)
           (now : Z) (d : Draws) : option (Values * Session) :=
  match getSessionProgress now session with
  | None => None
  | Some progress =>
      let intensityRange :=
        config.applySessionArc (metapattern (s_intensity settings))
          (c_min (s_intensity settings)) (c_max (s_intensity settings))
          progress in
      let delayRange :=
        config.applySessionArc (metapattern (s_delay settings))
          (c_min (s_delay settings) * 1000)%Q (c_max (s_delay settings) * 1000)%Q
          progress in
      let rewardRange :=
        config.applySessionArc (metapattern (s_reward settings))
          (c_min (s_reward settings) * 1000)%Q (c_max (s_reward settings) * 1000)%Q
          progress in
      let intensity' :=
        getPatternValue (valueI d)
          (config.currentPattern (intensity session))
          (config.index (intensity session))
          (config.min intensityRange) (config.max intensityRange) in
      let delay' :=
        getPatternValue (valueD d)
          (config.currentPattern (delay session))
          (config.index (delay session))
          (config.min delayRange) (config.max delayRange) in
      let reward' :=
        getPatternValue (valueR d)
          (config.currentPattern (reward session))
          (config.index (reward session))
          (config.min rewardRange) (config.max rewardRange) in
      Some
        ({| v_intensity := intensity'; v_delay := delay'; v_reward := reward';
            v_progress := progress |},
         {| intensity :=
              config.advanceCategory (intensity session) (patternSwitch settings)
                (pick (advanceI d)) (instances (advanceI d));
            delay :=
              config.advanceCategory (delay session) (patternSwitch settings)
                (pick (advanceD d)) (instances (advanceD d));
            reward :=
              config.advanceCategory (reward session) (patternSwitch settings)
                (pick (advanceR d)) (instances (advanceR d));
            step := step session + 1;
            startTime := startTime session;
            duration := duration session |})
  end.

(** A session played through: one call of [getNextValues] per element, at
    the given time with the given draws. *)
Fixpoint play (settings : Settings) (session : Session)
         (calls : list (Z * Draws)) : option (list Values * Session) :=
  match calls with
  | [] => Some ([], session)
  | (now, d) :: rest =>
      match getNextValues settings session now d with
      | None => None
      | Some (values, session') =>
          match play settings session' rest with
          | None => None
          | Some (more, final) => Some (values :: more, final)
          end
      end
  end.

(** *** Predicates of the statements *)

(** A pattern name of the selection lists: [random] or a key of
    [PATTERNS]. *)
Definition knownPattern (patternName : string) : bool :=
  (String.eqb patternName "random" ||
   existsb (fun entry => String.eqb (fst entry) patternName) PATTERNS)%bool.

Definition knownArc (arcName : string) : bool :=
  existsb (fun entry => String.eqb (fst entry) arcName) config.SESSION_ARCS.

Definition unitDraw (r : Q) : Prop := (0 <= r < 1)%Q.

Definition unitDraws (d : Draws) : Prop :=
  unitDraw (valueI d) /\ unitDraw (valueD d) /\ unitDraw (valueR d) /\
  unitDraw (pick (advanceI d)) /\ unitDraw (pick (advanceD d)) /\
  unitDraw (pick (advanceR d)).

(** A category of the settings whose names are known and whose range is not
    empty. *)
Definition wellFormed (c : Category) : Prop :=
  forallb knownPattern (c_patterns c) = true /\
  knownArc (metapattern c) = true /\
  (c_min c <= c_max c)%Q.

(** A value that is a number between two bounds. *)
Definition within (lo hi : Q) (v : option Q) : Prop :=
  match v with
  | Some x => (lo <= x <= hi)%Q
  | None => False
  end.

End engine.

(** [isConstantOnly(patterns)] of [main.js]. *)
Definition isConstantOnly (patterns : list string) : bool :=
  match patterns with
  | [p] => String.eqb p "constant"
  | _ => false
  end.

(** [shouldGreyOutMin(metapattern, patterns)] of [main.js]. *)
Definition shouldGreyOutMin (metapattern : string) (patterns : list string)
  : bool :=
  (String.eqb metapattern "constant" && isConstantOnly patterns)%bool.

(* ================================================================== *)
(** ** Speech matching ([speech/recognition.js]) *)
(* ================================================================== *)

(** Transcripts and prompts are strings of ASCII characters here, one
    [ascii] per character. *)
Module recognition.

(** The ASCII characters of the regular expression class [\s]; they are
    also the ASCII characters that [trim] removes. *)
Definition isSpace (c : ascii) : bool :=
  let n := nat_of_ascii c in
  ((Nat.leb 9 n && Nat.leb n 13) || Nat.eqb n 32)%bool.

(** The class [\w]: digits, letters and the underscore. *)
Definition isWord (c : ascii) : bool :=
  let n := nat_of_ascii c in
  ((Nat.leb 48 n && Nat.leb n 57) || (Nat.leb 65 n && Nat.leb n 90) ||
   Nat.eqb n 95 || (Nat.leb 97 n && Nat.leb n 122))%bool.

Fixpoint trimStart (s : string) : string :=
  match s with
  | EmptyString => EmptyString
  | String c s' => if isSpace c then trimStart s' else s
  end.

Fixpoint trimEnd (s : string) : string :=
  match s with
  | EmptyString => EmptyString
  | String c s' =>
      match trimEnd s' with
      | EmptyString => if isSpace c then EmptyString else String c EmptyString
      | rest => String c rest
      end
  end.

(** [s.trim()]. *)
Definition trim (s : string) : string := trimEnd (trimStart s).

(** [s.replace(/[^\w\s]/g, '')]. *)
Fixpoint removeOthers (s : string) : string :=
  match s with
  | EmptyString => EmptyString
  | String c s' =>
      if (isWord c || isSpace c)%bool then String c (removeOthers s')
      else removeOthers s'
  end.

(** [clean(s)]. *)
Definition clean (s : string) : string :=
  removeOthers (trim (toLowerCase s)).

(** [s.split(sep)] for a separator of one character: the pieces between
    the separators, at least one. *)
Fixpoint split (sep : ascii) (s : string) : list string :=
  match s with
  | EmptyString => [EmptyString]
  | String c s' =>
      if Ascii.eqb c sep then EmptyString :: split sep s'
      else match split sep s' with
           | piece :: pieces => String c piece :: pieces
           | [] => [String c EmptyString]
           end
  end.

(** [e.split(' ').pop()]. *)
Definition keyWord (e : string) : string := last (split " " e) EmptyString.

(** [[...e].filter(c => t.includes(c)).length / e.length]; [None] is the
    [NaN] of 0 / 0. *)
Definition overlap (t e : string) : option Q :=
  let count :=
    List.length
      (filter (fun c => includes t (String c EmptyString))
              (list_ascii_of_string e)) in
  if Nat.eqb (String.length e) 0 then None
  else Some (inject_Z (Z.of_nat count) / inject_Z (Z.of_nat (String.length e)))%Q.

(** The [options] argument after its defaults. *)
Record Options := mkOptions {
  threshold : Q;
  substring : bool;
}.

Definition defaultOptions : Options :=
  {| threshold := 7 # 10; substring := true |}.

Inductive Method := exactMatch | substringMatch | keywordMatch | overlapMatch | noMatch.

(** The returned object; the field [match] is [r_match]. *)
Record Result := mkResult {
  r_match : bool;
  r_confidence : option Q;
  r_method : Method;
}.

(** [fuzzyMatch(transcript, expected, options)]. *)
Definition fuzzyMatch (transcript expected : string) (options : Options)
  : Result :=
  let t := clean transcript in
  let e := clean expected in
  if String.eqb t e then mkResult true (Some 1%Q) exactMatch
  else if (substring options && includes t e)%bool
  then mkResult true (Some (9 # 10)) substringMatch
  else if includes t (keyWord e)
  then mkResult true (Some (8 # 10)) keywordMatch
  else
    match overlap t e with
    | Some ratio =>
        if Qle_bool (threshold options) ratio
        then mkResult true (Some ratio) overlapMatch
        else mkResult false (Some ratio) noMatch
    | None => mkResult false None noMatch
    end.

End recognition.

(* ================================================================== *)
(** ** [escapeHtml] ([main.js]) *)
(* ================================================================== *)

(** [s.replace(/c/g, replacement)] for a pattern of one character. *)
Fixpoint replaceAll (c : ascii) (replacement : string) (s : string) : string :=
  match s with
  | EmptyString => EmptyString
  | String x s' =>
      if Ascii.eqb x c then (replacement ++ replaceAll c replacement s')%string
      else String x (replaceAll c replacement s')
  end.

(** The double quote character. *)
Definition doubleQuote : ascii := ascii_of_nat 34.

(** [escapeHtml(str)]. *)
Definition escapeHtml (str : string) : string :=
  replaceAll ">" "&gt;" (replaceAll "<" "&lt;" (replaceAll doubleQuote "&quot;" str)).

(** A string of punctuation: characters that are neither of the class [\w]
    nor of the class [\s].  A predicate of the statements. *)
Definition punctuation (p : string) : bool :=
  forallb (fun c => negb (recognition.isWord c || recognition.isSpace c))
          (list_ascii_of_string p).

(** The text that stands for one character in the output of [escapeHtml],
    as the statements describe it. *)
Definition escapeChar (c : ascii) : string :=
  if Ascii.eqb c doubleQuote then "&quot;"
  else if Ascii.eqb c "<" then "&lt;"
  else if Ascii.eqb c ">" then "&gt;"
  else String c EmptyString.

Fixpoint concatMap (f : ascii -> string) (s : string) : string :=
  match s with
  | EmptyString => EmptyString
  | String c s' => (f c ++ concatMap f s')%string
  end.

(** The three characters [escapeHtml] replaces. *)
Definition isMarkup (c : ascii) : bool :=
  (Ascii.eqb c doubleQuote || Ascii.eqb c "<" || Ascii.eqb c ">")%bool.

(* ================================================================== *)
(** ** The service and the characteristic that [connect] uses *)
(* ================================================================== *)

(** The statements about [connect] name the service and the characteristic
    it ends up with by their place in the lists the device reports. *)

(** A service whose UUID starts with 00001800 or 00001801. *)
Definition genericService (s : Service) : bool :=
  (String.prefix "00001800" (uuid s) || String.prefix "00001801" (uuid s))%bool.

(** [selected services service]: [service] is the first service that is not
    generic, or the first service of all when every service is generic. *)
Inductive selected (services : list Service) (service : Service) : Prop :=
| selected_first_other (generic rest : list Service) :
    services = generic ++ service :: rest ->
    forallb genericService generic = true ->
    genericService service = false ->
    selected services service
| selected_all_generic (rest : list Service) :
    services = service :: rest ->
    forallb genericService services = true ->
    selected services service.

(** A characteristic with neither of the two write properties. *)
Definition readOnly (c : Characteristic) : bool :=
  (negb (write c) && negb (writeWithoutResponse c))%bool.
(* ================================================================== *)
(** * Properties *)
(* ================================================================== *)

(** ** Rounding *)

Lemma inject_Z_le (a b : Z) : (inject_Z a <= inject_Z b)%Q <-> a <= b.
Proof. unfold Qle; simpl; lia. Qed.

Lemma inject_Z_lt (a b : Z) : (inject_Z a < inject_Z b)%Q <-> a < b.
Proof. unfold Qlt; simpl; lia. Qed.

(** [Qfloor x] is the one integer [k] with [k <= x < k + 1]. *)
Lemma Qfloor_unique (x : Q) (k : Z) :
  (inject_Z k <= x)%Q -> (x < inject_Z (k + 1))%Q -> Qfloor x = k.
Proof.
  intros Hlo Hhi.
  pose proof (Qfloor_le x) as Fl.
  pose proof (Qlt_floor x) as Fh.
  assert (k < Qfloor x + 1) by (apply inject_Z_lt; eapply Qle_lt_trans; eauto).
  assert (Qfloor x < k + 1) by (apply inject_Z_lt; eapply Qle_lt_trans; eauto).
  lia.
Qed.

Lemma Math_round_Z (n : Z) : Math_round (inject_Z n) = n.
Proof.
  unfold Math_round. apply Qfloor_unique.
  - lra.
  - rewrite inject_Z_plus. change (inject_Z 1) with 1%Q. lra.
Qed.

Lemma Math_round_mono (x y : Q) : (x <= y)%Q -> Math_round x <= Math_round y.
Proof. intros H. unfold Math_round. apply Qfloor_resp_le. lra. Qed.

Lemma Math_round_bounds (x : Q) (n : Z) :
  (0 <= x <= inject_Z n)%Q -> 0 <= Math_round x <= n.
Proof.
  intros [H0 Hn]. split.
  - pose proof (Math_round_mono (inject_Z 0) x H0) as M.
    rewrite (Math_round_Z 0) in M. exact M.
  - pose proof (Math_round_mono _ _ Hn) as M.
    rewrite (Math_round_Z n) in M. exact M.
Qed.

(** The level computed from an intensity in [0,1] lies in [0, scale]. *)
Lemma level_in_range (intensity : Q) (scale : Z) :
  0 <= scale -> (0 <= intensity <= 1)%Q ->
  0 <= Math_round (intensity * inject_Z scale) <= scale.
Proof.
  intros Hs [H0 H1]. apply Math_round_bounds.
  assert (0 <= inject_Z scale)%Q by (apply (inject_Z_le 0); exact Hs).
  split; [ nra | nra ].
Qed.

(** ** Bytes and bit fields *)

(** Linear arithmetic with division and remainder by constants. *)
Ltac divlia := Z.to_euclidean_division_equations; lia.

Lemma ToUint8_small (z : Z) : 0 <= z < 256 -> ToUint8 z = z.
Proof. intros H. unfold ToUint8. apply Z.mod_small. exact H. Qed.

(** Bits of a number below [2^n] vanish from position [n] on. *)
Lemma testbit_high (x n k : Z) :
  0 <= n -> 0 <= x < 2 ^ n -> n <= k -> Z.testbit x k = false.
Proof.
  intros Hn Hx Hk.
  rewrite <- (Z.mod_small x (2 ^ n)) by exact Hx.
  apply Z.mod_pow2_bits_high. lia.
Qed.

(** Two bit fields that do not overlap are joined by addition. *)
Lemma lor_shiftl_add (x y n : Z) :
  0 <= n -> 0 <= x < 2 ^ n ->
  Z.lor x (Z.shiftl y n) = x + y * 2 ^ n.
Proof.
  intros Hn Hx.
  assert (D : Z.land x (Z.shiftl y n) = 0).
  { apply Z.bits_inj'. intros k Hk.
    rewrite Z.land_spec, Z.bits_0.
    destruct (Z.lt_ge_cases k n) as [Hlt | Hge].
    - rewrite (Z.shiftl_spec_low y n k Hlt). apply andb_false_r.
    - rewrite (testbit_high x n k Hn Hx Hge). reflexivity. }
  rewrite <- Z.lxor_lor by exact D.
  rewrite <- Z.add_nocarry_lxor by exact D.
  rewrite Z.shiftl_mul_pow2 by exact Hn. reflexivity.
Qed.

Lemma land_mask (x n : Z) : 0 <= n -> Z.land x (2 ^ n - 1) = x mod 2 ^ n.
Proof.
  intros Hn. rewrite <- Z.land_ones by exact Hn.
  rewrite Z.ones_equiv. reflexivity.
Qed.

(** Channel A is read back from a V2 power frame, after clamping. *)
Lemma decodeV2PowerA_encode (a b : Z) :
  decodeV2PowerA (encodeV2Power a b) = Some (Z.min 2047 (Z.max 0 a)).
Proof.
  unfold encodeV2Power, decodeV2PowerA.
  set (a' := Z.min 2047 (Z.max 0 a)).
  set (b' := Z.min 2047 (Z.max 0 b)).
  assert (Ha : 0 <= a' <= 2047) by (unfold a'; lia).
  assert (Hb : 0 <= b' <= 2047) by (unfold b'; lia).
  clearbody a' b'. cbn [map].
  change 0xFF with (2 ^ 8 - 1). change 0x07 with (2 ^ 3 - 1).
  change 0x1F with (2 ^ 5 - 1). change 0x3F with (2 ^ 6 - 1).
  change 0x7FF with (2 ^ 11 - 1).
  rewrite !land_mask by lia.
  rewrite !Z.shiftr_div_pow2 by lia.
  rewrite lor_shiftl_add by (try lia; apply Z.mod_pos_bound; lia).
  rewrite !Z.shiftl_mul_pow2 by lia.
  change (2 ^ 8) with 256. change (2 ^ 3) with 8. change (2 ^ 5) with 32.
  change (2 ^ 6) with 64. change (2 ^ 11) with 2048. change (2 ^ 16) with 65536.
  rewrite !ToUint8_small by divlia.
  f_equal. divlia.
Qed.

(** ** C1: the level encoded by [buildCommand] *)

(** A level in [0, 20] is read back from the Lovense text command. *)
Lemma parseVibrate_toString (level : Z) :
  0 <= level <= 20 ->
  parseVibrate (TextEncoder_encode ("Vibrate:" ++ toString level ++ ";")) = Some level.
Proof.
  intros H.
  assert (E : level = 0 \/ level = 1 \/ level = 2 \/ level = 3 \/ level = 4 \/
              level = 5 \/ level = 6 \/ level = 7 \/ level = 8 \/ level = 9 \/
              level = 10 \/ level = 11 \/ level = 12 \/ level = 13 \/
              level = 14 \/ level = 15 \/ level = 16 \/ level = 17 \/
              level = 18 \/ level = 19 \/ level = 20) by lia.
  repeat (destruct E as [E | E]; [ subst level; reflexivity | ]).
  subst level; reflexivity.
Qed.

(** The two We-Vibe nibbles: the high one is the internal motor's level. *)
Lemma wevibe_level (level : Z) :
  0 <= level <= 15 ->
  encodedLevel WeVibe
    (if ((level =? 0) && (level =? 0))%bool
     then map ToUint8 [0x0f; 0x00; 0x00; 0x00; 0x00; 0x00; 0x00; 0x00]
     else map ToUint8 [0x0f; 0x03; 0x00; Z.lor level (Z.shiftl level 4);
                       0x00; 0x03; 0x00; 0x00]) = Some level.
Proof.
  intros H.
  assert (E : level = 0 \/ level = 1 \/ level = 2 \/ level = 3 \/ level = 4 \/
              level = 5 \/ level = 6 \/ level = 7 \/ level = 8 \/ level = 9 \/
              level = 10 \/ level = 11 \/ level = 12 \/ level = 13 \/
              level = 14 \/ level = 15) by lia.
  repeat (destruct E as [E | E]; [ subst level; reflexivity | ]).
  subst level; reflexivity.
Qed.

Lemma levelScale_level (p : Protocol) (intensity : Q) :
  (0 <= intensity <= 1)%Q ->
  0 <= Math_round (intensity * inject_Z (levelScale p)) <= levelScale p.
Proof.
  intros H. apply level_in_range; [ | exact H ].
  destruct p; vm_compute; discriminate.
Qed.

(** C1 (as amended).  For every protocol and every intensity in [0,1], the
    level encoded in the bytes of [buildCommand(intensity)] is the rounded
    product of the intensity and the protocol's scale and lies in
    [0, maxIntensity]; for the two Coyote protocols, whose encoders clamp,
    the encoded level lies in [0, maxIntensity] for every intensity. *)
Theorem C1_encoded_level_within_bounds
        (p : Protocol) (st : ProtoState) (intensity : Q) :
  (0 <= intensity <= 1)%Q \/ clampsLevel p = true ->
  exists level,
    encodedLevel p (snd (buildCommand p st intensity)) = Some level /\
    0 <= level <= maxIntensity p /\
    ((0 <= intensity <= 1)%Q ->
     level = Math_round (intensity * inject_Z (levelScale p))).
Proof.
  intros H.
  destruct p; cbn [clampsLevel] in H;
    try (destruct H as [H | H]; [ | discriminate H ]).
  (* the nine vibrator protocols: intensity in [0,1] *)
  1-9: match goal with
       | |- context [levelScale ?p] =>
           pose proof (levelScale_level p intensity H) as B;
           exists (Math_round (intensity * inject_Z (levelScale p)));
           cbn [levelScale maxIntensity] in B |- *
       end.
  (* the level is a byte of the frame, or a nibble, or a decimal number *)
  1-9: split; [ | split; [ exact B | intros _; reflexivity ] ];
       cbn [buildCommand snd];
       unfold satisfyer.buildCommand, lovense.buildCommand,
              wevibe.buildCommand, lelo.buildCommand, kiiroo.buildCommand,
              svakom.buildCommand, magicmotion.buildCommand,
              mysteryvibe.buildCommand, aneros.buildCommand;
       cbv zeta;
       unfold satisfyer.maxIntensity, lovense.maxIntensity,
              wevibe.maxIntensity, lelo.maxIntensity, kiiroo.maxIntensity,
              svakom.maxIntensity, magicmotion.maxIntensity,
              mysteryvibe.maxIntensity, aneros.maxIntensity in B |- *;
       match type of B with
       | _ <= ?l <= _ => generalize dependent l; intros level B
       end.
  - (* Satisfyer *)
    cbn. rewrite ToUint8_small by lia. reflexivity.
  - (* Lovense *)
    apply parseVibrate_toString. exact B.
  - (* We-Vibe *)
    apply wevibe_level. exact B.
  - (* Lelo *)
    cbn. rewrite ToUint8_small by lia. reflexivity.
  - (* Kiiroo *)
    cbn. rewrite ToUint8_small by lia. reflexivity.
  - (* Svakom *)
    cbn [map encodedLevel nth_error]. rewrite ToUint8_small by lia. reflexivity.
  - (* Magic Motion *)
    cbn. rewrite ToUint8_small by lia. reflexivity.
  - (* MysteryVibe *)
    cbn. rewrite ToUint8_small by lia. reflexivity.
  - (* Aneros *)
    cbn. rewrite ToUint8_small by lia. reflexivity.
  - (* Coyote V3: [Math.min(200, Math.max(0, intensityA))] *)
    remember (Math_round (intensity * inject_Z (levelScale Coyote))) as level eqn:EL.
    exists (Z.min 200 (Z.max 0 level)).
    split; [ | split ].
    + cbn [buildCommand]. unfold coyote.buildCommand. cbv zeta.
      cbn [levelScale maxIntensity] in EL. rewrite <- EL.
      cbn [Z.eqb snd encodedLevel]. unfold coyote.frameOfState.
      unfold coyote.buildB0Command. cbn [coyote.o_intensityA coyote.intensityA].
      cbn [app nth_error]. rewrite ToUint8_small by lia. reflexivity.
    + change (maxIntensity Coyote) with 200. lia.
    + intros R. pose proof (levelScale_level Coyote intensity R) as B.
      rewrite <- EL in B. change (levelScale Coyote) with 200 in B. lia.
  - (* Coyote V2: [encodeV2Power] clamps to [0, 2047] *)
    remember (Math_round (intensity * inject_Z (levelScale CoyoteV2))) as level eqn:EL.
    exists (Z.min 2047 (Z.max 0 level)).
    split; [ | split ].
    + cbn [buildCommand]. unfold coyote_v2.buildCommand. cbv zeta.
      change 1024%Q with (inject_Z (levelScale CoyoteV2)). rewrite <- EL.
      cbn [Z.eqb snd encodedLevel coyote_v2.intensityA coyote_v2.intensityB].
      apply decodeV2PowerA_encode.
    + change (maxIntensity CoyoteV2) with 2047. lia.
    + intros R. pose proof (levelScale_level CoyoteV2 intensity R) as B.
      rewrite <- EL in B. change (levelScale CoyoteV2) with 1024 in B. lia.
Qed.

(** C1, an instance: Lovense at half intensity encodes level 10. *)
Lemma C1_encoded_level_witness :
  ((0 <= 1 # 2 <= 1)%Q \/ clampsLevel Lovense = true) /\
  exists level,
    encodedLevel Lovense (snd (buildCommand Lovense protoState0 (1 # 2))) = Some level /\
    0 <= level <= maxIntensity Lovense /\
    ((0 <= 1 # 2 <= 1)%Q ->
     level = Math_round ((1 # 2) * inject_Z (levelScale Lovense))).
Proof.
  assert (R : (0 <= 1 # 2 <= 1)%Q) by (split; discriminate).
  split.
  - left. exact R.
  - apply (C1_encoded_level_within_bounds Lovense protoState0 (1 # 2)).
    left. exact R.
Defined.

(** C1 as stated fails: no vibrator protocol clamps, so an out-of-range
    intensity leaves [0, maxIntensity].  [lovense.buildCommand(1.5)] is the
    text ["Vibrate:30;"], level 30 against a maximum of 20. *)
Lemma C1_unclamped_lovense_counterexample :
  snd (buildCommand Lovense protoState0 (3 # 2)) = TextEncoder_encode "Vibrate:30;" /\
  ~ (forall (p : Protocol) (st : ProtoState) (intensity : Q),
        exists level,
          encodedLevel p (snd (buildCommand p st intensity)) = Some level /\
          0 <= level <= maxIntensity p).
Proof.
  split; [ reflexivity | ].
  intros C.
  destruct (C Lovense protoState0 (3 # 2)) as [level [E [_ Hmax]]].
  vm_compute in E. injection E as <-.
  vm_compute in Hmax. apply Hmax. reflexivity.
Qed.

(** The lower end fails in the same way: [lovense.buildCommand(-0.1)] is
    ["Vibrate:-2;"]. *)
Example lovense_negative_level :
  snd (buildCommand Lovense protoState0 (-1 # 10)) = TextEncoder_encode "Vibrate:-2;" /\
  encodedLevel Lovense (snd (buildCommand Lovense protoState0 (-1 # 10))) = Some (-2).
Proof. split; reflexivity. Qed.

(** A byte above the maximum: [satisfyer.buildCommand(1.5)] carries 150
    against a maximum of 100. *)
Example satisfyer_unclamped_level :
  snd (buildCommand Satisfyer protoState0 (3 # 2)) = [150; 150; 150; 150].
Proof. reflexivity. Qed.

(** ** C2: the stop command *)

(** C2 (as amended).  For each of the nine stateless protocols
    [buildStopCommand()] returns the bytes of [buildCommand(0)], also for
    every explicit motor index or motor count.  The Coyote
    [buildStopCommand()] sets both channel intensities of [_state] to zero
    and leaves the two waveforms as they were; the frame it returns does not
    depend on the state: it is the B0 frame with both intensities 0 and the
    default waveform (100 Hz, intensity 50) on both channels, the frame of a
    freshly initialised state.  A [buildCommand(0.5)] issued right after it
    carries level 100 on channel A and level 0 on channel B, with the
    waveforms that were in [_state] before the stop.  The V2 object likewise
    zeroes both intensities of [v2State] and returns the power frame of
    (0, 0), three zero bytes; the following [buildCommand(0.5)] is the power
    frame of (512, 0). *)
Theorem C2_stop_command_resets_intensities
        (st : ProtoState) (c : coyote.State) (v : coyote_v2.State) :
  Forall (fun p => buildStopCommand p st = buildCommand p st 0)
         [Satisfyer; Lovense; WeVibe; Lelo; Kiiroo; Svakom; MagicMotion;
          MysteryVibe; Aneros] /\
  (forall motorIndex,
      aneros.buildStopCommand motorIndex = aneros.buildCommand 0 motorIndex) /\
  (forall motorCount,
      kiiroo.buildStopCommand motorCount = kiiroo.buildCommand 0 motorCount) /\
  (forall motorCount,
      satisfyer.buildStopCommand motorCount = satisfyer.buildCommand 0 motorCount) /\
  (forall motorCount,
      mysteryvibe.buildStopCommand motorCount = mysteryvibe.buildCommand 0 motorCount) /\
  fst (coyote.buildStopCommand c) =
    {| coyote.intensityA := 0; coyote.intensityB := 0;
       coyote.waveformA := coyote.waveformA c;
       coyote.waveformB := coyote.waveformB c |} /\
  snd (coyote.buildStopCommand c) =
    [0xB0; 0x0F; 0; 0;
     100; 100; 100; 100; 50; 50; 50; 50;
     100; 100; 100; 100; 50; 50; 50; 50] /\
  snd (coyote.buildStopCommand c) = coyote.frameOfState coyote.resetState /\
  snd (coyote.buildStopCommand c) =
    snd (coyote.buildCommand coyote.resetState 0 0) /\
  coyote.buildCommand (fst (coyote.buildStopCommand c)) (1 # 2) 0 =
    (let c' := {| coyote.intensityA := 100; coyote.intensityB := 0;
                  coyote.waveformA := coyote.waveformA c;
                  coyote.waveformB := coyote.waveformB c |} in
     (c', coyote.frameOfState c')) /\
  firstn 4 (snd (coyote.buildCommand (fst (coyote.buildStopCommand c)) (1 # 2) 0)) =
    [0xB0; 0x0F; 100; 0] /\
  fst (coyote_v2.buildStopCommand v) =
    {| coyote_v2.intensityA := 0; coyote_v2.intensityB := 0;
       coyote_v2.interval := coyote_v2.interval v;
       coyote_v2.connected := coyote_v2.connected v |} /\
  snd (coyote_v2.buildStopCommand v) = encodeV2Power 0 0 /\
  snd (coyote_v2.buildStopCommand v) = [0; 0; 0] /\
  snd (coyote_v2.buildStopCommand v) =
    snd (coyote_v2.buildCommand (fst (coyote_v2.buildStopCommand v)) 0 0) /\
  snd (buildStopCommand Coyote st) =
    [0xB0; 0x0F; 0; 0;
     100; 100; 100; 100; 50; 50; 50; 50;
     100; 100; 100; 100; 50; 50; 50; 50] /\
  snd (buildStopCommand CoyoteV2 st) = [0; 0; 0] /\
  snd (coyote_v2.buildCommand (fst (coyote_v2.buildStopCommand v)) (1 # 2) 0) =
    encodeV2Power 512 0.
Proof.
  split; [ repeat constructor | ].
  repeat split; reflexivity.
Qed.

(** The stateless protocols of C2 are exactly the protocols without state. *)
Lemma stateless_protocols (p : Protocol) :
  stateless p = true <->
  In p [Satisfyer; Lovense; WeVibe; Lelo; Kiiroo; Svakom; MagicMotion;
        MysteryVibe; Aneros].
Proof.
  split.
  - destruct p; cbn; intros H; try discriminate H; tauto.
  - cbn. intros H. repeat (destruct H as [<- | H]; [ reflexivity | ]). destruct H.
Qed.

(** C2 as stated fails for the waveforms: after a [buildFullCommand] has
    stored a waveform for channel A, [buildStopCommand()] leaves it in
    [_state], and the next [buildCommand(0.5)] differs from the one of a
    freshly reset state. *)
Lemma C2_coyote_stop_keeps_waveform_counterexample :
  let w := coyote.mkWaveform [10; 10; 10; 10] [100; 100; 100; 100] in
  let st1 := fst (coyote.buildFullCommand coyote.resetState
                    (coyote.mkFullOptions None None (Some w) None)) in
  let st2 := fst (coyote.buildStopCommand st1) in
  coyote.waveformA st2 = Some w /\
  st2 <> coyote.resetState /\
  snd (coyote.buildCommand st2 (1 # 2) 0) =
    [176; 15; 100; 0; 10; 10; 10; 10; 100; 100; 100; 100;
     100; 100; 100; 100; 50; 50; 50; 50] /\
  snd (coyote.buildCommand coyote.resetState (1 # 2) 0) =
    [176; 15; 100; 0; 100; 100; 100; 100; 50; 50; 50; 50;
     100; 100; 100; 100; 50; 50; 50; 50] /\
  snd (coyote.buildCommand st2 (1 # 2) 0) <>
  snd (coyote.buildCommand coyote.resetState (1 # 2) 0).
Proof.
  cbv zeta. repeat split; try reflexivity; vm_compute; discriminate.
Qed.

(** ** C3: the Coyote frequency encoding *)

Lemma Qle_bool_false (a b : Q) : Qle_bool a b = false -> (b < a)%Q.
Proof.
  intros E. apply Qnot_le_lt. intros L.
  apply Qle_bool_iff in L. congruence.
Qed.

(** The clamp of [encodeFrequency] is the identity on [10, 1000]. *)
Lemma clamp_hz (hz : Q) :
  (10 <= hz <= 1000)%Q -> Qmin 1000 (Qmax 10 hz) == hz.
Proof.
  intros [Hlo Hhi].
  rewrite (Q.max_r 10 hz Hlo). apply Q.min_r. exact Hhi.
Qed.

Lemma Math_round_comp (x y : Q) : x == y -> Math_round x = Math_round y.
Proof. intros E. unfold Math_round. apply Qfloor_comp. rewrite E. reflexivity. Qed.

(** [Math.round(x)] is within one half of [x]. *)
Lemma Math_round_near (x : Q) :
  (inject_Z (Math_round x) <= x + (1 # 2))%Q /\
  (x + (1 # 2) < inject_Z (Math_round x) + 1)%Q.
Proof.
  unfold Math_round. split.
  - apply Qfloor_le.
  - pose proof (Qlt_floor (x + (1 # 2))) as L.
    rewrite inject_Z_plus in L. exact L.
Qed.

Lemma encodeFrequency_segment (hz : Q) :
  (10 <= hz <= 1000)%Q -> Segment hz.
Proof.
  intros H. pose proof (clamp_hz hz H) as C.
  remember (Qmin 1000 (Qmax 10 hz)) as h eqn:Eh.
  assert (U : encodeFrequency hz =
              if Qle_bool h 100 then h
              else if Qle_bool h 600
                   then inject_Z (Math_round ((h - 100) / 5) + 100)
                   else inject_Z (Math_round ((h - 600) / 10) + 200)).
  { unfold encodeFrequency. cbv zeta. rewrite <- Eh. reflexivity. }
  clear Eh.
  destruct (Qle_bool h 100) eqn:E1.
  { apply Qle_bool_iff in E1. apply Passthrough.
    - lra.
    - rewrite U. exact C. }
  apply Qle_bool_false in E1.
  destruct (Qle_bool h 600) eqn:E2.
  { apply Qle_bool_iff in E2.
    assert (K : Math_round ((h - 100) / 5) = Math_round ((hz - 100) / 5))
      by (apply Math_round_comp; rewrite C; reflexivity).
    rewrite K in U.
    pose proof (Math_round_near ((hz - 100) / 5)) as [N1 N2].
    assert (B : 0 <= Math_round ((hz - 100) / 5) <= 100).
    { apply Math_round_bounds.
      change ((hz - 100) / 5)%Q with ((hz - 100) * (1 # 5))%Q.
      change (inject_Z 100) with 100%Q. lra. }
    remember (Math_round ((hz - 100) / 5)) as k eqn:Ek.
    change ((hz - 100) / 5)%Q with ((hz - 100) * (1 # 5))%Q in N1, N2.
    apply (DivideBy5 hz k); [ lra | exact U | exact Ek | exact B | lra ]. }
  apply Qle_bool_false in E2.
  assert (K : Math_round ((h - 600) / 10) = Math_round ((hz - 600) / 10))
    by (apply Math_round_comp; rewrite C; reflexivity).
  rewrite K in U.
  pose proof (Math_round_near ((hz - 600) / 10)) as [N1 N2].
  assert (B : 0 <= Math_round ((hz - 600) / 10) <= 40).
  { apply Math_round_bounds.
    change ((hz - 600) / 10)%Q with ((hz - 600) * (1 # 10))%Q.
    change (inject_Z 40) with 40%Q. lra. }
  remember (Math_round ((hz - 600) / 10)) as k eqn:Ek.
  change ((hz - 600) / 10)%Q with ((hz - 600) * (1 # 10))%Q in N1, N2.
  apply (DivideBy10 hz k); [ lra | exact U | exact Ek | exact B | lra ].
Qed.

(** The encoded value is at most 240 and at least 10. *)
Lemma encodeFrequency_range (hz : Q) :
  (10 <= hz <= 1000)%Q -> (10 <= encodeFrequency hz <= 240)%Q.
Proof.
  intros H. destruct (encodeFrequency_segment hz H) as
      [L E | k L E _ B _ | k L E _ B _].
  - rewrite E. lra.
  - rewrite E, inject_Z_plus. change (inject_Z 100) with 100%Q.
    assert (0 <= inject_Z k <= 100)%Q
      by (split; [ apply (inject_Z_le 0) | apply (inject_Z_le k 100) ]; lia).
    lra.
  - rewrite E, inject_Z_plus. change (inject_Z 200) with 200%Q.
    assert (0 <= inject_Z k <= 40)%Q
      by (split; [ apply (inject_Z_le 0) | apply (inject_Z_le k 40) ]; lia).
    lra.
Qed.

(** The encoder is monotonic on [10, 1000]. *)
Lemma encodeFrequency_monotonic (hz hz' : Q) :
  (10 <= hz <= 1000)%Q -> (10 <= hz' <= 1000)%Q -> (hz <= hz')%Q ->
  (encodeFrequency hz <= encodeFrequency hz')%Q.
Proof.
  intros H H' L.
  destruct (encodeFrequency_segment hz H) as
      [L1 E1 | k1 L1 E1 K1 B1 _ | k1 L1 E1 K1 B1 _];
    destruct (encodeFrequency_segment hz' H') as
      [L2 E2 | k2 L2 E2 K2 B2 _ | k2 L2 E2 K2 B2 _];
    try (exfalso; lra);
    rewrite ?E1, ?E2.
  - exact L.
  - rewrite inject_Z_plus. change (inject_Z 100) with 100%Q.
    assert (0 <= inject_Z k2)%Q by (apply (inject_Z_le 0); lia). lra.
  - rewrite inject_Z_plus. change (inject_Z 200) with 200%Q.
    assert (0 <= inject_Z k2)%Q by (apply (inject_Z_le 0); lia). lra.
  - apply inject_Z_le.
    assert (k1 <= k2); [ | lia ].
    subst k1 k2. apply Math_round_mono.
    change ((hz - 100) / 5)%Q with ((hz - 100) * (1 # 5))%Q.
    change ((hz' - 100) / 5)%Q with ((hz' - 100) * (1 # 5))%Q. lra.
  - apply inject_Z_le. lia.
  - apply inject_Z_le.
    assert (k1 <= k2); [ | lia ].
    subst k1 k2. apply Math_round_mono.
    change ((hz - 600) / 10)%Q with ((hz - 600) * (1 # 10))%Q.
    change ((hz' - 600) / 10)%Q with ((hz' - 600) * (1 # 10))%Q. lra.
Qed.

(** Decoding an encoded frequency: exact below 100 Hz, off by at most half
    a quantization step above. *)
Lemma decode_encode_error (hz : Q) :
  (10 <= hz <= 1000)%Q ->
  ((hz <= 100)%Q -> decodeFrequency (encodeFrequency hz) == hz) /\
  ((100 < hz <= 600)%Q ->
   (Qabs (decodeFrequency (encodeFrequency hz) - hz) <= 5 # 2)%Q) /\
  ((600 < hz)%Q ->
   (Qabs (decodeFrequency (encodeFrequency hz) - hz) <= 5)%Q).
Proof.
  intros H.
  destruct (encodeFrequency_segment hz H) as
      [L E | k L E _ B N | k L E _ B N];
    (split; [ | split ]); intros S; try (exfalso; lra).
  - (* passthrough: the decoder returns its argument *)
    unfold decodeFrequency.
    assert (T : Qle_bool (encodeFrequency hz) 100 = true)
      by (apply Qle_bool_iff; rewrite E; exact L).
    rewrite T. exact E.
  - (* divide by 5 *)
    rewrite E. unfold decodeFrequency.
    apply Qabs_Qle_condition.
    destruct (Qle_bool (inject_Z (k + 100)) 100) eqn:T1.
    + apply Qle_bool_iff in T1. unfold Qle in T1. cbn in T1.
      assert (k = 0) by lia. subst k.
      change (inject_Z 0) with 0%Q in N. change (inject_Z (0 + 100)) with 100%Q. lra.
    + assert (T2 : Qle_bool (inject_Z (k + 100)) 200 = true)
        by (apply Qle_bool_iff; apply (inject_Z_le (k + 100) 200); lia).
      rewrite T2. rewrite inject_Z_plus. change (inject_Z 100) with 100%Q. lra.
  - (* divide by 10 *)
    rewrite E. unfold decodeFrequency.
    apply Qabs_Qle_condition.
    assert (T1 : Qle_bool (inject_Z (k + 200)) 100 = false).
    { destruct (Qle_bool (inject_Z (k + 200)) 100) eqn:T; [ | reflexivity ].
      apply Qle_bool_iff in T. unfold Qle in T. cbn in T. lia. }
    rewrite T1.
    destruct (Qle_bool (inject_Z (k + 200)) 200) eqn:T2.
    + apply Qle_bool_iff in T2. unfold Qle in T2. cbn in T2.
      assert (k = 0) by lia. subst k.
      change (inject_Z 0) with 0%Q in N. change (inject_Z (0 + 200)) with 200%Q. lra.
    + rewrite inject_Z_plus. change (inject_Z 200) with 200%Q. lra.
Qed.

(** On a whole number of Hz the encoder returns a whole number. *)
Lemma encodeFrequency_integer (hz : Q) (n : Z) :
  (10 <= hz <= 1000)%Q -> hz == inject_Z n ->
  exists byte : Z, encodeFrequency hz == inject_Z byte /\ 0 <= byte <= 240.
Proof.
  intros H En.
  pose proof (encodeFrequency_range hz H) as R.
  destruct (encodeFrequency_segment hz H) as
      [L E | k L E _ B _ | k L E _ B _].
  - exists n. split.
    + rewrite E. exact En.
    + rewrite E, En in R. destruct R as [R1 R2].
      unfold Qle in R1, R2. cbn in R1, R2. lia.
  - exists (k + 100). split; [ rewrite E; reflexivity | lia ].
  - exists (k + 200). split; [ rewrite E; reflexivity | lia ].
Qed.

(** C3.  On [10, 1000] the frequency encoder takes its values in [0, 240]
    (whole bytes on whole frequencies), is the identity on [10, 100], the
    rounded quotient by 5 shifted to 100 on (100, 600] and the rounded
    quotient by 10 shifted to 200 on (600, 1000]; it is monotonic; and
    decoding what it encodes gives back the frequency exactly on [10, 100],
    within 5 Hz on (100, 600] and within 10 Hz on (600, 1000]. *)
Theorem C3_frequency_encoding (hz : Q) :
  (10 <= hz <= 1000)%Q ->
  (0 <= encodeFrequency hz <= 240)%Q /\
  (forall n : Z, hz == inject_Z n ->
     exists byte : Z, encodeFrequency hz == inject_Z byte /\ 0 <= byte <= 240) /\
  ((hz <= 100)%Q -> encodeFrequency hz == hz) /\
  ((100 < hz <= 600)%Q ->
     encodeFrequency hz == inject_Z (Math_round ((hz - 100) / 5)) + 100) /\
  ((600 < hz)%Q ->
     encodeFrequency hz == inject_Z (Math_round ((hz - 600) / 10)) + 200) /\
  (forall hz' : Q, (10 <= hz' <= 1000)%Q -> (hz <= hz')%Q ->
     (encodeFrequency hz <= encodeFrequency hz')%Q) /\
  ((hz <= 100)%Q -> decodeFrequency (encodeFrequency hz) == hz) /\
  ((100 < hz <= 600)%Q ->
     (Qabs (decodeFrequency (encodeFrequency hz) - hz) <= 5)%Q) /\
  ((600 < hz)%Q ->
     (Qabs (decodeFrequency (encodeFrequency hz) - hz) <= 10)%Q).
Proof.
  intros H.
  pose proof (encodeFrequency_range hz H) as R.
  pose proof (decode_encode_error hz H) as [D1 [D2 D3]].
  split; [ lra | ].
  split; [ intros n En; apply (encodeFrequency_integer hz n H En) | ].
  split; [ | split; [ | split ] ].
  - intros S. destruct (encodeFrequency_segment hz H) as
        [L E | k L E _ B _ | k L E _ B _]; try (exfalso; lra). exact E.
  - intros S. destruct (encodeFrequency_segment hz H) as
        [L E | k L E K B _ | k L E K B _]; try (exfalso; lra).
    rewrite E, inject_Z_plus, K. reflexivity.
  - intros S. destruct (encodeFrequency_segment hz H) as
        [L E | k L E K B _ | k L E K B _]; try (exfalso; lra).
    rewrite E, inject_Z_plus, K. reflexivity.
  - split; [ | split; [ exact D1 | split ] ].
    + intros hz' H' L. apply encodeFrequency_monotonic; assumption.
    + intros S. eapply Qle_trans; [ apply (D2 S) | discriminate ].
    + intros S. eapply Qle_trans; [ apply (D3 S) | discriminate ].
Qed.

(** C3 at 350 Hz: byte 150, which decodes to 350 again. *)
Lemma C3_frequency_encoding_witness :
  (10 <= 350 <= 1000)%Q /\
  encodeFrequency 350 == inject_Z 150 /\
  (Qabs (decodeFrequency (encodeFrequency 350) - 350) <= 5)%Q.
Proof.
  assert (R : (10 <= 350 <= 1000)%Q) by (split; discriminate).
  pose proof (C3_frequency_encoding 350 R) as [_ [_ [_ [S [_ [_ [_ [D _]]]]]]]].
  assert (M : (100 < 350 <= 600)%Q) by (split; [ reflexivity | discriminate ]).
  split; [ exact R | split ].
  - rewrite (S M). reflexivity.
  - exact (D M).
Defined.

(** ** C4: protocol detection *)

(** Whether a registry entry matches a device, by name or by service UUID. *)
Lemma detectLoop_find (defs : list ProtocolDef) (deviceName : string)
      (uuids : list string) :
  option_map snd (detectLoop defs deviceName uuids) =
  find (fun def => (nameMatches def deviceName || uuidMatches def uuids)%bool) defs.
Proof.
  induction defs as [| def rest IH]; cbn [detectLoop find].
  - reflexivity.
  - destruct (nameMatches def deviceName); [ reflexivity | ].
    destruct (uuidMatches def uuids); [ reflexivity | ].
    exact IH.
Qed.

(** The entry found is reported [ByName] exactly when its name patterns
    match: inside one entry the name test comes first. *)
Lemma detectLoop_how (defs : list ProtocolDef) (deviceName : string)
      (uuids : list string) (how : DetectedBy) (def : ProtocolDef) :
  detectLoop defs deviceName uuids = Some (how, def) ->
  In def defs /\
  (nameMatches def deviceName || uuidMatches def uuids)%bool = true /\
  (how = ByName <-> nameMatches def deviceName = true).
Proof.
  induction defs as [| d rest IH]; cbn [detectLoop]; intros H.
  - discriminate H.
  - destruct (nameMatches d deviceName) eqn:N.
    + injection H as <- <-. rewrite N. cbn. intuition.
    + destruct (uuidMatches d uuids) eqn:U.
      * injection H as <- <-. rewrite N, U. cbn.
        intuition; discriminate.
      * destruct (IH H) as [I [M W]]. cbn. intuition.
Qed.

(** [find] returns the first element that passes the test. *)
Lemma find_first {A} (f : A -> bool) (l1 : list A) (x : A) (l2 : list A) :
  (forall y, In y l1 -> f y = false) -> f x = true ->
  find f (l1 ++ x :: l2) = Some x.
Proof.
  intros Hl1 Hx. induction l1 as [| y l1 IH]; cbn.
  - rewrite Hx. reflexivity.
  - rewrite (Hl1 y (or_introl eq_refl)). apply IH.
    intros z Hz. apply Hl1. right. exact Hz.
Qed.

Lemma find_none_iff {A} (f : A -> bool) (l : list A) :
  find f l = None <-> forall x, In x l -> f x = false.
Proof.
  split.
  - intros H x Hx. apply (find_none f l H x Hx).
  - intros H. induction l as [| y l IH]; cbn; [ reflexivity | ].
    rewrite (H y (or_introl eq_refl)). apply IH.
    intros z Hz. apply H. right. exact Hz.
Qed.

(** C4 (as amended).  [detectProtocol] walks [PROTOCOLS] in priority order
    and returns the protocol of the first entry that matches the device
    either by a name pattern or by a service UUID; an earlier entry that
    matches only by service UUID therefore wins over a later entry whose
    name pattern matches.  Inside one entry the name patterns are tested
    first.  When no entry matches either way the result is [null]. *)
Theorem C4_detect_first_match_in_priority_order
        (deviceName : string) (services : list Service) :
  let serviceUUIDs' := map (fun s => toLowerCase (uuid s)) services in
  let matches := fun def =>
    (nameMatches def deviceName || uuidMatches def serviceUUIDs')%bool in
  detectProtocol deviceName services = option_map protocol (find matches PROTOCOLS) /\
  (forall l1 def l2,
      PROTOCOLS = l1 ++ def :: l2 ->
      (forall d, In d l1 -> matches d = false) ->
      matches def = true ->
      detectProtocol deviceName services = Some (protocol def)) /\
  (forall how def,
      detectLoop PROTOCOLS deviceName serviceUUIDs' = Some (how, def) ->
      how = ByName <-> nameMatches def deviceName = true) /\
  (detectProtocol deviceName services = None <->
   forall def, In def PROTOCOLS -> matches def = false).
Proof.
  intros serviceUUIDs' matches.
  assert (F : detectProtocol deviceName services =
              option_map protocol (find matches PROTOCOLS)).
  { pose proof (detectLoop_find PROTOCOLS deviceName serviceUUIDs') as L.
    change (find _ PROTOCOLS) with (find matches PROTOCOLS) in L.
    rewrite <- L. unfold detectProtocol. fold serviceUUIDs'.
    destruct (detectLoop PROTOCOLS deviceName serviceUUIDs') as [[how def] |];
      reflexivity. }
  split; [ exact F | ].
  split; [ | split ].
  - intros l1 def l2 E Hl1 Hdef.
    rewrite F, E, (find_first matches l1 def l2 Hl1 Hdef). reflexivity.
  - intros how def H.
    apply (detectLoop_how PROTOCOLS deviceName serviceUUIDs' how def H).
  - rewrite F. rewrite <- (find_none_iff matches PROTOCOLS).
    destruct (find matches PROTOCOLS); cbn; split; intros H;
      try reflexivity; discriminate H.
Qed.

(** C4 as stated fails: a device called ["LVS-Z001"] matches a Lovense name
    pattern, yet when it exposes the service [0000fff0-...] the Satisfyer
    entry, which comes first and matches only by that UUID, is returned. *)
Lemma C4_earlier_uuid_match_wins_counterexample :
  let deviceName := "LVS-Z001" in
  let services := [mkService "0000fff0-0000-1000-8000-00805f9b34fb" None] in
  let serviceUUIDs' := map (fun s => toLowerCase (uuid s)) services in
  detectProtocol deviceName services = Some Satisfyer /\
  (exists def, In def PROTOCOLS /\ protocol def = Lovense /\
               nameMatches def deviceName = true) /\
  (forall def, In def PROTOCOLS -> protocol def = Satisfyer ->
               nameMatches def deviceName = false /\
               uuidMatches def serviceUUIDs' = true).
Proof.
  cbv zeta. split; [ reflexivity | split ].
  - exists (nth 1 PROTOCOLS (mkDef "" [] [] Lovense)).
    split; [ cbn; tauto | split; reflexivity ].
  - intros def I P. cbn in I.
    repeat (destruct I as [<- | I]; [ try discriminate P; split; reflexivity | ]).
    destruct I.
Qed.

(** ** C5: session arcs *)

(** C5.  Every function of [SESSION_ARCS], at every progress [t] in [0,1],
    returns a range with [0 <= min <= max <= 1]. *)
Theorem C5_session_arc_range (arcName : string) (arc : Q -> config.Range) (t : Q) :
  In (arcName, arc) config.SESSION_ARCS ->
  (0 <= t <= 1)%Q ->
  (0 <= config.min (arc t))%Q /\
  (config.min (arc t) <= config.max (arc t))%Q /\
  (config.max (arc t) <= 1)%Q.
Proof.
  intros I [T0 T1]. cbn in I.
  (* the eleven arcs that are linear in [t] *)
  repeat (destruct I as [I | I];
          [ injection I as _ <-; cbn [config.min config.max];
            try (repeat split; lra) | ]);
    try destruct I.
  - (* focus_high: [Math.max(0, t - width/2)], [Math.min(1, t + width/2)] *)
    destruct (Q.max_spec 0 (t - (1 - t * (4 # 5)) / 2)) as [[M1 E1] | [M1 E1]];
      destruct (Q.min_spec 1 (t + (1 - t * (4 # 5)) / 2)) as [[M2 E2] | [M2 E2]];
      rewrite E1, E2;
      change ((1 - t * (4 # 5)) / 2)%Q with ((1 - t * (4 # 5)) * (1 # 2))%Q in *;
      repeat split; lra.
  - (* focus_low: the same window around [1 - t] *)
    destruct (Q.max_spec 0 (1 - t - (1 - t * (4 # 5)) / 2)) as [[M1 E1] | [M1 E1]];
      destruct (Q.min_spec 1 (1 - t + (1 - t * (4 # 5)) / 2)) as [[M2 E2] | [M2 E2]];
      rewrite E1, E2;
      change ((1 - t * (4 # 5)) / 2)%Q with ((1 - t * (4 # 5)) * (1 # 2))%Q in *;
      repeat split; lra.
Qed.

(** C5 for [slide_up] halfway through the session: the range [1/4, 3/4]. *)
Lemma C5_session_arc_range_witness :
  let arc := fun t : Q => {| config.min := t * (1 # 2); config.max := (1 # 2) + t * (1 # 2) |}%Q in
  In ("slide_up", arc) config.SESSION_ARCS /\
  (0 <= 1 # 2 <= 1)%Q /\
  (0 <= config.min (arc (1 # 2)))%Q /\
  (config.min (arc (1 # 2)) <= config.max (arc (1 # 2)))%Q /\
  (config.max (arc (1 # 2)) <= 1)%Q.
Proof.
  intros arc.
  assert (I : In ("slide_up", arc) config.SESSION_ARCS) by (cbn; tauto).
  assert (R : (0 <= 1 # 2 <= 1)%Q) by (split; discriminate).
  split; [ exact I | split; [ exact R | ] ].
  exact (C5_session_arc_range "slide_up" arc (1 # 2) I R).
Defined.

(** ** C6: the pattern switch of a category state *)

(** [Math.floor] of a number in [[lo, hi + 1)] lies in [[lo, hi]]. *)
Lemma Math_floor_between (x : Q) (lo hi : Z) :
  (inject_Z lo <= x)%Q -> (x < inject_Z (hi + 1))%Q ->
  lo <= Math_floor x <= hi.
Proof.
  intros Hlo Hhi. unfold Math_floor.
  pose proof (Qfloor_le x) as Fl.
  pose proof (Qlt_floor x) as Fh.
  assert (lo < Qfloor x + 1)
    by (apply inject_Z_lt; eapply Qle_lt_trans; eauto).
  assert (Qfloor x < hi + 1)
    by (apply inject_Z_lt; eapply Qle_lt_trans; eauto).
  lia.
Qed.

(** With a draw in [[0, 1)], [pickRandom] returns a member of a non-empty
    array. *)
Lemma pickRandom_member {A} (r : Q) (arr : list A) :
  (0 <= r < 1)%Q -> arr <> [] ->
  exists x, config.pickRandom r arr = Some x /\ In x arr.
Proof.
  intros [R0 R1] Hne. unfold config.pickRandom.
  assert (Hl : (0 < List.length arr)%nat)
    by (destruct arr; [ congruence | cbn; lia ]).
  remember (Z.of_nat (List.length arr)) as n eqn:En.
  assert (Hn : 1 <= n) by lia.
  assert (Qn : (1 <= inject_Z n)%Q) by (apply (inject_Z_le 1 n); exact Hn).
  assert (B : 0 <= Math_floor (r * inject_Z n) <= n - 1).
  { apply Math_floor_between.
    - change (inject_Z 0) with 0%Q. nra.
    - replace (n - 1 + 1) with n by lia. nra. }
  destruct (nth_error arr (Z.to_nat (Math_floor (r * inject_Z n)))) as [x |] eqn:E.
  - exists x. split; [ reflexivity | ]. eapply nth_error_In. exact E.
  - apply nth_error_None in E. lia.
Qed.

Lemma nodup_length_le {A} (dec : forall x y : A, {x = y} + {x <> y}) (l : list A) :
  (List.length (nodup dec l) <= List.length l)%nat.
Proof.
  induction l as [| a l IH]; cbn; [ lia | ].
  destruct (in_dec dec a l); cbn; lia.
Qed.

(** A list with two distinct members has a member different from any given
    value. *)
Lemma other_member (l : list string) (current : string) :
  (1 < List.length (nodup string_dec l))%nat ->
  filter (fun p => negb (String.eqb p current)) l <> [].
Proof.
  intros H.
  assert (N : NoDup (nodup string_dec l)) by apply NoDup_nodup.
  destruct (nodup string_dec l) as [| a [| b rest]] eqn:E; cbn in H; try lia.
  assert (Ia : In a l) by (apply (nodup_In string_dec); rewrite E; cbn; tauto).
  assert (Ib : In b l) by (apply (nodup_In string_dec); rewrite E; cbn; tauto).
  assert (Hab : a <> b).
  { inversion N as [| ? ? Hnot _]; subst. intros ->. apply Hnot. cbn. tauto. }
  assert (O : exists x, In x l /\ x <> current).
  { destruct (string_dec a current) as [-> | Ha].
    - exists b. split; [ exact Ib | congruence ].
    - exists a. split; assumption. }
  destruct O as [x [Ix Hx]].
  assert (F : In x (filter (fun p => negb (String.eqb p current)) l)).
  { apply filter_In. split; [ exact Ix | ].
    apply negb_true_iff. apply String.eqb_neq. exact Hx. }
  intros Z. rewrite Z in F. destruct F.
Qed.

(** C6.  When the configured patterns contain at least two different names
    and the decrement brings [instancesRemaining] to zero or below,
    [advanceCategory] replaces [currentPattern] by a configured pattern
    different from the previous one, resets [index] to 0 and redraws
    [instancesRemaining] with [randomInRange(minInstances, maxInstances)],
    whatever the two random draws are.  The redrawn value is not always
    inside the configured range: for the window [8, 16] and the draw
    [1 - 2^-52], a number of [0, 1), the sum [8 + r * 9] rounds to 17 in
    binary64, and [randomInRange] returns 17. *)
Theorem C6_switch_to_different_pattern
        (catState : config.CategoryState)
        (switchSettings : config.SwitchSettings)
        (r1 : Q) (r2 : PrimFloat.float) :
  (1 < List.length (nodup string_dec (config.patterns catState)))%nat ->
  config.instancesRemaining catState - 1 <= 0 ->
  (0 <= r1 < 1)%Q ->
  let next := config.advanceCategory catState switchSettings r1 r2 in
  In (config.currentPattern next) (config.patterns catState) /\
  config.currentPattern next <> config.currentPattern catState /\
  config.index next = 0 /\
  config.instancesRemaining next =
    config.randomInRange r2 (config.minInstances switchSettings)
                         (config.maxInstances switchSettings) /\
  config.patterns next = config.patterns catState /\
  (let r := Number (2 ^ 52 - 1) (-52) in
   PrimFloat.leb (Number 0 0) r = true /\
   PrimFloat.ltb r (Number 1 0) = true /\
   config.randomInRange r 8 16 = 17).
Proof.
  intros Hset Hrem R1 next.
  pose proof (other_member _ (config.currentPattern catState) Hset) as Hother.
  pose proof (nodup_length_le string_dec (config.patterns catState)) as Hlen.
  unfold next, config.advanceCategory. cbv zeta.
  assert (C1 : (config.instancesRemaining catState - 1 <=? 0) = true)
    by (apply Z.leb_le; exact Hrem).
  assert (C2 : (1 <? List.length (config.patterns catState))%nat = true)
    by (apply Nat.ltb_lt; lia).
  rewrite C1, C2. cbn [andb].
  set (otherPatterns :=
         filter (fun p => negb (String.eqb p (config.currentPattern catState)))
                (config.patterns catState)) in *.
  assert (C3 : (0 <? List.length otherPatterns)%nat = true).
  { apply Nat.ltb_lt. destruct otherPatterns; [ congruence | cbn; lia ]. }
  rewrite C3.
  destruct (pickRandom_member r1 otherPatterns R1 Hother) as [x [Px Ix]].
  rewrite Px. cbn [config.currentPattern config.index
                   config.instancesRemaining config.patterns].
  apply filter_In in Ix. destruct Ix as [Ix Nx].
  apply negb_true_iff in Nx. apply String.eqb_neq in Nx.
  split; [ exact Ix | ]. split; [ exact Nx | ].
  split; [ reflexivity | ]. split; [ reflexivity | ].
  split; [ reflexivity | ].
  split; [ vm_compute; reflexivity | ].
  split; vm_compute; reflexivity.
Qed.

(** C6 on the default patterns [climb, surge, wave] with one instance left
    and the default window [8, 16]: from [climb] the draw 1/2 picks [wave],
    and the draw [1 - 2^-52] of [randomInRange] leaves 17 instances, one
    more than [maxInstances]. *)
Lemma C6_switch_to_different_pattern_witness :
  let catState := config.mkCategory ["climb"; "surge"; "wave"] "climb" 5 1 in
  let switchSettings := config.mkSwitch 8 16 in
  let r2 := Number (2 ^ 52 - 1) (-52) in
  let next := config.advanceCategory catState switchSettings (1 # 2) r2 in
  (1 < List.length (nodup string_dec (config.patterns catState)))%nat /\
  config.instancesRemaining catState - 1 <= 0 /\
  (0 <= 1 # 2 < 1)%Q /\
  config.currentPattern next = "wave" /\
  config.currentPattern next <> config.currentPattern catState /\
  config.index next = 0 /\
  config.instancesRemaining next = 17 /\
  config.maxInstances switchSettings < config.instancesRemaining next.
Proof.
  intros catState switchSettings r2 next.
  assert (H1 : (1 < List.length (nodup string_dec (config.patterns catState)))%nat)
    by (vm_compute; lia).
  assert (H2 : config.instancesRemaining catState - 1 <= 0) by (cbn; lia).
  assert (H4 : (0 <= 1 # 2 < 1)%Q) by (split; [ discriminate | reflexivity ]).
  destruct (C6_switch_to_different_pattern catState switchSettings (1 # 2) r2
              H1 H2 H4) as (_ & D & I & R & _ & _ & _ & V).
  repeat (split; [ assumption | ]).
  split; [ reflexivity | ]. split; [ exact D | ]. split; [ exact I | ].
  split; [ exact (eq_trans R V) | ].
  vm_compute. reflexivity.
Defined.

(** The hypothesis of C6 counts distinct names: an array that repeats one
    name twice passes the length test of [advanceCategory], and the switch
    then picks that same name again. *)
Example repeated_name_is_not_a_choice :
  let catState := config.mkCategory ["climb"; "climb"] "climb" 5 1 in
  config.currentPattern
    (config.advanceCategory catState (config.mkSwitch 8 16) (1 # 2)
                            (Number 1 (-1))) =
  "climb".
Proof. reflexivity. Qed.

(** ** C7: the GATT connect loop *)

Lemma connectCalls_app (l1 l2 : list LoopEvent) :
  connectCalls (l1 ++ l2) = (connectCalls l1 + connectCalls l2)%nat.
Proof. unfold connectCalls. rewrite filter_app, length_app. reflexivity. Qed.

(** Each pass through the [try] block calls [gatt.connect()] once. *)
Lemma tryBlock_connectCalls (a : GattAttempt) (n : nat) :
  connectCalls (fst (tryBlock a n)) = 1%nat.
Proof. unfold tryBlock. destruct (gatt_connect a); reflexivity. Qed.

(** The loop over [1; 2; 3], unfolded along the outcomes of the attempts. *)
Lemma retryConnect_unfold (env : nat -> GattAttempt) :
  retryConnect env =
  match attemptOutcome env 1 with
  | inr services => (fst (tryBlock (env 1%nat) 1), Broke services)
  | inl e1 =>
      match attemptOutcome env 2 with
      | inr services =>
          (fst (tryBlock (env 1%nat) 1) ++ [EvWarn 1 e1; EvDelay 500] ++
           fst (tryBlock (env 2%nat) 2), Broke services)
      | inl e2 =>
          match attemptOutcome env 3 with
          | inr services =>
              (fst (tryBlock (env 1%nat) 1) ++ [EvWarn 1 e1; EvDelay 500] ++
               fst (tryBlock (env 2%nat) 2) ++ [EvWarn 2 e2; EvDelay 500] ++
               fst (tryBlock (env 3%nat) 3), Broke services)
          | inl e3 =>
              (fst (tryBlock (env 1%nat) 1) ++ [EvWarn 1 e1; EvDelay 500] ++
               fst (tryBlock (env 2%nat) 2) ++ [EvWarn 2 e2; EvDelay 500] ++
               fst (tryBlock (env 3%nat) 3) ++ [EvWarn 3 e3], Threw e3)
          end
      end
  end.
Proof.
  unfold retryConnect, attemptOutcome. cbn [connectLoop Nat.eqb].
  destruct (tryBlock (env 1%nat) 1) as [evs1 [e1 | s1]]; cbn [fst snd];
    [ | reflexivity ].
  destruct (tryBlock (env 2%nat) 2) as [evs2 [e2 | s2]]; cbn [fst snd];
    [ | reflexivity ].
  destruct (tryBlock (env 3%nat) 3) as [evs3 [e3 | s3]]; cbn [fst snd];
    reflexivity.
Qed.

(** C7.  The connect loop calls [gatt.connect()] at most three times and is
    always left by [break] or by a throw.  A failed first or second attempt
    is logged, followed by a 500 ms delay and the next attempt.  When the
    first two attempts fail and the third succeeds, no error leaves the loop
    and [connect] goes on with the services of the third attempt.  When the
    third attempt fails as well, its error is thrown to the caller of
    [connect]. *)
Theorem C7_connect_retry_loop (env : nat -> GattAttempt) :
  (connectCalls (fst (retryConnect env)) <= 3)%nat /\
  snd (retryConnect env) <> Fell /\
  (forall e1,
      attemptOutcome env 1 = inl e1 ->
      retryConnect env =
      (fst (tryBlock (env 1%nat) 1) ++ [EvWarn 1 e1; EvDelay 500] ++
       fst (connectLoop env [2; 3]%nat),
       snd (connectLoop env [2; 3]%nat))) /\
  (forall e1 e2,
      attemptOutcome env 1 = inl e1 ->
      attemptOutcome env 2 = inl e2 ->
      retryConnect env =
      (fst (tryBlock (env 1%nat) 1) ++ [EvWarn 1 e1; EvDelay 500] ++
       fst (tryBlock (env 2%nat) 2) ++ [EvWarn 2 e2; EvDelay 500] ++
       fst (connectLoop env [3]%nat),
       snd (connectLoop env [3]%nat))) /\
  (forall e1 e2 services,
      attemptOutcome env 1 = inl e1 ->
      attemptOutcome env 2 = inl e2 ->
      attemptOutcome env 3 = inr services ->
      snd (retryConnect env) = Broke services /\
      connectCalls (fst (retryConnect env)) = 3%nat /\
      forall deviceName,
        snd (connect deviceName env) = openDevice deviceName services) /\
  (forall e1 e2 e3,
      attemptOutcome env 1 = inl e1 ->
      attemptOutcome env 2 = inl e2 ->
      attemptOutcome env 3 = inl e3 ->
      snd (retryConnect env) = Threw e3 /\
      forall deviceName, snd (connect deviceName env) = inl e3).
Proof.
  pose proof (retryConnect_unfold env) as U.
  pose proof (tryBlock_connectCalls (env 1%nat) 1) as K1.
  pose proof (tryBlock_connectCalls (env 2%nat) 2) as K2.
  pose proof (tryBlock_connectCalls (env 3%nat) 3) as K3.
  split; [ | split; [ | split; [ | split; [ | split ] ] ] ].
  - rewrite U.
    destruct (attemptOutcome env 1); [ destruct (attemptOutcome env 2);
      [ destruct (attemptOutcome env 3) | ] | ];
      cbn [fst]; rewrite ?connectCalls_app, ?K1, ?K2, ?K3; cbn; lia.
  - rewrite U.
    destruct (attemptOutcome env 1); [ destruct (attemptOutcome env 2);
      [ destruct (attemptOutcome env 3) | ] | ];
      cbn [snd]; discriminate.
  - intros e1 H1. unfold retryConnect. cbn [connectLoop Nat.eqb].
    unfold attemptOutcome in H1.
    destruct (tryBlock (env 1%nat) 1) as [evs1 r1]. cbn [snd] in H1. subst r1.
    destruct (tryBlock (env 2%nat) 2) as [evs2 [e2 | s2]]; [ | reflexivity ].
    destruct (tryBlock (env 3%nat) 3) as [evs3 [e3 | s3]]; reflexivity.
  - intros e1 e2 H1 H2. unfold retryConnect. cbn [connectLoop Nat.eqb].
    unfold attemptOutcome in H1, H2.
    destruct (tryBlock (env 1%nat) 1) as [evs1 r1]. cbn [snd] in H1. subst r1.
    destruct (tryBlock (env 2%nat) 2) as [evs2 r2]. cbn [snd] in H2. subst r2.
    destruct (tryBlock (env 3%nat) 3) as [evs3 [e3 | s3]]; reflexivity.
  - intros e1 e2 services H1 H2 H3. rewrite H1, H2, H3 in U.
    split; [ rewrite U; reflexivity | split ].
    + rewrite U. cbn [fst]. rewrite !connectCalls_app, K1, K2, K3. reflexivity.
    + intros deviceName. unfold connect. rewrite U. reflexivity.
  - intros e1 e2 e3 H1 H2 H3. rewrite H1, H2, H3 in U.
    split; [ rewrite U; reflexivity | ].
    intros deviceName. unfold connect. rewrite U. reflexivity.
Qed.

(** Two rejected [gatt.connect()] calls, then a connection whose services
    are enumerated: the trace of the loop. *)
Example retry_twice_then_connected :
  let services := [mkService "50300001-0024-4bd4-bbd5-a6920e4c5653" None] in
  let env := fun n : nat =>
    if (n <? 3)%nat then mkAttempt (Some "NetworkError") (inr [])
    else mkAttempt None (inr services) in
  retryConnect env =
  ([EvGattConnect 1; EvWarn 1 "NetworkError"; EvDelay 500;
    EvGattConnect 2; EvWarn 2 "NetworkError"; EvDelay 500;
    EvGattConnect 3; EvDelay 300; EvGetPrimaryServices 3],
   Broke services).
Proof. reflexivity. Qed.

(** Three rejected attempts: three warnings, two back-off delays, and the
    third error thrown. *)
Example retry_exhausted :
  retryConnect (fun _ => mkAttempt (Some "NetworkError") (inr [])) =
  ([EvGattConnect 1; EvWarn 1 "NetworkError"; EvDelay 500;
    EvGattConnect 2; EvWarn 2 "NetworkError"; EvDelay 500;
    EvGattConnect 3; EvWarn 3 "NetworkError"],
   Threw "NetworkError").
Proof. reflexivity. Qed.

(** ** C8: the V2 write gate *)

(** Projections of the gate's state records, reduced without unfolding the
    arithmetic of the levels. *)
Tactic Notation "gate_fields" :=
  unfold V2Gate.Converging;
  cbn [V2Gate.v2State V2Gate.v2Sending V2Gate.v2Pending V2Gate.inflight
       V2Gate.transmitted V2Gate.stopWaiting coyote_v2.connected
       coyote_v2.intensityA coyote_v2.intensityB coyote_v2.interval].
Tactic Notation "gate_fields" "in" hyp(H) :=
  unfold V2Gate.Converging in H;
  cbn [V2Gate.v2State V2Gate.v2Sending V2Gate.v2Pending V2Gate.inflight
       V2Gate.transmitted V2Gate.stopWaiting coyote_v2.connected
       coyote_v2.intensityA coyote_v2.intensityB coyote_v2.interval] in H.

Section GateProofs.

Variables (waveAChar waveBChar : bool).

Local Abbreviation step := (V2Gate.step waveAChar waveBChar).
Local Abbreviation run := (V2Gate.run waveAChar waveBChar).
Local Abbreviation sendCommand := (V2Gate.sendCommand waveAChar waveBChar).

(** A call of [sendCommand] on a closed gate leaves it closed with one
    write outstanding, or returns at once when the device is gone. *)
Lemma sendCommand_idle (s : V2Gate.State) (intensity : Q) :
  V2Gate.v2Sending s = false -> V2Gate.inflight s = [] ->
  coyote_v2.connected (V2Gate.v2State s) = true ->
  exists target,
    sendCommand s intensity =
    {| V2Gate.v2State :=
         {| coyote_v2.intensityA := V2Gate.levelOf intensity;
            coyote_v2.intensityB := V2Gate.levelOf intensity;
            coyote_v2.interval := coyote_v2.interval (V2Gate.v2State s);
            coyote_v2.connected := true |};
       V2Gate.v2Sending := true;
       V2Gate.v2Pending := V2Gate.v2Pending s;
       V2Gate.inflight := [V2Gate.SendTask (V2Gate.levelOf intensity) target];
       V2Gate.transmitted := V2Gate.transmitted s;
       V2Gate.stopWaiting := V2Gate.stopWaiting s |}.
Proof.
  intros Hs Hi Hc. unfold V2Gate.sendCommand. rewrite Hc, Hs. cbn [negb].
  unfold V2Gate.issue, V2Gate.levelOf.
  cbn [V2Gate.v2State V2Gate.v2Sending V2Gate.v2Pending V2Gate.inflight
       V2Gate.transmitted V2Gate.stopWaiting].
  rewrite Hi. cbn [app].
  destruct waveAChar; [ | destruct waveBChar ]; eexists; reflexivity.
Qed.

Lemma sendCommand_gated (s : V2Gate.State) (intensity : Q) :
  V2Gate.Gated s -> V2Gate.Gated (sendCommand s intensity).
Proof.
  unfold V2Gate.Gated. intros G.
  destruct (coyote_v2.connected (V2Gate.v2State s)) eqn:Hc.
  - destruct (V2Gate.v2Sending s) eqn:Hs.
    + unfold V2Gate.sendCommand. rewrite Hc, Hs. cbn. exact G.
    + destruct (sendCommand_idle s intensity Hs G Hc) as [target ->].
      reflexivity.
  - unfold V2Gate.sendCommand. rewrite Hc. cbn [negb]. exact G.
Qed.

Lemma issue_gated (s : V2Gate.State) (t : V2Gate.Task) :
  V2Gate.v2Sending s = true -> V2Gate.inflight s = [] ->
  V2Gate.Gated (V2Gate.issue s t).
Proof.
  intros Hs Hi. unfold V2Gate.Gated, V2Gate.issue. cbn.
  rewrite Hs, Hi. reflexivity.
Qed.

(** The [finally] block of [sendCommand] closes the gate, or reopens it for
    the pending intensity. *)
Lemma sendFinally_gated (s : V2Gate.State) :
  V2Gate.inflight s = [] ->
  V2Gate.Gated (V2Gate.sendFinally waveAChar waveBChar s).
Proof.
  intros Hi. unfold V2Gate.sendFinally. cbn [V2Gate.v2Pending].
  destruct (V2Gate.v2Pending s) as [pending |].
  - apply sendCommand_gated. unfold V2Gate.Gated. cbn. exact Hi.
  - unfold V2Gate.Gated. cbn. exact Hi.
Qed.

Lemma sendCatch_inflight (s : V2Gate.State) (d : bool) :
  V2Gate.inflight (V2Gate.sendCatch s d) = V2Gate.inflight s.
Proof. destruct d; reflexivity. Qed.

(** The continuation of the one suspended call keeps the gate. *)
Lemma resume_gated (s : V2Gate.State) (t : V2Gate.Task) (r : V2Gate.WriteResult) :
  V2Gate.v2Sending s = true -> V2Gate.inflight s = [] ->
  V2Gate.Gated (V2Gate.resume waveAChar waveBChar s t r).
Proof.
  intros Hs Hi.
  destruct t as [level target |]; destruct r as [| d].
  - destruct target; cbn [V2Gate.resume].
    + destruct waveBChar; apply issue_gated; assumption.
    + apply issue_gated; assumption.
    + apply sendFinally_gated. exact Hi.
  - assert (V2Gate.resume waveAChar waveBChar s (V2Gate.SendTask level target)
                          (V2Gate.Rejected d) =
            V2Gate.sendFinally waveAChar waveBChar (V2Gate.sendCatch s d)) as ->
      by (destruct target; reflexivity).
    apply sendFinally_gated. rewrite sendCatch_inflight. exact Hi.
  - unfold V2Gate.Gated. cbn. exact Hi.
  - unfold V2Gate.Gated. cbn. exact Hi.
Qed.

(** Every task of the event loop keeps the gate. *)
Lemma step_gated (s : V2Gate.State) (e : V2Gate.Event) :
  V2Gate.Gated s -> V2Gate.Gated (step s e).
Proof.
  intros G. destruct e as [intensity | | | k r |]; cbn [V2Gate.step].
  - apply sendCommand_gated. exact G.
  - unfold V2Gate.Gated in *. destruct (V2Gate.v2Sending s) eqn:Hs.
    + cbn; rewrite ?Hs; exact G.
    + cbn. rewrite G. reflexivity.
  - destruct (V2Gate.stopWaiting s) as [| n]; [ exact G | ].
    unfold V2Gate.Gated in *. destruct (V2Gate.v2Sending s) eqn:Hs.
    + cbn; rewrite ?Hs; exact G.
    + cbn. rewrite G. reflexivity.
  - destruct (nth_error (V2Gate.inflight s) k) as [t |] eqn:Hk; [ | exact G ].
    unfold V2Gate.Gated in G. destruct (V2Gate.v2Sending s) eqn:Hs.
    2:{ rewrite G in Hk. destruct k; discriminate Hk. }
    destruct (V2Gate.inflight s) as [| t0 [| t1 rest]] eqn:Hi;
      try discriminate G.
    destruct k as [| k]; [ | destruct k; discriminate Hk ].
    injection Hk as ->. cbn [V2Gate.removeNth].
    apply resume_gated; reflexivity.
  - unfold V2Gate.Gated in *. cbn. exact G.
Qed.

Lemma run_gated (evs : list V2Gate.Event) (s : V2Gate.State) :
  V2Gate.Gated s -> V2Gate.Gated (run s evs).
Proof.
  revert s. induction evs as [| e evs IH]; intros s G; cbn.
  - exact G.
  - apply IH. apply step_gated. exact G.
Qed.

Lemma gated_at_most_one (s : V2Gate.State) :
  V2Gate.Gated s -> (List.length (V2Gate.inflight s) <= 1)%nat.
Proof.
  unfold V2Gate.Gated. destruct (V2Gate.v2Sending s); intros G; rewrite G; cbn; lia.
Qed.

Lemma latest_snoc {A} (l : list A) (x : A) : V2Gate.latest (l ++ [x]) = Some x.
Proof. unfold V2Gate.latest. rewrite rev_unit. reflexivity. Qed.

(** A send request or a resolved write keeps the relation to the most
    recent request. *)
Lemma step_converging (s : V2Gate.State) (req : option Q) (e : V2Gate.Event) :
  V2Gate.sendOnly e = true ->
  V2Gate.Converging s req ->
  V2Gate.Converging (step s e) (V2Gate.requestAfter req e).
Proof.
  intros He [Hc H].
  destruct s as [[a b itv conn] sending pending infl trans waiting].
  gate_fields in Hc. gate_fields in H. subst conn.
  destruct e as [intensity | | | k r |]; try discriminate He.
  - (* sendCommand *)
    destruct sending.
    + destruct H as [level [target [-> Hp]]].
      split; [ reflexivity | ]. cbn.
      exists level, target. split; reflexivity.
    + destruct H as [-> [-> Hreq]].
      split; [ destruct waveAChar, waveBChar; reflexivity | ].
      destruct waveAChar, waveBChar; cbn;
        eexists; eexists; (split; [ reflexivity | ]);
        exists intensity; split; reflexivity.
  - (* a write resolves *)
    destruct r as [| d]; [ | discriminate He ].
    cbn [V2Gate.requestAfter].
    destruct sending.
    + destruct H as [level [target [-> Hp]]].
      destruct k as [| k].
      2:{ assert (E : nth_error [V2Gate.SendTask level target] (S k) = None)
            by (destruct k; reflexivity).
          unfold V2Gate.step. gate_fields. rewrite E.
          split; [ reflexivity | ]. gate_fields.
          exists level, target. split; [ reflexivity | exact Hp ]. }
      destruct target.
      * (* wave A resolved *)
        split; [ destruct waveBChar; reflexivity | ].
        destruct waveBChar; cbn; eexists; eexists;
          (split; [ reflexivity | exact Hp ]).
      * (* wave B resolved *)
        split; [ reflexivity | ].
        cbn. eexists; eexists; (split; [ reflexivity | exact Hp ]).
      * (* the power write resolved: the [finally] block *)
        destruct pending as [p |].
        -- subst req.
           split; [ destruct waveAChar, waveBChar; reflexivity | ].
           destruct waveAChar, waveBChar; cbn;
             eexists; eexists; (split; [ reflexivity | ]);
             exists p; split; reflexivity.
        -- destruct Hp as [i [-> ->]].
           split; [ reflexivity | ]. cbn.
           split; [ reflexivity | split; [ reflexivity | ] ].
           apply latest_snoc.
    + destruct H as [-> [-> Hreq]].
      assert (E : nth_error (@nil V2Gate.Task) k = None)
        by (destruct k; reflexivity).
      unfold V2Gate.step. gate_fields. rewrite E.
      split; [ reflexivity | ]. gate_fields. repeat split. exact Hreq.
Qed.

Lemma run_converging (evs : list V2Gate.Event) (s : V2Gate.State) (req : option Q) :
  forallb V2Gate.sendOnly evs = true ->
  V2Gate.Converging s req ->
  V2Gate.Converging (run s evs) (fold_left V2Gate.requestAfter evs req).
Proof.
  revert s req. induction evs as [| e evs IH]; intros s req Ha C; cbn.
  - exact C.
  - cbn in Ha. apply andb_true_iff in Ha. destruct Ha as [He Ha].
    apply IH; [ exact Ha | ]. apply step_converging; assumption.
Qed.

Lemma initial_converging : V2Gate.Converging V2Gate.initial None.
Proof. split; [ reflexivity | ]. cbn. repeat split. Qed.

(** While a send is under way, each resolved write shortens the backlog. *)
Lemma settle_shortens_backlog (s : V2Gate.State) (req : option Q) :
  V2Gate.Converging s req -> V2Gate.v2Sending s = true ->
  (V2Gate.backlog (step s (V2Gate.Settle 0 V2Gate.Resolved)) < V2Gate.backlog s)%nat.
Proof.
  intros [Hc H] Hs.
  destruct s as [[a b itv conn] sending pending infl trans waiting].
  gate_fields in Hc. gate_fields in H. gate_fields in Hs. subst conn sending.
  destruct H as [level [target [-> Hp]]].
  destruct target, pending as [p |], waveAChar, waveBChar; cbn; lia.
Qed.

Lemma idle_backlog (s : V2Gate.State) (req : option Q) :
  V2Gate.Converging s req ->
  V2Gate.v2Sending s = false <-> V2Gate.backlog s = 0%nat.
Proof.
  intros [Hc H].
  destruct s as [[a b itv conn] sending pending infl trans waiting].
  gate_fields in Hc. gate_fields in H. gate_fields. destruct sending.
  - destruct H as [level [target [-> Hp]]]. unfold V2Gate.backlog. cbn.
    split; [ discriminate | ]. destruct pending, target; cbn; lia.
  - destruct H as [-> [-> _]]. split; reflexivity.
Qed.

(** Letting the outstanding writes resolve empties the gate after at most
    [backlog] of them. *)
Lemma drain (n : nat) (s : V2Gate.State) (req : option Q) :
  (V2Gate.backlog s <= n)%nat -> V2Gate.Converging s req ->
  exists m, (m <= n)%nat /\
    V2Gate.v2Sending
      (run s (repeat (V2Gate.Settle 0 V2Gate.Resolved) m)) = false /\
    V2Gate.Converging
      (run s (repeat (V2Gate.Settle 0 V2Gate.Resolved) m)) req.
Proof.
  revert s. induction n as [| n IH]; intros s Hb C.
  - exists 0%nat. cbn. split; [ lia | split; [ | exact C ] ].
    apply (idle_backlog s req C). lia.
  - destruct (V2Gate.v2Sending s) eqn:Hs.
    + pose proof (settle_shortens_backlog s req C Hs) as D.
      pose proof (step_converging s req (V2Gate.Settle 0 V2Gate.Resolved)
                    eq_refl C) as C'.
      cbn [V2Gate.requestAfter] in C'.
      assert (Hb' : (V2Gate.backlog (step s (V2Gate.Settle 0 V2Gate.Resolved)) <= n)%nat)
        by lia.
      destruct (IH _ Hb' C') as [m [Hm [Hidle Hconv]]].
      exists (S m). cbn [repeat]. split; [ lia | ].
      split; [ exact Hidle | exact Hconv ].
    + exists 0%nat. cbn. split; [ lia | split; [ exact Hs | exact C ] ].
Qed.

Lemma converging_backlog (s : V2Gate.State) (req : option Q) :
  V2Gate.Converging s req -> (V2Gate.backlog s <= 6)%nat.
Proof.
  intros [Hc H].
  destruct s as [[a b itv conn] sending pending infl trans waiting].
  gate_fields in Hc. gate_fields in H. unfold V2Gate.backlog. gate_fields. destruct sending.
  - destruct H as [level [target [-> Hp]]]. destruct pending, target; cbn; lia.
  - destruct H as [-> [-> _]]. cbn. lia.
Qed.

Lemma run_app (s : V2Gate.State) (evs1 evs2 : list V2Gate.Event) :
  run s (evs1 ++ evs2) = run (run s evs1) evs2.
Proof. unfold V2Gate.run. apply fold_left_app. Qed.

End GateProofs.


(** Scenario: a send at 0.3, then sends at 0.5 and 0.8 while its writes are
    outstanding.  Only 0.3 and 0.8 are transmitted, one write at a time. *)
Example latest_pending_wins :
  let evs := [V2Gate.SendCommand (3 # 10); V2Gate.SendCommand (1 # 2);
              V2Gate.SendCommand (8 # 10)] ++
             repeat (V2Gate.Settle 0 V2Gate.Resolved) 6 in
  let s := V2Gate.run true true V2Gate.initial evs in
  V2Gate.transmitted s = [307; 819] /\
  V2Gate.inflight s = [] /\ V2Gate.v2Sending s = false /\
  V2Gate.v2Pending s = None.
Proof. cbv zeta. repeat split. Qed.

(** Outside the send path: [stopCommand]'s [finally] block does not look at
    the pending slot.  An intensity stored while the stop write is
    outstanding stays in the slot and is sent after the next send, so the
    older 0.3 is transmitted after the newer 0.8. *)
Example pending_stored_during_stop :
  let evs := [V2Gate.StopCommand; V2Gate.SendCommand (3 # 10);
              V2Gate.Settle 0 V2Gate.Resolved; V2Gate.SendCommand (8 # 10)] ++
             repeat (V2Gate.Settle 0 V2Gate.Resolved) 6 in
  V2Gate.transmitted (V2Gate.run true true V2Gate.initial evs) = [0; 819; 307].
Proof. reflexivity. Qed.

(** ** C9: the fallback for unknown devices *)

(** The service [connect] selects. *)
Lemma selected_targetService (services : list Service) (service : Service) :
  selected services service -> targetService services = Some service.
Proof.
  assert (G : forall s,
             (negb (startsWith (uuid s) "00001800") &&
              negb (startsWith (uuid s) "00001801"))%bool =
             negb (genericService s)).
  { intros s. unfold genericService, startsWith.
    destruct (String.prefix "00001800" (uuid s)),
      (String.prefix "00001801" (uuid s)); reflexivity. }
  assert (N : forall l,
             forallb genericService l = true ->
             find (fun s => (negb (startsWith (uuid s) "00001800") &&
                             negb (startsWith (uuid s) "00001801"))%bool) l = None).
  { induction l as [| x l IH]; intros F; [ reflexivity | ].
    cbn [forallb] in F. apply andb_true_iff in F. destruct F as [Fx Fl].
    cbn [find]. rewrite G, Fx. cbn [negb]. apply IH. exact Fl. }
  intros [generic rest -> F Ns | rest -> F]; unfold targetService.
  - assert (E : find (fun s => (negb (startsWith (uuid s) "00001800") &&
                                negb (startsWith (uuid s) "00001801"))%bool)
                     (generic ++ service :: rest) = Some service).
    { induction generic as [| x l IH]; cbn [app find].
      - rewrite G, Ns. reflexivity.
      - cbn [forallb] in F. apply andb_true_iff in F. destruct F as [Fx Fl].
        rewrite G, Fx. cbn [negb]. apply IH. exact Fl. }
    rewrite E. reflexivity.
  - rewrite (N _ F). reflexivity.
Qed.

(** The first characteristic with a write property. *)
Lemma find_writable (before after : list Characteristic) (c : Characteristic) :
  forallb readOnly before = true ->
  (write c || writeWithoutResponse c)%bool = true ->
  find writable (before ++ c :: after) = Some c.
Proof.
  intros F W. induction before as [| x l IH]; cbn [app find].
  - unfold writable. rewrite W. reflexivity.
  - cbn [forallb] in F. apply andb_true_iff in F. destruct F as [Fx Fl].
    unfold readOnly in Fx. apply andb_true_iff in Fx. destruct Fx as [A B].
    apply negb_true_iff in A, B. unfold writable at 1. rewrite A, B.
    cbn [orb]. apply IH. exact Fl.
Qed.

Lemma find_writable_none (chars : list Characteristic) :
  forallb readOnly chars = true -> find writable chars = None.
Proof.
  induction chars as [| x l IH]; intros F; [ reflexivity | ].
  cbn [forallb] in F. apply andb_true_iff in F. destruct F as [Fx Fl].
  unfold readOnly in Fx. apply andb_true_iff in Fx. destruct Fx as [A B].
  apply negb_true_iff in A, B. cbn [find]. unfold writable at 1.
  rewrite A, B. cbn [orb]. apply IH. exact Fl.
Qed.

(** C9 (as amended).  For a device that is not recognised as a Coyote and
    for which [detectProtocol] returns [null], [connect] does not fail on
    that account: it goes on with the Lovense protocol and looks for a
    characteristic in one service only, the first service whose UUID starts
    with neither 00001800 nor 00001801, or the first service when all do.
    When that service has a characteristic with a write property, the
    handle carries the Lovense protocol, whose [init] writes nothing, and
    every [send(intensity)] writes the Lovense text command for that
    intensity to the first such characteristic, with [writeValue] when it
    has the [write] property and with [writeValueWithoutResponse] when it
    has not.  When that service has none, [connect] throws 'No writable
    characteristic found', whatever the other services hold. *)
Theorem C9_unknown_device_uses_lovense
        (deviceName : string) (services : list Service)
        (service : Service) (chars : list Characteristic) :
  isCoyote deviceName = false ->
  detectProtocol deviceName services = None ->
  selected services service ->
  getCharacteristics service = Some chars ->
  (forall before writeChar' after,
      chars = before ++ writeChar' :: after ->
      forallb readOnly before = true ->
      (write writeChar' || writeWithoutResponse writeChar')%bool = true ->
      let handle := mkHandle deviceName Lovense writeChar' None None false in
      openDevice deviceName services = inr handle /\
      (forall env evs,
          retryConnect env = (evs, Broke services) ->
          connect deviceName env = (evs, inr handle)) /\
      protocol_id (h_protocol handle) = "lovense" /\
      init handle = [] /\
      (forall m st intensity,
          let bytes :=
            TextEncoder_encode
              ("Vibrate:" ++ toString (Math_round (intensity * 20)) ++ ";") in
          send handle m st intensity =
          ({| _active := _active m; _lastCommand := Some bytes;
              _lastIntensity := intensity |},
           st,
           DirectWrite
             (mkBleWrite writeChar'
                (if write writeChar' then WriteValue
                 else WriteValueWithoutResponse)
                bytes)))) /\
  (forallb readOnly chars = true ->
   openDevice deviceName services = inl "No writable characteristic found" /\
   (forall env evs,
       retryConnect env = (evs, Broke services) ->
       connect deviceName env = (evs, inl "No writable characteristic found"))).
Proof.
  intros Hc Hd Hs Hg.
  pose proof (selected_targetService services service Hs) as Ht.
  split.
  - intros before writeChar' after -> F W handle.
    pose proof (find_writable before after writeChar' F W) as Hw.
    assert (O : openDevice deviceName services = inr handle).
    { unfold openDevice. rewrite Hc, Hd, Ht, Hg, Hw. reflexivity. }
    split; [ exact O | ].
    split; [ intros env evs L; unfold connect; rewrite L, O; reflexivity | ].
    split; [ reflexivity | ].
    split; [ reflexivity | ].
    intros m st intensity bytes. unfold send.
    cbn [h_protocol handle buildCommand hasSendCommand].
    unfold writeToChar. cbn [useWriteWithoutResponse handle orb writeChar].
    destruct (write writeChar'); reflexivity.
  - intros F.
    assert (O : openDevice deviceName services =
                inl "No writable characteristic found").
    { unfold openDevice.
      rewrite Hc, Hd, Ht, Hg, (find_writable_none chars F). reflexivity. }
    split; [ exact O | ].
    intros env evs L. unfold connect. rewrite L, O. reflexivity.
Qed.

(** C9 for a device called ["Unknown-01"] with the generic access service
    first and then a service that no registry entry lists: the handle
    speaks Lovense to the first characteristic of the second service that
    can be written, here without response. *)
Lemma C9_unknown_device_uses_lovense_witness :
  let generic :=
    mkService "00001800-0000-1000-8000-00805f9b34fb"
      (Some [mkChar "00002a00-0000-1000-8000-00805f9b34fb" true false]) in
  let notify := mkChar "0000aaa2-0000-1000-8000-00805f9b34fb" false false in
  let char := mkChar "0000aaa1-0000-1000-8000-00805f9b34fb" false true in
  let service := mkService "0000aaa0-0000-1000-8000-00805f9b34fb"
                           (Some [notify; char]) in
  let services := [generic; service] in
  let handle := mkHandle "Unknown-01" Lovense char None None false in
  (isCoyote "Unknown-01" = false /\
   detectProtocol "Unknown-01" services = None /\
   selected services service /\
   getCharacteristics service = Some [notify; char]) /\
  openDevice "Unknown-01" services = inr handle /\
  send handle (mkManager false None 0) protoState0 (1 # 2) =
    (mkManager false (Some (TextEncoder_encode "Vibrate:10;")) (1 # 2),
     protoState0,
     DirectWrite (mkBleWrite char WriteValueWithoutResponse
                             (TextEncoder_encode "Vibrate:10;"))).
Proof.
  intros generic notify char service services handle.
  assert (H1 : isCoyote "Unknown-01" = false) by reflexivity.
  assert (H2 : detectProtocol "Unknown-01" services = None) by reflexivity.
  assert (H3 : selected services service)
    by (apply (selected_first_other services service [generic] []);
        reflexivity).
  assert (H4 : getCharacteristics service = Some [notify; char]) by reflexivity.
  destruct (C9_unknown_device_uses_lovense "Unknown-01" services service
              [notify; char] H1 H2 H3 H4) as [S _].
  destruct (S [notify] char [] eq_refl eq_refl eq_refl) as (O & _ & _ & _ & W).
  split; [ repeat split; assumption | ].
  split; [ exact O | ].
  exact (W (mkManager false None 0) protoState0 (1 # 2)).
Defined.

(** C9 as stated fails for a device whose writable characteristic is not in
    the selected service: the first service is not generic and has no
    writable characteristic, the second one has one, no registry entry
    matches, and [connect] throws instead of returning a handle. *)
Lemma C9_writable_in_other_service_counterexample :
  let first :=
    mkService "0000aaa0-0000-1000-8000-00805f9b34fb"
      (Some [mkChar "0000aaa1-0000-1000-8000-00805f9b34fb" false false]) in
  let writableChar := mkChar "0000bbb1-0000-1000-8000-00805f9b34fb" true false in
  let second :=
    mkService "0000bbb0-0000-1000-8000-00805f9b34fb" (Some [writableChar]) in
  let services := [first; second] in
  isCoyote "Unknown-01" = false /\
  detectProtocol "Unknown-01" services = None /\
  (In second services /\ getCharacteristics second = Some [writableChar] /\
   write writableChar = true) /\
  openDevice "Unknown-01" services = inl "No writable characteristic found" /\
  (forall env evs,
      retryConnect env = (evs, Broke services) ->
      connect "Unknown-01" env = (evs, inl "No writable characteristic found")) /\
  ~ (exists handle, openDevice "Unknown-01" services = inr handle).
Proof.
  cbv zeta.
  split; [ reflexivity | ]. split; [ reflexivity | ].
  split; [ split; [ right; left; reflexivity | split; reflexivity ] | ].
  split; [ reflexivity | ].
  split.
  - intros env evs L. unfold connect. rewrite L. reflexivity.
  - intros [handle H]. discriminate H.
Qed.

(** A device whose only services are the generic ones is looked up in
    [services[0]]; without any service the lookup throws. *)
Example no_service_is_an_error :
  openDevice "Unknown-01" [] = inl "TypeError".
Proof. reflexivity. Qed.

(** A recognised device keeps its own protocol. *)
Example satisfyer_is_detected :
  let char := mkChar "0000fff1-0000-1000-8000-00805f9b34fb" true false in
  let service := mkService "0000fff0-0000-1000-8000-00805f9b34fb" (Some [char]) in
  openDevice "SF Pro 2" [service] =
  inr (mkHandle "SF Pro 2" Satisfyer char None None false).
Proof. reflexivity. Qed.

(* ================================================================== *)
(** * Further properties of the encoders *)
(* ================================================================== *)

(** ** The V2 power and waveform frames *)

(** The three bytes of [encodeV2Power], before [ToUint8], as arithmetic. *)
Lemma encodeV2Power_bytes (a b : Z) :
  0 <= a <= 2047 -> 0 <= b <= 2047 ->
  encodeV2Power a b = [b mod 256; b / 256 + (a mod 32) * 8; a / 32].
Proof.
  intros Ha Hb. unfold encodeV2Power.
  rewrite (Z.max_r 0 a) by lia. rewrite (Z.min_r 2047 a) by lia.
  rewrite (Z.max_r 0 b) by lia. rewrite (Z.min_r 2047 b) by lia.
  cbn [map].
  change 0xFF with (2 ^ 8 - 1). change 0x07 with (2 ^ 3 - 1).
  change 0x1F with (2 ^ 5 - 1). change 0x3F with (2 ^ 6 - 1).
  rewrite !land_mask by lia.
  rewrite !Z.shiftr_div_pow2 by lia.
  rewrite lor_shiftl_add by (try lia; apply Z.mod_pos_bound; lia).
  change (2 ^ 8) with 256. change (2 ^ 3) with 8. change (2 ^ 5) with 32.
  change (2 ^ 6) with 64.
  rewrite !ToUint8_small by divlia.
  replace ((b / 256) mod 8) with (b / 256) by divlia.
  replace ((a / 32) mod 64) with (a / 32) by divlia.
  reflexivity.
Qed.

(** X1.  [encodeV2Power(a, b)] first clamps both levels to [0, 2047]; its
    three bytes, read least significant first, are the number
    [b + 2048 * a] of the clamped levels, so channel B is read back from
    bits 0-10 and channel A from bits 11-21, and two frames are equal only
    when both clamped levels are. *)
Theorem X1_encodeV2Power_round_trip (a b : Z) :
  let a' := clamp 0 2047 a in
  let b' := clamp 0 2047 b in
  encodeV2Power a b = encodeV2Power a' b' /\
  Forall (fun byte => 0 <= byte <= 255) (encodeV2Power a b) /\
  littleEndian24 (encodeV2Power a b) = Some (b' + 2048 * a') /\
  decodeV2PowerA (encodeV2Power a b) = Some a' /\
  decodeV2PowerB (encodeV2Power a b) = Some b' /\
  (forall a2 b2,
      encodeV2Power a b = encodeV2Power a2 b2 ->
      a' = clamp 0 2047 a2 /\ b' = clamp 0 2047 b2).
Proof.
  intros a' b'.
  assert (Ha : 0 <= a' <= 2047) by (unfold a', clamp; lia).
  assert (Hb : 0 <= b' <= 2047) by (unfold b', clamp; lia).
  assert (E : encodeV2Power a b = encodeV2Power a' b').
  { unfold encodeV2Power, a', b', clamp.
    rewrite !(Z.max_r 0 (Z.min 2047 (Z.max 0 _))) by lia.
    rewrite !(Z.min_r 2047 (Z.min 2047 (Z.max 0 _))) by lia.
    reflexivity. }
  assert (V : forall x y, 0 <= x <= 2047 -> 0 <= y <= 2047 ->
                          littleEndian24 (encodeV2Power x y) = Some (y + 2048 * x)).
  { intros x y Hx Hy. rewrite (encodeV2Power_bytes x y Hx Hy).
    cbn [littleEndian24]. rewrite !Z.shiftl_mul_pow2 by lia.
    change (2 ^ 8) with 256. change (2 ^ 16) with 65536. f_equal. divlia. }
  split; [ exact E | ].
  split.
  { rewrite E, (encodeV2Power_bytes a' b' Ha Hb).
    repeat constructor; divlia. }
  split; [ rewrite E; apply V; assumption | ].
  split; [ apply decodeV2PowerA_encode | ].
  split.
  { unfold decodeV2PowerB. rewrite E, (V a' b' Ha Hb). cbn [option_map].
    change 0x7FF with (2 ^ 11 - 1). rewrite land_mask by lia.
    change (2 ^ 11) with 2048. f_equal. divlia. }
  intros a2 b2 E2.
  assert (Ha2 : 0 <= clamp 0 2047 a2 <= 2047) by (unfold clamp; lia).
  assert (Hb2 : 0 <= clamp 0 2047 b2 <= 2047) by (unfold clamp; lia).
  assert (E3 : encodeV2Power a2 b2 =
               encodeV2Power (clamp 0 2047 a2) (clamp 0 2047 b2)).
  { unfold encodeV2Power, clamp.
    rewrite !(Z.max_r 0 (Z.min 2047 (Z.max 0 _))) by lia.
    rewrite !(Z.min_r 2047 (Z.min 2047 (Z.max 0 _))) by lia.
    reflexivity. }
  pose proof (V a' b' Ha Hb) as V1.
  pose proof (V _ _ Ha2 Hb2) as V2.
  rewrite <- E, E2, E3, V2 in V1.
  assert (K : clamp 0 2047 b2 + 2048 * clamp 0 2047 a2 = b' + 2048 * a')
    by congruence.
  clearbody a' b'.
  generalize dependent (clamp 0 2047 a2). generalize dependent (clamp 0 2047 b2).
  intros; lia.
Qed.

(** The three bytes of [encodeV2Wave] as arithmetic. *)
Lemma encodeV2Wave_bytes (x y z : Z) :
  0 <= x <= 31 -> 0 <= y <= 1023 -> 0 <= z <= 31 ->
  encodeV2Wave x y z = [x + (y mod 8) * 32; y / 8; z].
Proof.
  intros Hx Hy Hz. unfold encodeV2Wave.
  rewrite (Z.max_r 0 x) by lia. rewrite (Z.min_r 31 x) by lia.
  rewrite (Z.max_r 0 y) by lia. rewrite (Z.min_r 1023 y) by lia.
  rewrite (Z.max_r 0 z) by lia. rewrite (Z.min_r 31 z) by lia.
  cbn [map].
  change 0x07 with (2 ^ 3 - 1). change 0x1F with (2 ^ 5 - 1).
  change 0x7F with (2 ^ 7 - 1).
  rewrite !land_mask by lia.
  rewrite !Z.shiftr_div_pow2 by lia.
  rewrite lor_shiftl_add by (try lia; apply Z.mod_pos_bound; lia).
  change (2 ^ 3) with 8. change (2 ^ 5) with 32. change (2 ^ 7) with 128.
  rewrite !ToUint8_small by divlia.
  replace (x mod 32) with x by divlia.
  replace ((y / 8) mod 128) with (y / 8) by divlia.
  replace (z mod 32) with z by divlia.
  reflexivity.
Qed.

(** X2.  [encodeV2Wave(x, y, z)] clamps x and z to [0, 31] and y to
    [0, 1023]; its three bytes, read least significant first, are the
    number [x + 32 * y + 65536 * z]: X in bits 0-4, Y in bits 5-14, and Z in
    bits 16-20 (the whole of byte 2), bit 15 being always zero.  Two frames
    are equal only when the three clamped values are. *)
Theorem X2_encodeV2Wave_layout (x y z : Z) :
  let x' := clamp 0 31 x in
  let y' := clamp 0 1023 y in
  let z' := clamp 0 31 z in
  Forall (fun byte => 0 <= byte <= 255) (encodeV2Wave x y z) /\
  littleEndian24 (encodeV2Wave x y z) = Some (x' + 32 * y' + 65536 * z') /\
  nth_error (encodeV2Wave x y z) 2 = Some z' /\
  option_map (fun v => Z.testbit v 15) (littleEndian24 (encodeV2Wave x y z)) =
    Some false /\
  (forall x2 y2 z2,
      encodeV2Wave x y z = encodeV2Wave x2 y2 z2 ->
      x' = clamp 0 31 x2 /\ y' = clamp 0 1023 y2 /\ z' = clamp 0 31 z2).
Proof.
  intros x' y' z'.
  assert (C : forall p q r,
             encodeV2Wave p q r =
             encodeV2Wave (clamp 0 31 p) (clamp 0 1023 q) (clamp 0 31 r)).
  { intros p q r. unfold encodeV2Wave, clamp.
    rewrite !(Z.max_r 0 (Z.min _ (Z.max 0 _))) by lia.
    rewrite (Z.min_r 31 (Z.min 31 (Z.max 0 p))) by lia.
    rewrite (Z.min_r 1023 (Z.min 1023 (Z.max 0 q))) by lia.
    rewrite (Z.min_r 31 (Z.min 31 (Z.max 0 r))) by lia.
    reflexivity. }
  assert (R : forall p q r,
             0 <= clamp 0 31 p <= 31 /\ 0 <= clamp 0 1023 q <= 1023 /\
             0 <= clamp 0 31 r <= 31) by (intros; unfold clamp; lia).
  assert (V : forall p q r,
             littleEndian24 (encodeV2Wave p q r) =
             Some (clamp 0 31 p + 32 * clamp 0 1023 q + 65536 * clamp 0 31 r)).
  { intros p q r. destruct (R p q r) as [Hp [Hq Hr]].
    rewrite (C p q r), (encodeV2Wave_bytes _ _ _ Hp Hq Hr).
    cbn [littleEndian24]. rewrite !Z.shiftl_mul_pow2 by lia.
    change (2 ^ 8) with 256. change (2 ^ 16) with 65536. f_equal. divlia. }
  destruct (R x y z) as [Hx [Hy Hz]]. fold x' y' z' in Hx, Hy, Hz.
  split.
  { rewrite (C x y z). fold x' y' z'.
    rewrite (encodeV2Wave_bytes x' y' z' Hx Hy Hz).
    repeat constructor; divlia. }
  split; [ apply V | ].
  split.
  { rewrite (C x y z). fold x' y' z'.
    rewrite (encodeV2Wave_bytes x' y' z' Hx Hy Hz). reflexivity. }
  split.
  { rewrite V. fold x' y' z'. cbn [option_map]. f_equal.
    rewrite Z.testbit_eqb by lia. change (2 ^ 15) with 32768.
    apply Z.eqb_neq. divlia. }
  intros x2 y2 z2 E.
  pose proof (V x y z) as V1. pose proof (V x2 y2 z2) as V2.
  rewrite E, V2 in V1.
  assert (K : clamp 0 31 x2 + 32 * clamp 0 1023 y2 + 65536 * clamp 0 31 z2 =
              x' + 32 * y' + 65536 * z') by (unfold x', y', z'; congruence).
  destruct (R x2 y2 z2) as [Hx2 [Hy2 Hz2]].
  clearbody x' y' z'.
  generalize dependent (clamp 0 31 x2). generalize dependent (clamp 0 1023 y2).
  generalize dependent (clamp 0 31 z2).
  intros; lia.
Qed.

(** ** The B0 frame *)

Lemma Qcompare_inject_Z (a b : Z) :
  (inject_Z a ?= inject_Z b)%Q = (a ?= b).
Proof. unfold Qcompare. cbn. rewrite !Z.mul_1_r. reflexivity. Qed.

Lemma Qmax_inject_Z (a b : Z) :
  Qmax (inject_Z a) (inject_Z b) = inject_Z (Z.max a b).
Proof.
  unfold Qmax, GenericMinMax.gmax, Z.max. rewrite Qcompare_inject_Z.
  destruct (a ?= b); reflexivity.
Qed.

Lemma Qmin_inject_Z (a b : Z) :
  Qmin (inject_Z a) (inject_Z b) = inject_Z (Z.min a b).
Proof.
  unfold Qmin, GenericMinMax.gmin, Z.min. rewrite Qcompare_inject_Z.
  destruct (a ?= b); reflexivity.
Qed.

Lemma Qle_bool_inject_Z (a b : Z) :
  Qle_bool (inject_Z a) (inject_Z b) = (a <=? b).
Proof. unfold Qle_bool. cbn. rewrite !Z.mul_1_r. reflexivity. Qed.

(** Rounding a quotient of integers, in integer arithmetic. *)
Lemma Math_round_quotient (a : Z) (b : positive) :
  Math_round (inject_Z a / inject_Z (Z.pos b)) = (2 * a + Z.pos b) / (2 * Z.pos b).
Proof.
  unfold Math_round.
  assert (E : inject_Z a / inject_Z (Z.pos b) + (1 # 2) ==
              inject_Z (2 * a + Z.pos b) / inject_Z (2 * Z.pos b)).
  { rewrite !inject_Z_plus, !inject_Z_mult. field.
    unfold Qeq; cbn; lia. }
  rewrite (Qfloor_comp _ _ E). symmetry. apply Zdiv_Qdiv.
Qed.

Lemma trunc_inject_Z (z : Z) : trunc (inject_Z z) = z.
Proof. unfold trunc. cbn. apply Z.quot_1_r. Qed.

(** On whole frequencies [encodeFrequency] is [encodeFrequencyZ]. *)
Lemma encodeFrequency_inject_Z (hz : Z) :
  encodeFrequency (inject_Z hz) = inject_Z (encodeFrequencyZ hz).
Proof.
  unfold encodeFrequency, encodeFrequencyZ, clamp. cbv zeta.
  change 10%Q with (inject_Z 10). change 1000%Q with (inject_Z 1000).
  rewrite Qmax_inject_Z, Qmin_inject_Z.
  set (h := Z.min 1000 (Z.max 10 hz)).
  change 100%Q with (inject_Z 100). change 600%Q with (inject_Z 600).
  rewrite !Qle_bool_inject_Z.
  destruct (h <=? 100); [ reflexivity | ].
  assert (M : forall c : Z, (inject_Z h - inject_Z c)%Q = inject_Z (h - c))
    by (intros c; unfold Qminus, Qopp, Qplus, inject_Z; cbn;
        rewrite !Z.mul_1_r; reflexivity).
  rewrite !M.
  destruct (h <=? 600); f_equal; f_equal.
  - change 5%Q with (inject_Z (Z.pos 5)).
    rewrite Math_round_quotient. reflexivity.
  - change 10%Q with (inject_Z (Z.pos 10)).
    rewrite Math_round_quotient.
    change (2 * Z.pos 10) with 20. divlia.
Qed.

(** The byte stored for a whole frequency. *)
Lemma frequency_byte (hz : Z) :
  ToUint8Q (encodeFrequency (inject_Z hz)) = encodeFrequencyZ hz /\
  10 <= encodeFrequencyZ hz <= 240.
Proof.
  assert (B : 10 <= encodeFrequencyZ hz <= 240).
  { unfold encodeFrequencyZ, clamp. cbv zeta.
    set (h := Z.min 1000 (Z.max 10 hz)).
    assert (10 <= h <= 1000) by (unfold h; lia). clearbody h.
    destruct (h <=? 100) eqn:E1; [ apply Z.leb_le in E1; lia | ].
    apply Z.leb_gt in E1.
    destruct (h <=? 600) eqn:E2;
      [ apply Z.leb_le in E2 | apply Z.leb_gt in E2 ]; divlia. }
  split; [ | exact B ].
  unfold ToUint8Q. rewrite encodeFrequency_inject_Z, trunc_inject_Z.
  apply ToUint8_small. lia.
Qed.

Lemma sampleByte_ext (f g : Z -> Z) (arr : list Z) (i : nat) :
  (forall x, f x = g x) -> sampleByte f arr i = sampleByte g arr i.
Proof.
  intros H. unfold sampleByte. destruct (nth_error arr i); [ apply H | reflexivity ].
Qed.

(** The B0 frame with every byte in integer arithmetic. *)
Lemma buildB0Command_integer (options : coyote.B0Options) :
  coyote.buildB0Command options =
  [ 0xB0;
    ToUint8 (Z.lor (Z.lor (Z.shiftl (coyote.sequence options) 4)
                          (Z.shiftl (coyote.modeB options) 2))
                   (coyote.modeA options));
    clamp 0 200 (coyote.o_intensityA options);
    clamp 0 200 (coyote.o_intensityB options) ]
  ++ map (sampleByte encodeFrequencyZ (coyote.waveFreqA options)) (seq 0 4)
  ++ map (sampleByte (clamp 0 100) (coyote.waveIntA options)) (seq 0 4)
  ++ map (sampleByte encodeFrequencyZ (coyote.waveFreqB options)) (seq 0 4)
  ++ map (sampleByte (clamp 0 100) (coyote.waveIntB options)) (seq 0 4).
Proof.
  unfold coyote.buildB0Command. cbv zeta.
  assert (F : forall arr i,
             sampleByte (fun hz => ToUint8Q (encodeFrequency (inject_Z hz))) arr i =
             sampleByte encodeFrequencyZ arr i)
    by (intros; apply sampleByte_ext; intros x; apply frequency_byte).
  assert (I : forall arr i,
             sampleByte (fun w => ToUint8 (Z.min 100 (Z.max 0 w))) arr i =
             sampleByte (clamp 0 100) arr i)
    by (intros; apply sampleByte_ext; intros x; unfold clamp;
        apply ToUint8_small; lia).
  rewrite !(ToUint8_small (Z.min 200 _)) by lia.
  cbn [map seq]. rewrite !F, !I. unfold clamp. reflexivity.
Qed.

(** X3.  A B0 frame has 20 bytes, each in [0, 255]; byte 0 is 0xB0; bytes 2
    and 3 are the two intensities clamped to [0, 200]; and for a sequence
    number in [0, 15] and modes in [0, 3], byte 1 is
    [16 * sequence + 4 * modeB + modeA], from which the three fields are
    read back. *)
Theorem X3_b0_frame_header (options : coyote.B0Options) :
  List.length (coyote.buildB0Command options) = 20%nat /\
  Forall (fun byte => 0 <= byte <= 255) (coyote.buildB0Command options) /\
  nth_error (coyote.buildB0Command options) 0 = Some 0xB0 /\
  nth_error (coyote.buildB0Command options) 2 =
    Some (clamp 0 200 (coyote.o_intensityA options)) /\
  nth_error (coyote.buildB0Command options) 3 =
    Some (clamp 0 200 (coyote.o_intensityB options)) /\
  (0 <= coyote.sequence options <= 15 ->
   0 <= coyote.modeA options <= 3 ->
   0 <= coyote.modeB options <= 3 ->
   exists byte1,
     nth_error (coyote.buildB0Command options) 1 = Some byte1 /\
     byte1 = 16 * coyote.sequence options + 4 * coyote.modeB options
             + coyote.modeA options /\
     b0Sequence byte1 = coyote.sequence options /\
     b0ModeB byte1 = coyote.modeB options /\
     b0ModeA byte1 = coyote.modeA options).
Proof.
  split; [ reflexivity | ].
  split.
  { unfold coyote.buildB0Command. cbv zeta. cbn [map seq app].
    assert (U : forall z, 0 <= ToUint8 z <= 255)
      by (intros z; unfold ToUint8; divlia).
    assert (S : forall f arr i, (forall x, 0 <= f x <= 255) ->
                                0 <= sampleByte f arr i <= 255).
    { intros f arr i Hf. unfold sampleByte.
      destruct (nth_error arr i); [ apply Hf | lia ]. }
    repeat constructor; try apply U;
      apply S; intros x; try apply U;
      unfold ToUint8Q; apply U. }
  rewrite buildB0Command_integer. cbn [app nth_error].
  split; [ reflexivity | split; [ reflexivity | split; [ reflexivity | ] ] ].
  intros Hs Ha Hb.
  set (s := coyote.sequence options) in *.
  set (ma := coyote.modeA options) in *.
  set (mb := coyote.modeB options) in *.
  clearbody s ma mb.
  assert (E : Z.lor (Z.lor (Z.shiftl s 4) (Z.shiftl mb 2)) ma = 16 * s + 4 * mb + ma).
  { rewrite (Z.lor_comm (Z.shiftl s 4)).
    rewrite (Z.shiftl_mul_pow2 mb 2) by lia. change (2 ^ 2) with 4.
    rewrite (lor_shiftl_add (mb * 4) s 4) by (change (2 ^ 4) with 16; lia).
    change (2 ^ 4) with 16. rewrite Z.lor_comm.
    replace (mb * 4 + s * 16) with (Z.shiftl (mb + s * 4) 2)
      by (rewrite Z.shiftl_mul_pow2 by lia; change (2 ^ 2) with 4; lia).
    rewrite (lor_shiftl_add ma (mb + s * 4) 2) by (change (2 ^ 2) with 4; lia).
    change (2 ^ 2) with 4. lia. }
  exists (16 * s + 4 * mb + ma).
  split; [ rewrite E, ToUint8_small by lia; reflexivity | ].
  split; [ reflexivity | ].
  unfold b0Sequence, b0ModeB, b0ModeA.
  change 3 with (2 ^ 2 - 1). rewrite !land_mask by lia.
  rewrite !Z.shiftr_div_pow2 by lia.
  change (2 ^ 2) with 4. change (2 ^ 4) with 16.
  repeat split; divlia.
Qed.

(** X4.  In a B0 frame each of the sixteen waveform bytes is computed from
    one array element: a frequency sample [hz] gives
    [encodeFrequencyZ hz], which lies in [10, 240] and does not decrease
    when [hz] grows; an intensity sample gives its value clamped to
    [0, 100]; a sample missing from an array shorter than four gives
    byte 0. *)
Theorem X4_b0_waveform_bytes (options : coyote.B0Options) :
  skipn 4 (coyote.buildB0Command options) =
    map (sampleByte encodeFrequencyZ (coyote.waveFreqA options)) (seq 0 4)
    ++ map (sampleByte (clamp 0 100) (coyote.waveIntA options)) (seq 0 4)
    ++ map (sampleByte encodeFrequencyZ (coyote.waveFreqB options)) (seq 0 4)
    ++ map (sampleByte (clamp 0 100) (coyote.waveIntB options)) (seq 0 4) /\
  (forall hz, ToUint8Q (encodeFrequency (inject_Z hz)) = encodeFrequencyZ hz) /\
  (forall hz, 10 <= encodeFrequencyZ hz <= 240) /\
  (forall hz hz', hz <= hz' -> encodeFrequencyZ hz <= encodeFrequencyZ hz') /\
  (forall w, 0 <= clamp 0 100 w <= 100) /\
  (forall f arr i, (List.length arr <= i)%nat -> sampleByte f arr i = 0).
Proof.
  split; [ rewrite buildB0Command_integer; reflexivity | ].
  split; [ intros hz; apply frequency_byte | ].
  split; [ intros hz; apply frequency_byte | ].
  split.
  { intros hz hz' L. unfold encodeFrequencyZ, clamp. cbv zeta.
    set (h := Z.min 1000 (Z.max 10 hz)).
    set (h' := Z.min 1000 (Z.max 10 hz')).
    assert (10 <= h <= 1000 /\ 10 <= h' <= 1000 /\ h <= h')
      by (unfold h, h'; lia).
    clearbody h h'.
    destruct (h <=? 100) eqn:E1; destruct (h' <=? 100) eqn:E1';
      destruct (h <=? 600) eqn:E2; destruct (h' <=? 600) eqn:E2';
      rewrite ?Z.leb_le, ?Z.leb_gt in *; divlia. }
  split; [ intros w; unfold clamp; lia | ].
  intros f arr i L. unfold sampleByte.
  apply nth_error_None in L. rewrite L. reflexivity.
Qed.

(** ** The Coyote channel state *)

(** X5.  [coyote.buildCommand] addresses channel A for [motorIndex] 0 and
    channel B for every other index, and touches nothing else: the
    intensity byte of the other channel and the sixteen waveform bytes of
    the frame are those of the state before the call, and the stored
    waveforms stay.  Setting A and then B gives a frame that carries both
    levels, each clamped to [0, 200]. *)
Theorem X5_coyote_channels_are_independent
        (st : coyote.State) (intensity intensity' : Q) (motorIndex : Z) :
  let levelA := Math_round (intensity * 200) in
  let levelB := Math_round (intensity' * 200) in
  let st1 := fst (coyote.buildCommand st intensity motorIndex) in
  let frame1 := snd (coyote.buildCommand st intensity motorIndex) in
  let stAB := fst (coyote.buildCommand
                     (fst (coyote.buildCommand st intensity 0)) intensity' 1) in
  let frameAB := snd (coyote.buildCommand
                        (fst (coyote.buildCommand st intensity 0)) intensity' 1) in
  skipn 4 frame1 = skipn 4 (coyote.frameOfState st) /\
  coyote.waveformA st1 = coyote.waveformA st /\
  coyote.waveformB st1 = coyote.waveformB st /\
  (motorIndex = 0 ->
   coyote.intensityB st1 = coyote.intensityB st /\
   nth_error frame1 3 = nth_error (coyote.frameOfState st) 3 /\
   nth_error frame1 2 = Some (clamp 0 200 levelA)) /\
  (motorIndex <> 0 ->
   coyote.intensityA st1 = coyote.intensityA st /\
   nth_error frame1 2 = nth_error (coyote.frameOfState st) 2 /\
   nth_error frame1 3 = Some (clamp 0 200 levelA)) /\
  coyote.intensityA stAB = levelA /\ coyote.intensityB stAB = levelB /\
  firstn 4 frameAB = [0xB0; 0x0F; clamp 0 200 levelA; clamp 0 200 levelB] /\
  skipn 4 frameAB = skipn 4 (coyote.frameOfState st).
Proof.
  cbv zeta.
  assert (F : forall s, coyote.frameOfState s =
              [0xB0; 0x0F; clamp 0 200 (coyote.intensityA s);
               clamp 0 200 (coyote.intensityB s)]
              ++ skipn 4 (coyote.frameOfState s)).
  { intros s. unfold coyote.frameOfState. rewrite buildB0Command_integer.
    reflexivity. }
  assert (W : forall s s',
             coyote.waveformA s' = coyote.waveformA s ->
             coyote.waveformB s' = coyote.waveformB s ->
             skipn 4 (coyote.frameOfState s') = skipn 4 (coyote.frameOfState s)).
  { intros s s' Ea Eb. unfold coyote.frameOfState.
    rewrite !buildB0Command_integer. cbn [skipn app coyote.waveFreqA
      coyote.waveIntA coyote.waveFreqB coyote.waveIntB].
    rewrite Ea, Eb. reflexivity. }
  unfold coyote.buildCommand. cbv zeta. cbn [fst snd].
  change (inject_Z coyote.maxIntensity) with 200%Q.
  set (levelA := Math_round (intensity * 200)).
  set (levelB := Math_round (intensity' * 200)).
  split; [ destruct (motorIndex =? 0); apply W; reflexivity | ].
  split; [ destruct (motorIndex =? 0); reflexivity | ].
  split; [ destruct (motorIndex =? 0); reflexivity | ].
  split.
  { intros ->. cbn [Z.eqb coyote.intensityB]. split; [ reflexivity | ].
    rewrite (F st), F. cbn [app nth_error coyote.intensityA coyote.intensityB].
    split; reflexivity. }
  split.
  { intros N. apply Z.eqb_neq in N. rewrite N. cbn [coyote.intensityA].
    split; [ reflexivity | ].
    rewrite (F st), F. cbn [app nth_error coyote.intensityA coyote.intensityB].
    split; reflexivity. }
  cbn [Z.eqb coyote.intensityA coyote.intensityB coyote.waveformA coyote.waveformB].
  split; [ reflexivity | split; [ reflexivity | ] ].
  split.
  - rewrite F. cbn [app firstn coyote.intensityA coyote.intensityB]. reflexivity.
  - apply W; reflexivity.
Qed.

(** X6.  [buildFullCommand] changes exactly the fields that its argument
    carries: with no field it leaves [_state] as it is and returns the frame
    of the current state; calling it twice with the same argument is the same
    as calling it once; and two calls in a row leave the state of one call
    with the two arguments merged, the later one winning.  The state keeps
    the intensities as given, and the frame carries them clamped to
    [0, 200]. *)
Theorem X6_buildFullCommand_composes
        (st : coyote.State) (options options' : coyote.FullOptions) :
  coyote.buildFullCommand st (coyote.mkFullOptions None None None None) =
    (st, coyote.frameOfState st) /\
  coyote.buildFullCommand (fst (coyote.buildFullCommand st options)) options =
    coyote.buildFullCommand st options /\
  coyote.buildFullCommand (fst (coyote.buildFullCommand st options)) options' =
    coyote.buildFullCommand st (mergeFullOptions options options') /\
  snd (coyote.buildFullCommand st options) =
    coyote.frameOfState (fst (coyote.buildFullCommand st options)) /\
  (forall a, coyote.f_intensityA options = Some a ->
     coyote.intensityA (fst (coyote.buildFullCommand st options)) = a /\
     nth_error (snd (coyote.buildFullCommand st options)) 2 =
       Some (clamp 0 200 a)).
Proof.
  destruct st as [a b wa wb].
  destruct options as [oa ob owa owb], options' as [oa' ob' owa' owb'].
  split; [ reflexivity | ].
  split.
  { unfold coyote.buildFullCommand. cbn.
    destruct oa, ob, owa, owb; reflexivity. }
  split.
  { unfold coyote.buildFullCommand, mergeFullOptions. cbn.
    destruct oa, ob, owa, owb, oa', ob', owa', owb'; reflexivity. }
  split; [ reflexivity | ].
  intros x E. cbn in E. subst oa.
  split; [ reflexivity | ].
  unfold coyote.buildFullCommand. cbv zeta. cbn [snd].
  unfold coyote.frameOfState. rewrite buildB0Command_integer. reflexivity.
Qed.

(** ** The vibrator frames *)

(** [Math.round(x)] is zero exactly on [[-1/2, 1/2)]. *)
Lemma Math_round_zero (x : Q) :
  Math_round x = 0 <-> (- (1 # 2) <= x < 1 # 2)%Q.
Proof.
  pose proof (Math_round_near x) as [N1 N2]. split.
  - intros E. rewrite E in N1, N2. change (inject_Z 0) with 0%Q in N1, N2. lra.
  - intros [L H]. unfold Math_round. apply Qfloor_unique.
    + change (inject_Z 0) with 0%Q. lra.
    + change (inject_Z (0 + 1)) with 1%Q. lra.
Qed.

(** X7.  With both We-Vibe intensities in [0,1], [buildCommand] returns the
    stop frame when both levels round to 0, and otherwise a frame whose
    byte 3 holds the external level in its low nibble and the internal
    level in its high nibble, each in [0, 15]. *)
Theorem X7_wevibe_packs_two_levels (intensity intensityExt : Q) :
  (0 <= intensity <= 1)%Q -> (0 <= intensityExt <= 1)%Q ->
  let intLevel := Math_round (intensity * 15) in
  let extLevel := Math_round (intensityExt * 15) in
  0 <= intLevel <= 15 /\ 0 <= extLevel <= 15 /\
  wevibe.buildCommand intensity (Some intensityExt) =
    (if ((intLevel =? 0) && (extLevel =? 0))%bool
     then wevibe.buildStopCommand
     else [0x0f; 0x03; 0x00; extLevel + 16 * intLevel; 0x00; 0x03; 0x00; 0x00]) /\
  Z.land (extLevel + 16 * intLevel) 0x0F = extLevel /\
  Z.shiftr (extLevel + 16 * intLevel) 4 = intLevel.
Proof.
  intros Hi He intLevel extLevel.
  assert (Bi : 0 <= intLevel <= 15) by (apply (level_in_range intensity 15); [ lia | exact Hi ]).
  assert (Be : 0 <= extLevel <= 15) by (apply (level_in_range intensityExt 15); [ lia | exact He ]).
  split; [ exact Bi | split; [ exact Be | ] ].
  split.
  - unfold wevibe.buildCommand. cbv zeta.
    change (inject_Z wevibe.maxIntensity) with 15%Q.
    fold intLevel extLevel. clearbody intLevel extLevel.
    destruct ((intLevel =? 0) && (extLevel =? 0))%bool; [ reflexivity | ].
    rewrite (lor_shiftl_add extLevel intLevel 4) by (change (2 ^ 4) with 16; lia).
    change (2 ^ 4) with 16. cbn [map].
    rewrite (ToUint8_small (extLevel + intLevel * 16)) by lia.
    replace (intLevel * 16) with (16 * intLevel) by lia. reflexivity.
  - clearbody intLevel extLevel.
    change 0x0F with (2 ^ 4 - 1). rewrite land_mask by lia.
    rewrite Z.shiftr_div_pow2 by lia. change (2 ^ 4) with 16.
    split; divlia.
Qed.

(** X7 at 0.2 inside and 1.0 outside: levels 3 and 15, byte 3 is 0x3F. *)
Lemma X7_wevibe_packs_two_levels_witness :
  (0 <= 1 # 5 <= 1)%Q /\ (0 <= 1 <= 1)%Q /\
  wevibe.buildCommand (1 # 5) (Some 1%Q) =
    [0x0f; 0x03; 0x00; 0x3F; 0x00; 0x03; 0x00; 0x00] /\
  Z.land (15 + 16 * 3) 0x0F = 15.
Proof.
  assert (H1 : (0 <= 1 # 5 <= 1)%Q) by (split; discriminate).
  assert (H2 : (0 <= 1 <= 1)%Q) by (split; discriminate).
  pose proof (X7_wevibe_packs_two_levels (1 # 5) 1 H1 H2) as [_ [_ [F [L _]]]].
  split; [ exact H1 | split; [ exact H2 | split ] ].
  - exact F.
  - exact L.
Defined.

Lemma flat_map_four {A} (x : A) (start n : nat) :
  flat_map (fun _ : nat => [x; x; x; x]) (seq start n) = repeat x (4 * n).
Proof.
  revert start. induction n as [| n IH]; intros start; [ reflexivity | ].
  cbn [seq flat_map]. rewrite IH.
  replace (4 * S n)%nat with (4 + 4 * n)%nat by lia. reflexivity.
Qed.

Lemma map_repeat {A B} (f : A -> B) (x : A) (n : nat) :
  map f (repeat x n) = repeat (f x) n.
Proof. induction n as [| n IH]; cbn; [ reflexivity | rewrite IH; reflexivity ]. Qed.

(** X8.  The three protocols that send one level to several motors build a
    frame of identical bytes: Satisfyer four bytes per motor, Kiiroo and
    MysteryVibe one byte per motor; with no motor the frame is empty.  The
    byte is the level modulo 256, which is the level itself for an
    intensity in [0,1]. *)
Theorem X8_multi_motor_frames (intensity : Q) (motorCount : nat) :
  satisfyer.buildCommand intensity motorCount =
    repeat (ToUint8 (Math_round (intensity * 100))) (4 * motorCount) /\
  kiiroo.buildCommand intensity motorCount =
    repeat (ToUint8 (Math_round (intensity * 255))) motorCount /\
  mysteryvibe.buildCommand intensity motorCount =
    repeat (ToUint8 (Math_round (intensity * 255))) motorCount /\
  List.length (satisfyer.buildCommand intensity motorCount) = (4 * motorCount)%nat /\
  ((0 <= intensity <= 1)%Q ->
   ToUint8 (Math_round (intensity * 100)) = Math_round (intensity * 100) /\
   ToUint8 (Math_round (intensity * 255)) = Math_round (intensity * 255)).
Proof.
  assert (S : satisfyer.buildCommand intensity motorCount =
              repeat (ToUint8 (Math_round (intensity * 100))) (4 * motorCount)).
  { unfold satisfyer.buildCommand. cbv zeta.
    rewrite flat_map_four, map_repeat. reflexivity. }
  split; [ exact S | ].
  split; [ unfold kiiroo.buildCommand; cbv zeta; apply map_repeat | ].
  split; [ unfold mysteryvibe.buildCommand; cbv zeta; apply map_repeat | ].
  split; [ rewrite S; apply repeat_length | ].
  intros R.
  pose proof (level_in_range intensity 100 ltac:(lia) R).
  pose proof (level_in_range intensity 255 ltac:(lia) R).
  split; apply ToUint8_small.
  - change 100%Q with (inject_Z 100). lia.
  - change 255%Q with (inject_Z 255). lia.
Qed.



(* ================================================================== *)
(** * Further properties of the registry and of [connect] *)
(* ================================================================== *)

Lemma prefix_nil (s : string) : String.prefix "" s = true.
Proof. destruct s; reflexivity. Qed.

Lemma prefix_trans (a b c : string) :
  String.prefix a b = true -> String.prefix b c = true ->
  String.prefix a c = true.
Proof.
  revert b c. induction a as [| x a IH]; intros b c Hab Hbc; [ apply prefix_nil | ].
  destruct b as [| y b]; [ discriminate Hab | ].
  destruct c as [| z c]; [ discriminate Hbc | ].
  cbn in *.
  destruct (Ascii.ascii_dec x y) as [-> | ]; [ | discriminate Hab ].
  destruct (Ascii.ascii_dec y z) as [-> | ]; [ | discriminate Hbc ].
  apply (IH b c); assumption.
Qed.

Lemma prefix_toLowerCase (p s : string) :
  String.prefix p s = true ->
  String.prefix (toLowerCase p) (toLowerCase s) = true.
Proof.
  revert s. induction p as [| x p IH]; intros s H; [ apply prefix_nil | ].
  destruct s as [| y s]; [ discriminate H | ].
  cbn in *.
  destruct (Ascii.ascii_dec x y) as [-> | ]; [ | discriminate H ].
  destruct (Ascii.ascii_dec (lowerChar y) (lowerChar y)) as [_ | N];
    [ | exfalso; apply N; reflexivity ].
  apply IH. exact H.
Qed.

(** X10.  Every device name that matches a name pattern of the registry's
    Coyote entry is a Coyote for [isCoyote].  In [connect], which asks
    [isCoyote] first, a device that is not a Coyote by name can therefore be
    given the registry's Coyote protocol only through the service UUID of
    that entry. *)
Theorem X10_isCoyote_covers_registry_patterns
        (deviceName : string) (services : list Service) :
  (forall def, In def PROTOCOLS -> protocol def = Coyote ->
               nameMatches def deviceName = true ->
               isCoyote deviceName = true) /\
  (isCoyote deviceName = false ->
   detectProtocol deviceName services = Some Coyote ->
   existsb (String.eqb "0000180c-0000-1000-8000-00805f9b34fb")
           (map (fun s => toLowerCase (uuid s)) services) = true).
Proof.
  assert (N : forall def, In def PROTOCOLS -> protocol def = Coyote ->
                          nameMatches def deviceName = true ->
                          isCoyote deviceName = true).
  { intros def I P M. cbn in I.
    repeat (destruct I as [<- | I]; [ try discriminate P | ]); [ | destruct I ].
    clear P. unfold nameMatches in M. cbn [namePatterns existsb] in M.
    apply orb_true_iff in M. destruct M as [M | M].
    - (* /^D-LAB ESTIM/i *)
      unfold test in M. cbn [ignoreCase rei literal] in M. unfold startsWith in M.
      assert (P : String.prefix "d-lab" (toLowerCase deviceName) = true)
        by (eapply prefix_trans; [ | exact M ]; reflexivity).
      unfold isCoyote. destruct deviceName; [ discriminate M | ].
      unfold startsWith. rewrite P. reflexivity.
    - (* /^47L/ *)
      rewrite orb_false_r in M. unfold test in M.
      cbn [ignoreCase re literal] in M. unfold startsWith in M.
      apply prefix_toLowerCase in M.
      unfold isCoyote. destruct deviceName; [ discriminate M | ].
      unfold startsWith.
      change (toLowerCase "47L") with "47l" in M. rewrite M.
      rewrite !orb_true_r. reflexivity. }
  split; [ exact N | ].
  intros C D. unfold detectProtocol in D.
  destruct (detectLoop PROTOCOLS deviceName _) as [[how def] |] eqn:L;
    [ | discriminate D ].
  cbn in D. injection D as D.
  destruct (detectLoop_how _ _ _ _ _ L) as [I [M _]].
  apply orb_true_iff in M. destruct M as [M | M].
  - rewrite (N def I D M) in C. discriminate C.
  - cbn in I.
    repeat (destruct I as [<- | I]; [ try discriminate D | ]); [ | destruct I ].
    unfold uuidMatches in M. cbn in M. rewrite orb_false_r in M. exact M.
Qed.

(** X11.  [getProtocol(id)] returns the protocol object whose own [id] is
    [id], for each of the ten ids of the registry, and [null] for every
    other string; the V2 object, which only [connectV2] creates, cannot be
    obtained from it. *)
Theorem X11_getProtocol_by_id (id : string) :
  (forall p, getProtocol id = Some p -> protocol_id p = id /\ p <> CoyoteV2) /\
  (forall p, p <> CoyoteV2 -> getProtocol (protocol_id p) = Some p) /\
  getProtocol (protocol_id CoyoteV2) = None /\
  (getProtocol id = None <-> ~ In id (map def_id PROTOCOLS)) /\
  NoDup (map def_id PROTOCOLS) /\
  map fst listProtocols = map def_id PROTOCOLS.
Proof.
  split.
  { intros p H. unfold getProtocol in H.
    destruct (find _ PROTOCOLS) as [def |] eqn:F; [ | discriminate H ].
    cbn in H. injection H as <-.
    apply find_some in F. destruct F as [I E]. apply String.eqb_eq in E.
    subst id. cbn in I.
    repeat (destruct I as [<- | I]; [ split; [ reflexivity | discriminate ] | ]).
    destruct I. }
  split; [ intros p H; destruct p; try reflexivity; congruence | ].
  split; [ reflexivity | ].
  split.
  { unfold getProtocol. split.
    - intros H I. apply in_map_iff in I. destruct I as [def [E I]].
      destruct (find _ PROTOCOLS) as [d |] eqn:F; [ discriminate H | ].
      pose proof (find_none _ _ F def I) as K. cbn in K.
      apply String.eqb_neq in K. congruence.
    - intros H. destruct (find _ PROTOCOLS) as [d |] eqn:F; [ | reflexivity ].
      apply find_some in F. destruct F as [I E]. apply String.eqb_eq in E.
      exfalso. apply H. rewrite <- E. apply in_map. exact I. }
  split; [ | reflexivity ].
  cbn. repeat constructor; cbn; intuition discriminate.
Qed.

(** X12.  A device whose name begins with ["LVS-"] is detected as Lovense,
    whatever follows in the name and whatever services it has, provided
    none of them is the service UUID of the Satisfyer entry, which comes
    first in the registry. *)
Theorem X12_lvs_names_are_lovense (suffix : string) (services : list Service) :
  existsb (String.eqb "0000fff0-0000-1000-8000-00805f9b34fb")
          (map (fun s => toLowerCase (uuid s)) services) = false ->
  detectProtocol ("LVS-" ++ suffix) services = Some Lovense.
Proof.
  intros H. unfold detectProtocol.
  set (uuids := map (fun s => toLowerCase (uuid s)) services) in *.
  unfold PROTOCOLS. cbn [detectLoop].
  assert (N1 : nameMatches
                 (mkDef "satisfyer" [re "SF"; rei "Satisfyer"; rei "SAT"]
                    ["0000fff0-0000-1000-8000-00805f9b34fb"] Satisfyer)
                 ("LVS-" ++ suffix) = false) by reflexivity.
  rewrite N1.
  assert (U1 : uuidMatches
                 (mkDef "satisfyer" [re "SF"; rei "Satisfyer"; rei "SAT"]
                    ["0000fff0-0000-1000-8000-00805f9b34fb"] Satisfyer)
                 uuids = false).
  { unfold uuidMatches. cbn [serviceUUIDs existsb List.length Nat.ltb Nat.leb andb].
    change (toLowerCase "0000fff0-0000-1000-8000-00805f9b34fb")
      with "0000fff0-0000-1000-8000-00805f9b34fb".
    rewrite H. reflexivity. }
  rewrite U1.
  assert (N2 : forall pats uu,
             nameMatches (mkDef "lovense" (re "LVS-" :: pats) uu Lovense)
                         ("LVS-" ++ suffix) = true).
  { intros pats uu. unfold nameMatches. cbn [namePatterns existsb].
    unfold test. cbn [ignoreCase re literal]. unfold startsWith.
    cbn [append String.prefix]. 
    repeat (destruct (Ascii.ascii_dec _ _) as [_ | N];
            [ | exfalso; apply N; reflexivity ]).
    rewrite prefix_nil. reflexivity. }
  rewrite N2. reflexivity.
Qed.

(** X12 for the name ["LVS-Z001"] and a Lovense service. *)
Lemma X12_lvs_names_are_lovense_witness :
  let services := [mkService "50300001-0024-4bd4-bbd5-a6920e4c5653" None] in
  existsb (String.eqb "0000fff0-0000-1000-8000-00805f9b34fb")
          (map (fun s => toLowerCase (uuid s)) services) = false /\
  detectProtocol "LVS-Z001" services = Some Lovense.
Proof.
  intros services.
  assert (H : existsb (String.eqb "0000fff0-0000-1000-8000-00805f9b34fb")
                (map (fun s => toLowerCase (uuid s)) services) = false)
    by reflexivity.
  split; [ exact H | ].
  exact (X12_lvs_names_are_lovense "Z001" services H).
Defined.

(** ** What [connect] hands out *)

(** X13.  For a device that is not a Coyote by name, a handle returned by
    [connect] writes to the first writable characteristic of the selected
    service and never uses write-without-response by force; the protocol is
    the detected one or Lovense, never the V2 object; and every frame is
    written with a method the characteristic advertises.  The only errors
    after the retry loop are a missing service, a failed enumeration of
    characteristics, and "No writable characteristic found", the last one
    exactly when the selected service has no writable characteristic, even
    if another service has one. *)
Theorem X13_generic_handle (deviceName : string) (services : list Service) :
  isCoyote deviceName = false ->
  (forall h,
      openDevice deviceName services = inr h ->
      h_name h = deviceName /\
      h_protocol h = match detectProtocol deviceName services with
                     | Some p => p
                     | None => Lovense
                     end /\
      h_protocol h <> CoyoteV2 /\
      useWriteWithoutResponse h = false /\
      writable (writeChar h) = true /\
      (exists service chars,
          targetService services = Some service /\
          getCharacteristics service = Some chars /\
          find writable chars = Some (writeChar h)) /\
      (forall data,
          target (writeToChar h (writeChar h) data) = writeChar h /\
          payload (writeToChar h (writeChar h) data) = data /\
          match method (writeToChar h (writeChar h) data) with
          | WriteValue => write (writeChar h) = true
          | WriteValueWithoutResponse => writeWithoutResponse (writeChar h) = true
          end)) /\
  (forall e,
      openDevice deviceName services = inl e ->
      (e = "TypeError" /\ services = []) \/
      (e = "getCharacteristics rejected" /\
       exists service, targetService services = Some service /\
                       getCharacteristics service = None) \/
      (e = "No writable characteristic found" /\
       exists service chars,
         targetService services = Some service /\
         getCharacteristics service = Some chars /\
         forall c, In c chars -> writable c = false)).
Proof.
  intros C. unfold openDevice. rewrite C.
  assert (V2 : match detectProtocol deviceName services with
               | Some p => p
               | None => Lovense
               end <> CoyoteV2).
  { unfold detectProtocol.
    destruct (detectLoop PROTOCOLS deviceName _) as [[how def] |] eqn:L;
      [ | discriminate ].
    destruct (detectLoop_how _ _ _ _ _ L) as [I _]. cbn [option_map snd].
    cbn in I. repeat (destruct I as [<- | I]; [ discriminate | ]). destruct I. }
  destruct (targetService services) as [service |] eqn:T.
  2:{ split; [ intros h H; discriminate H | ].
      intros e H. injection H as <-. left. split; [ reflexivity | ].
      unfold targetService in T.
      destruct (find _ services); [ discriminate T | ].
      destruct services; [ reflexivity | discriminate T ]. }
  destruct (getCharacteristics service) as [chars |] eqn:G.
  2:{ split; [ intros h H; discriminate H | ].
      intros e H. injection H as <-. right. left.
      split; [ reflexivity | ]. exists service. split; [ reflexivity | exact G ]. }
  destruct (find writable chars) as [c |] eqn:F.
  - split; [ | intros e H; discriminate H ].
    intros h H. injection H as <-. cbn [h_name h_protocol useWriteWithoutResponse writeChar].
    pose proof (find_some _ _ F) as [Ic Wc].
    repeat (split; [ first [ reflexivity | exact V2 | exact Wc ] | ]).
    split.
    + exists service, chars. repeat split; assumption.
    + intros data. unfold writeToChar. cbn [useWriteWithoutResponse orb].
      unfold writable in Wc.
      destruct (write c) eqn:W; cbn [negb target payload method].
      * repeat split.
      * repeat split. exact Wc.
  - split; [ intros h H; discriminate H | ].
    intros e H. injection H as <-. right. right.
    split; [ reflexivity | ]. exists service, chars.
    repeat split; try assumption. apply (find_none _ _ F).
Qed.

(** X13 for an unknown device with a write-without-response characteristic. *)
Lemma X13_generic_handle_witness :
  let char := mkChar "0000aaa1-0000-1000-8000-00805f9b34fb" false true in
  let services :=
    [mkService "00001800-0000-1000-8000-00805f9b34fb" (Some []);
     mkService "0000aaa0-0000-1000-8000-00805f9b34fb" (Some [char])] in
  let h := mkHandle "Unknown-01" Lovense char None None false in
  isCoyote "Unknown-01" = false /\
  openDevice "Unknown-01" services = inr h /\
  writable (writeChar h) = true /\
  method (writeToChar h (writeChar h) [1]) = WriteValueWithoutResponse.
Proof.
  intros char services h.
  destruct (X13_generic_handle "Unknown-01" services eq_refl) as [A _].
  destruct (A h eq_refl) as (_ & _ & _ & _ & W & _ & M).
  split; [ reflexivity | ]. split; [ reflexivity | ].
  split; [ exact W | ]. reflexivity.
Defined.

(** A writable characteristic in a second service is not looked at. *)
Example writable_in_another_service :
  let services :=
    [mkService "0000aaa0-0000-1000-8000-00805f9b34fb"
       (Some [mkChar "0000aaa1-0000-1000-8000-00805f9b34fb" false false]);
     mkService "0000bbb0-0000-1000-8000-00805f9b34fb"
       (Some [mkChar "0000bbb1-0000-1000-8000-00805f9b34fb" true false])] in
  openDevice "Unknown-01" services = inl "No writable characteristic found".
Proof. reflexivity. Qed.

(** The power characteristic kept by the scan of [connectV2] has the power
    UUID. *)
Lemma scanV2_power (allServices : list Service) (c : Characteristic) :
  fst (fst (scanV2 allServices)) = Some c -> c_uuid c = COYOTE_V2_POWER.
Proof.
  unfold scanV2.
  set (P := fun acc : option Characteristic * option Characteristic *
                      option Characteristic =>
              forall c, fst (fst acc) = Some c -> c_uuid c = COYOTE_V2_POWER).
  assert (Inner : forall chars acc, P acc ->
             P (fold_left
                  (fun '(powerChar, waveAChar, waveBChar) c =>
                     (if String.eqb (c_uuid c) COYOTE_V2_POWER then Some c else powerChar,
                      if String.eqb (c_uuid c) COYOTE_V2_WAVE_A then Some c else waveAChar,
                      if String.eqb (c_uuid c) COYOTE_V2_WAVE_B then Some c else waveBChar))
                  chars acc)).
  { induction chars as [| x chars IH]; intros acc Hacc; [ exact Hacc | ].
    cbn [fold_left]. apply IH. destruct acc as [[p a] b]. unfold P in *.
    cbn [fst]. intros c0 H0.
    destruct (String.eqb (c_uuid x) COYOTE_V2_POWER) eqn:E.
    - injection H0 as <-. apply String.eqb_eq. exact E.
    - apply Hacc. exact H0. }
  assert (Outer : forall svcs acc, P acc ->
             P (fold_left
                  (fun acc svc =>
                     match getCharacteristics svc with
                     | None => acc
                     | Some chars =>
                         fold_left
                           (fun '(powerChar, waveAChar, waveBChar) c =>
                              (if String.eqb (c_uuid c) COYOTE_V2_POWER then Some c else powerChar,
                               if String.eqb (c_uuid c) COYOTE_V2_WAVE_A then Some c else waveAChar,
                               if String.eqb (c_uuid c) COYOTE_V2_WAVE_B then Some c else waveBChar))
                           chars acc
                     end) svcs acc)).
  { induction svcs as [| s svcs IH]; intros acc Hacc; [ exact Hacc | ].
    cbn [fold_left]. apply IH.
    destruct (getCharacteristics s); [ apply Inner; exact Hacc | exact Hacc ]. }
  intros H. revert c H. apply Outer. intros c0 H0. discriminate H0.
Qed.

(** X14.  For a device that is a Coyote by name the registry is not
    consulted.  A returned handle is either the V3 one (protocol [coyote],
    the characteristic 150a of the first service with the V3 control UUID,
    written with [writeValue] when that characteristic has the [write]
    property and with [writeValueWithoutResponse] when it has not) or the
    V2 one (protocol [coyote-v2], a characteristic with the power UUID, no
    V3 control service present, every write made with
    [writeValueWithoutResponse] whatever the characteristic advertises).
    V3 is chosen whenever its service is there, also next to V2 services;
    with none of the three services the error is "No known Coyote service
    found". *)
Theorem X14_coyote_handle (deviceName : string) (services : list Service) :
  isCoyote deviceName = true ->
  let hasV3 := existsb (fun s => String.eqb (uuid s) COYOTE_V3_CONTROL_SERVICE) services in
  let hasV2 := existsb (fun s => (String.eqb (uuid s) COYOTE_V2_SERVICE_B ||
                                  String.eqb (uuid s) COYOTE_V2_SERVICE_A)%bool) services in
  (forall h,
      openDevice deviceName services = inr h ->
      (hasV3 = true /\ h_protocol h = Coyote /\
       useWriteWithoutResponse h = false /\
       c_uuid (writeChar h) = COYOTE_V3_WRITE_CHAR /\
       hasSendCommand (h_protocol h) = false /\
       (exists v3 chars,
           find (fun s => String.eqb (uuid s) COYOTE_V3_CONTROL_SERVICE)
                services = Some v3 /\
           getCharacteristics v3 = Some chars /\
           find (fun c => String.eqb (c_uuid c) COYOTE_V3_WRITE_CHAR) chars =
             Some (writeChar h)) /\
       (forall data,
           writeToChar h (writeChar h) data =
           mkBleWrite (writeChar h)
             (if write (writeChar h) then WriteValue
              else WriteValueWithoutResponse)
             data)) \/
      (hasV3 = false /\ hasV2 = true /\ h_protocol h = CoyoteV2 /\
       useWriteWithoutResponse h = true /\
       c_uuid (writeChar h) = COYOTE_V2_POWER /\
       hasSendCommand (h_protocol h) = true /\
       (forall char data,
           writeToChar h char data =
           mkBleWrite char WriteValueWithoutResponse data))) /\
  (hasV3 = false -> hasV2 = false ->
   openDevice deviceName services =
   inl "No known Coyote service found. Check console for available services.").
Proof.
  intros C hasV3 hasV2. unfold openDevice, connectCoyote. rewrite C.
  destruct (find (fun s => String.eqb (uuid s) COYOTE_V3_CONTROL_SERVICE) services)
    as [v3 |] eqn:F3.
  - assert (H3 : hasV3 = true).
    { unfold hasV3. apply existsb_exists. exists v3. apply (find_some _ _ F3). }
    split; [ | intros N; rewrite H3 in N; discriminate N ].
    intros h H. left. split; [ exact H3 | ].
    unfold connectV3 in H.
    destruct (getCharacteristics v3) as [chars |] eqn:G; [ | discriminate H ].
    destruct (find _ chars) as [c |] eqn:Fc; [ | discriminate H ].
    injection H as <-.
    cbn [h_protocol useWriteWithoutResponse writeChar l_protocol l_writeChar
         l_version hasSendCommand].
    pose proof (find_some _ _ Fc) as [_ E]. apply String.eqb_eq in E.
    split; [ reflexivity | ]. split; [ reflexivity | ].
    split; [ exact E | ]. split; [ reflexivity | ].
    split; [ exists v3, chars; repeat split; assumption | ].
    intros data. unfold writeToChar.
    cbn [useWriteWithoutResponse writeChar orb].
    destruct (write c); reflexivity.
  - assert (H3 : hasV3 = false).
    { unfold hasV3. destruct (existsb _ services) eqn:X; [ | reflexivity ].
      apply existsb_exists in X. destruct X as [s [I E]].
      rewrite (find_none _ _ F3 s I) in E. discriminate E. }
    fold hasV2. destruct hasV2 eqn:H2.
    + split; [ | intros _ N; discriminate N ].
      intros h H. right. unfold connectV2 in H.
      destruct (scanV2 services) as [[p a] b] eqn:S.
      destruct p as [powerChar |]; [ | discriminate H ].
      injection H as <-.
      cbn [h_protocol useWriteWithoutResponse writeChar l_protocol l_writeChar
           l_version hasSendCommand].
      pose proof (scanV2_power services powerChar) as K.
      rewrite S in K.
      split; [ exact H3 | ]. split; [ reflexivity | ].
      split; [ reflexivity | ]. split; [ reflexivity | ].
      split; [ apply K; reflexivity | ]. split; [ reflexivity | ].
      intros char data. unfold writeToChar.
      cbn [useWriteWithoutResponse orb]. reflexivity.
    + split; [ intros h H; discriminate H | reflexivity ].
Qed.

(** X14 for a V3 device whose characteristic 150a has only the
    write-without-response property: the handle is the V3 one and its
    frames go out with [writeValueWithoutResponse]. *)
Lemma X14_coyote_handle_witness :
  let char := mkChar COYOTE_V3_WRITE_CHAR false true in
  let services := [mkService COYOTE_V3_CONTROL_SERVICE (Some [char])] in
  let h := mkHandle "47L121000" Coyote char None None false in
  isCoyote "47L121000" = true /\
  openDevice "47L121000" services = inr h /\
  c_uuid (writeChar h) = COYOTE_V3_WRITE_CHAR /\
  writeToChar h (writeChar h) [1] =
    mkBleWrite char WriteValueWithoutResponse [1].
Proof.
  intros char services h.
  destruct (X14_coyote_handle "47L121000" services eq_refl) as [A _].
  split; [ reflexivity | ]. split; [ reflexivity | ].
  destruct (A h eq_refl)
    as [(_ & _ & _ & U & _ & _ & W) | (E & _)];
    [ | discriminate E ].
  split; [ exact U | exact (W [1]) ].
Defined.

(** ** The methods of the handle *)

Lemma handle_send_fields (h : Handle) (s : handle.State) (intensity : Q) :
  handle._keepaliveTimer (fst (handle.send h s intensity)) = handle._keepaliveTimer s /\
  _active (handle.manager (fst (handle.send h s intensity))) = _active (handle.manager s) /\
  _lastIntensity (handle.manager (fst (handle.send h s intensity))) = intensity /\
  exists cmd,
    _lastCommand (handle.manager (fst (handle.send h s intensity))) = Some cmd /\
    cmd = snd (buildCommand (h_protocol h) (handle.proto s) intensity) /\
    snd (handle.send h s intensity) =
      if hasSendCommand (h_protocol h)
      then [handle.SendCommandCalled intensity]
      else [handle.Wrote (writeToChar h (writeChar h) cmd)].
Proof.
  unfold handle.send, send.
  destruct (buildCommand (h_protocol h) (handle.proto s) intensity) as [st' cmd].
  destruct (hasSendCommand (h_protocol h)); cbn;
    repeat split; exists cmd; repeat split.
Qed.

(** X15.  [stop()] leaves the handle inactive with the keepalive timer
    cleared, no last command and last intensity 0, whatever the state was.
    It makes exactly one call on the device layer: [stopCommand()] for the
    V2 object, and otherwise one write of the protocol's stop frame to the
    write characteristic; that call is the same from every state, so a
    second [stop()] repeats it.  A timer callback that would still run
    after [stop()] sends nothing. *)
Theorem X15_handle_stop (h : Handle) (s : handle.State) :
  let s' := fst (handle.stop h s) in
  handle.isActive s' = false /\
  handle._keepaliveTimer s' = false /\
  handle.manager s' = mkManager false None 0 /\
  snd (handle.stop h s) =
    (if handle.hasStopCommand (h_protocol h)
     then [handle.StopCommandCalled]
     else [handle.Wrote
             (writeToChar h (writeChar h)
                (snd (buildStopCommand (h_protocol h) protoState0)))]) /\
  (forall s2, snd (handle.stop h s2) = snd (handle.stop h s)) /\
  handle.manager (fst (handle.stop h s')) = handle.manager s' /\
  handle.tick h s' = [] /\
  (forall intensity, handle.tick h (fst (handle.send h s' intensity)) = []).
Proof.
  assert (F : forall s0 : handle.State,
             snd (handle.stop h s0) =
             (if handle.hasStopCommand (h_protocol h)
              then [handle.StopCommandCalled]
              else [handle.Wrote
                      (writeToChar h (writeChar h)
                         (snd (buildStopCommand (h_protocol h) protoState0)))])).
  { intros s0. unfold handle.stop.
    destruct (h_protocol h); cbn; reflexivity. }
  assert (M : forall s0 : handle.State,
             handle.manager (fst (handle.stop h s0)) = mkManager false None 0 /\
             handle._keepaliveTimer (fst (handle.stop h s0)) = false).
  { intros s0. unfold handle.stop.
    destruct (handle.hasStopCommand (h_protocol h)); [ split; reflexivity | ].
    destruct (buildStopCommand (h_protocol h)
                (handle.proto (handle.stopKeepalive s0))).
    split; reflexivity. }
  intros s'. destruct (M s) as [Ms Ts]. fold s' in Ms, Ts.
  split; [ unfold handle.isActive; rewrite Ms; reflexivity | ].
  split; [ exact Ts | ]. split; [ exact Ms | ]. split; [ apply F | ].
  split; [ intros s2; rewrite !F; reflexivity | ].
  split; [ rewrite Ms; apply M | ].
  split; [ unfold handle.tick; rewrite Ts; reflexivity | ].
  intros intensity. unfold handle.tick.
  destruct (handle_send_fields h s' intensity) as (T & _). rewrite T, Ts.
  reflexivity.
Qed.

(** X16.  [activate(intensity)] marks the handle active and sends the
    intensity.  For a protocol with a keepalive interval the timer is armed
    from then on, and every timer callback repeats exactly the device call
    that [activate] made: the same frame to the same characteristic with
    the same write method, or [sendCommand] with the same intensity for the
    V2 object.  For a protocol without one the timer is left as it was.
    [send] alone never arms the timer, and never changes the active flag;
    when the timer is armed and the handle active, the callback after a
    [send] repeats the call of that [send]. *)
Theorem X16_keepalive_repeats_last_command
        (h : Handle) (s : handle.State) (intensity : Q) :
  let s' := fst (handle.activate h s intensity) in
  let sent := snd (handle.activate h s intensity) in
  handle.isActive s' = true /\
  _lastIntensity (handle.manager s') = intensity /\
  List.length sent = 1%nat /\
  handle._keepaliveTimer s' =
    (handle.hasKeepalive (h_protocol h) || handle._keepaliveTimer s)%bool /\
  handle.tick h s' = (if handle._keepaliveTimer s' then sent else []) /\
  (let s1 := fst (handle.send h s intensity) in
   handle._keepaliveTimer s1 = handle._keepaliveTimer s /\
   handle.isActive s1 = handle.isActive s /\
   handle.tick h s1 =
     if (handle._keepaliveTimer s && handle.isActive s)%bool
     then snd (handle.send h s intensity) else []).
Proof.
  intros s' sent.
  assert (K : forall s0 : handle.State,
             handle.tick h (fst (handle.send h s0 intensity)) =
             if (handle._keepaliveTimer s0 && handle.isActive s0)%bool
             then snd (handle.send h s0 intensity) else []).
  { intros s0. unfold handle.tick, handle.isActive.
    destruct (handle_send_fields h s0 intensity) as (T & A & _ & cmd & C & _ & W).
    rewrite T, A, C, W.
    destruct (handle._keepaliveTimer s0), (_active (handle.manager s0)),
      (hasSendCommand (h_protocol h)); cbn [andb]; try reflexivity.
    destruct (handle_send_fields h s0 intensity) as (_ & _ & I & _).
    rewrite I. reflexivity. }
  unfold s', sent, handle.activate. cbv zeta.
  set (s1 := handle.startKeepalive h _).
  assert (A1 : handle.isActive s1 = true).
  { unfold s1, handle.startKeepalive, handle.isActive.
    destruct (_ && _)%bool; reflexivity. }
  assert (T1 : handle._keepaliveTimer s1 =
               (handle.hasKeepalive (h_protocol h) || handle._keepaliveTimer s)%bool).
  { unfold s1, handle.startKeepalive. cbn [handle._keepaliveTimer].
    destruct (handle.hasKeepalive (h_protocol h)), (handle._keepaliveTimer s);
      reflexivity. }
  destruct (handle_send_fields h s1 intensity) as (T & A & I & cmd & C & _ & W).
  split; [ unfold handle.isActive in *; rewrite A; exact A1 | ].
  split; [ exact I | ].
  split; [ rewrite W; destruct (hasSendCommand _); reflexivity | ].
  split; [ rewrite T; exact T1 | ].
  split.
  - rewrite K, T, A1, andb_true_r. reflexivity.
  - destruct (handle_send_fields h s intensity) as (T' & A' & _).
    split; [ exact T' | ]. split; [ exact A' | ]. apply K.
Qed.

Lemma handle_call_invariant (h : Handle) (s : handle.State) (c : handle.Call) :
  (handle._keepaliveTimer s = true ->
   handle.isActive s = true /\ handle.hasKeepalive (h_protocol h) = true /\
   _lastCommand (handle.manager s) <> None) ->
  handle._keepaliveTimer (fst (handle.call h s c)) = true ->
  handle.isActive (fst (handle.call h s c)) = true /\
  handle.hasKeepalive (h_protocol h) = true /\
  _lastCommand (handle.manager (fst (handle.call h s c))) <> None.
Proof.
  intros Inv.
  assert (Act : forall i,
             handle._keepaliveTimer (fst (handle.activate h s i)) = true ->
             handle.isActive (fst (handle.activate h s i)) = true /\
             handle.hasKeepalive (h_protocol h) = true /\
             _lastCommand (handle.manager (fst (handle.activate h s i))) <> None).
  { intros i. unfold handle.activate. cbv zeta.
    set (s1 := handle.startKeepalive h _).
    destruct (handle_send_fields h s1 i) as (T & A & _ & cmd & C & _).
    unfold handle.isActive. rewrite T, A, C. intros H1.
    assert (A1 : _active (handle.manager s1) = true).
    { unfold s1, handle.startKeepalive. destruct (_ && _)%bool; reflexivity. }
    split; [ exact A1 | ]. split; [ | discriminate ].
    revert H1. unfold s1, handle.startKeepalive. cbn [handle._keepaliveTimer].
    destruct (handle.hasKeepalive (h_protocol h)); [ reflexivity | ].
    cbn [andb]. cbn [handle._keepaliveTimer]. intros H1.
    apply Inv in H1. destruct H1 as (_ & H1 & _). discriminate H1. }
  destruct c as [i | [i |] | | ]; cbn [handle.call].
  - destruct (handle_send_fields h s i) as (T & A & _ & cmd & C & _).
    unfold handle.isActive in *. rewrite T, A, C. intros H1.
    destruct (Inv H1) as (A0 & K0 & _).
    split; [ exact A0 | ]. split; [ exact K0 | discriminate ].
  - apply Act.
  - apply Act.
  - intros H1. exfalso. revert H1. unfold handle.stop.
    destruct (handle.hasStopCommand (h_protocol h)); [ discriminate | ].
    destruct (buildStopCommand _ _). discriminate.
  - discriminate.
Qed.

(** X17.  In every sequence of calls on a fresh handle, the keepalive timer
    is armed only for a protocol with a keepalive interval and only while
    the handle is active with a command to repeat, so an armed timer never
    fires in vain: its callback makes exactly one device call.  A handle
    whose protocol has no keepalive interval never arms it, and its callback
    never writes.  After [stop()] or [disconnect()] the timer is cleared
    until the next [activate]. *)
Theorem X17_keepalive_timer_invariant
        (h : Handle) (st : ProtoState) (cs : list handle.Call) :
  let s := handle.calls h (handle.initial st) cs in
  (handle._keepaliveTimer s = true ->
   handle.isActive s = true /\
   handle.hasKeepalive (h_protocol h) = true /\
   exists a, handle.tick h s = [a]) /\
  (handle._keepaliveTimer s = false -> handle.tick h s = []) /\
  (handle.hasKeepalive (h_protocol h) = false ->
   handle._keepaliveTimer s = false) /\
  handle._keepaliveTimer (fst (handle.call h s handle.CallStop)) = false /\
  handle._keepaliveTimer (fst (handle.call h s handle.CallDisconnect)) = false /\
  (forall intensity,
      handle._keepaliveTimer (fst (handle.call h s (handle.CallSend intensity))) =
      handle._keepaliveTimer s).
Proof.
  intros s.
  assert (Inv : handle._keepaliveTimer s = true ->
                handle.isActive s = true /\
                handle.hasKeepalive (h_protocol h) = true /\
                _lastCommand (handle.manager s) <> None).
  { unfold s. generalize (handle.initial st),
      (fun T : handle._keepaliveTimer (handle.initial st) = true =>
         False_ind (handle.isActive (handle.initial st) = true /\
                    handle.hasKeepalive (h_protocol h) = true /\
                    _lastCommand (handle.manager (handle.initial st)) <> None)
                   (Bool.diff_false_true T)).
    induction cs as [| c cs IH]; intros s0 H0; [ exact H0 | ].
    apply (IH (fst (handle.call h s0 c))).
    apply handle_call_invariant. exact H0. }
  split.
  - intros T. destruct (Inv T) as (A & K & L).
    split; [ exact A | ]. split; [ exact K | ].
    unfold handle.tick. unfold handle.isActive in A. rewrite T, A.
    destruct (hasSendCommand (h_protocol h)); [ eexists; reflexivity | ].
    destruct (_lastCommand (handle.manager s)); [ eexists; reflexivity | ].
    contradiction L. reflexivity.
  - split; [ intros T; unfold handle.tick; rewrite T; reflexivity | ].
    split.
    + intros K. destruct (handle._keepaliveTimer s) eqn:T; [ | reflexivity ].
      destruct (Inv eq_refl) as (_ & K' & _). congruence.
    + split.
      * cbn [handle.call]. unfold handle.stop.
        destruct (handle.hasStopCommand (h_protocol h)); [ reflexivity | ].
        destruct (buildStopCommand _ _). reflexivity.
      * split; [ reflexivity | ].
        intros intensity. cbn [handle.call].
        apply (handle_send_fields h s intensity).
Qed.

(** ** The V2 gate outside the send path *)

Section GateExtras.

Variables (waveAChar waveBChar : bool).

Local Abbreviation step := (V2Gate.step waveAChar waveBChar).
Local Abbreviation run := (V2Gate.run waveAChar waveBChar).
Local Abbreviation sendCommand := (V2Gate.sendCommand waveAChar waveBChar).

Lemma sendCommand_disconnected (s : V2Gate.State) (intensity : Q) :
  coyote_v2.connected (V2Gate.v2State s) = false ->
  sendCommand s intensity = s.
Proof. intros H. unfold V2Gate.sendCommand. rewrite H. reflexivity. Qed.

Lemma sendCommand_connected (s : V2Gate.State) (intensity : Q) :
  coyote_v2.connected (V2Gate.v2State (sendCommand s intensity)) =
  coyote_v2.connected (V2Gate.v2State s).
Proof.
  unfold V2Gate.sendCommand.
  destruct (coyote_v2.connected (V2Gate.v2State s)) eqn:C; cbn [negb];
    [ | exact C ].
  destruct (V2Gate.v2Sending s); [ exact C | ].
  destruct waveAChar; [ reflexivity | ]. destruct waveBChar; reflexivity.
Qed.

Lemma sendFinally_stays_disconnected (s : V2Gate.State) :
  coyote_v2.connected (V2Gate.v2State s) = false ->
  coyote_v2.connected
    (V2Gate.v2State (V2Gate.sendFinally waveAChar waveBChar s)) = false.
Proof.
  intros C. unfold V2Gate.sendFinally. cbn [V2Gate.v2Pending].
  destruct (V2Gate.v2Pending s); [ | exact C ].
  rewrite sendCommand_connected. exact C.
Qed.

Lemma step_stays_disconnected (s : V2Gate.State) (e : V2Gate.Event) :
  coyote_v2.connected (V2Gate.v2State s) = false ->
  coyote_v2.connected (V2Gate.v2State (step s e)) = false.
Proof.
  intros C. destruct e as [intensity | | | k r |]; cbn [V2Gate.step].
  - rewrite sendCommand_connected. exact C.
  - destruct (V2Gate.v2Sending s); exact C.
  - destruct (V2Gate.stopWaiting s); [ exact C | ].
    destruct (V2Gate.v2Sending s); exact C.
  - destruct (nth_error (V2Gate.inflight s) k) as [t |]; [ | exact C ].
    destruct t as [level target |], r as [| d].
    + destruct target; cbn [V2Gate.resume].
      * destruct waveBChar; exact C.
      * exact C.
      * apply sendFinally_stays_disconnected. exact C.
    + assert (V2Gate.resume waveAChar waveBChar
                (V2Gate.mkState (V2Gate.v2State s) (V2Gate.v2Sending s)
                   (V2Gate.v2Pending s) (V2Gate.removeNth k (V2Gate.inflight s))
                   (V2Gate.transmitted s) (V2Gate.stopWaiting s))
                (V2Gate.SendTask level target) (V2Gate.Rejected d) =
              V2Gate.sendFinally waveAChar waveBChar
                (V2Gate.sendCatch
                   (V2Gate.mkState (V2Gate.v2State s) (V2Gate.v2Sending s)
                      (V2Gate.v2Pending s) (V2Gate.removeNth k (V2Gate.inflight s))
                      (V2Gate.transmitted s) (V2Gate.stopWaiting s)) d)) as ->
        by (destruct target; reflexivity).
      apply sendFinally_stays_disconnected. destruct d; [ reflexivity | exact C ].
    + exact C.
    + exact C.
  - reflexivity.
Qed.

Lemma run_stays_disconnected (evs : list V2Gate.Event) (s : V2Gate.State) :
  coyote_v2.connected (V2Gate.v2State s) = false ->
  coyote_v2.connected (V2Gate.v2State (run s evs)) = false.
Proof.
  revert s. induction evs as [| e evs IH]; intros s C; [ exact C | ].
  apply IH. apply step_stays_disconnected. exact C.
Qed.

Lemma run_disconnected_idle (evs : list V2Gate.Event) (s : V2Gate.State) :
  coyote_v2.connected (V2Gate.v2State s) = false ->
  V2Gate.inflight s = [] ->
  (forall e, In e evs -> e <> V2Gate.StopCommand /\ e <> V2Gate.StopPoll) ->
  run s evs = s.
Proof.
  intros C I. induction evs as [| e evs IH]; intros N; [ reflexivity | ].
  assert (E : step s e = s).
  { destruct (N e (or_introl eq_refl)) as [N1 N2].
    destruct e as [intensity | | | k r |]; cbn [V2Gate.step].
    - apply sendCommand_disconnected. exact C.
    - contradiction N1. reflexivity.
    - contradiction N2. reflexivity.
    - rewrite I. destruct k; reflexivity.
    - destruct s as [[a b itv conn] sending pending infl trans waiting].
      gate_fields in C. subst conn. reflexivity. }
  change (run s (e :: evs)) with (run (step s e) evs). rewrite E.
  apply IH. intros e' H. apply N. right. exact H.
Qed.

End GateExtras.

(** X18.  The V2 gate never marks the device as connected again: once
    [v2State.connected] is false it stays false in every interleaving of
    calls, polls, settled writes and disconnection events.  From then on
    [sendCommand] returns at once without touching the state, so an idle
    gate transmits nothing more however many sends arrive.  A write of
    [sendCommand] that is rejected with a message mentioning 'disconnected'
    has that effect, and the pending intensity is taken out of the slot and
    never written.  [stopCommand] does not test the flag: on an idle
    disconnected gate it still issues the power write for (0, 0). *)
Theorem X18_disconnection_is_final (waveAChar waveBChar : bool) :
  (forall evs evs',
      coyote_v2.connected
        (V2Gate.v2State (V2Gate.run waveAChar waveBChar V2Gate.initial evs)) = false ->
      coyote_v2.connected
        (V2Gate.v2State
           (V2Gate.run waveAChar waveBChar V2Gate.initial (evs ++ evs'))) = false) /\
  (forall s intensity,
      coyote_v2.connected (V2Gate.v2State s) = false ->
      V2Gate.sendCommand waveAChar waveBChar s intensity = s) /\
  (forall s evs,
      coyote_v2.connected (V2Gate.v2State s) = false ->
      V2Gate.inflight s = [] ->
      (forall e, In e evs -> e <> V2Gate.StopCommand /\ e <> V2Gate.StopPoll) ->
      V2Gate.run waveAChar waveBChar s evs = s) /\
  (forall s level target pending,
      V2Gate.inflight s = [V2Gate.SendTask level target] ->
      V2Gate.v2Pending s = Some pending ->
      let s' := V2Gate.step waveAChar waveBChar s
                  (V2Gate.Settle 0 (V2Gate.Rejected true)) in
      coyote_v2.connected (V2Gate.v2State s') = false /\
      V2Gate.v2Sending s' = false /\ V2Gate.v2Pending s' = None /\
      V2Gate.inflight s' = [] /\
      V2Gate.transmitted s' = V2Gate.transmitted s) /\
  (forall s,
      coyote_v2.connected (V2Gate.v2State s) = false ->
      V2Gate.v2Sending s = false ->
      let s' := V2Gate.step waveAChar waveBChar s V2Gate.StopCommand in
      V2Gate.inflight s' = V2Gate.inflight s ++ [V2Gate.StopTask] /\
      V2Gate.taskPayload V2Gate.StopTask = encodeV2Power 0 0 /\
      V2Gate.v2Sending s' = true).
Proof.
  split.
  { intros evs evs' C. rewrite run_app. apply run_stays_disconnected. exact C. }
  split; [ apply sendCommand_disconnected | ].
  split; [ intros s evs; apply run_disconnected_idle | ].
  split.
  - intros s level target pending I P s'. unfold s'. cbn [V2Gate.step].
    rewrite I. cbn [nth_error V2Gate.removeNth].
    destruct s as [[a b itv conn] sending pend infl trans waiting].
    gate_fields in I. gate_fields in P. subst pend. gate_fields.
    destruct target; cbn; repeat split.
  - intros s C S s'. unfold s'. cbn [V2Gate.step]. rewrite S.
    repeat split.
Qed.

(** X19.  [stopCommand]'s [finally] block reopens the gate without looking
    at the pending slot.  From an idle connected gate: a [sendCommand(i)]
    that arrives while the stop write is outstanding is stored, and when the
    stop write resolves the gate is idle with [i] still in the slot and only
    the level 0 transmitted.  The next [sendCommand(j)] is written first and
    the stored [i] after it, so the last level transmitted is that of the
    older request. *)
Theorem X19_stop_strands_pending
        (waveAChar waveBChar : bool) (s : V2Gate.State) (i j : Q) :
  V2Gate.v2Sending s = false ->
  V2Gate.inflight s = [] ->
  coyote_v2.connected (V2Gate.v2State s) = true ->
  let n := writesPerSend waveAChar waveBChar in
  let s1 := V2Gate.run waveAChar waveBChar s
              [V2Gate.StopCommand; V2Gate.SendCommand i;
               V2Gate.Settle 0 V2Gate.Resolved] in
  let s2 := V2Gate.run waveAChar waveBChar s1
              (V2Gate.SendCommand j ::
               repeat (V2Gate.Settle 0 V2Gate.Resolved) (2 * n)) in
  (V2Gate.v2Sending s1 = false /\ V2Gate.inflight s1 = [] /\
   V2Gate.v2Pending s1 = Some i /\
   V2Gate.transmitted s1 = V2Gate.transmitted s ++ [0]) /\
  (V2Gate.v2Sending s2 = false /\ V2Gate.inflight s2 = [] /\
   V2Gate.v2Pending s2 = None /\
   V2Gate.transmitted s2 =
     V2Gate.transmitted s ++ [0; V2Gate.levelOf j; V2Gate.levelOf i] /\
   V2Gate.latest (V2Gate.transmitted s2) = Some (V2Gate.levelOf i)).
Proof.
  intros S I C n s1 s2.
  destruct s as [[a b itv conn] sending pend infl trans waiting].
  gate_fields in S. gate_fields in I. gate_fields in C. subst sending infl conn.
  unfold s2, s1, n, writesPerSend, V2Gate.levelOf.
  destruct waveAChar, waveBChar;
    cbn -[Math_round Qmult V2Gate.latest];
    rewrite <- !app_assoc; cbn [app];
    (split; [ repeat split | ]);
    repeat (split; [ reflexivity | ]);
    change (trans ++ [0; Math_round (j * 1024); Math_round (i * 1024)])
      with (trans ++ [0; Math_round (j * 1024)] ++ [Math_round (i * 1024)]);
    rewrite app_assoc; apply latest_snoc.
Qed.

(** X19 on a fresh gate with both waveform characteristics: 0.3 stored
    during the stop, then 0.8 requested; the level of 0.3 goes out last. *)
Lemma X19_stop_strands_pending_witness :
  let s1 := V2Gate.run true true V2Gate.initial
              [V2Gate.StopCommand; V2Gate.SendCommand (3 # 10);
               V2Gate.Settle 0 V2Gate.Resolved] in
  let s2 := V2Gate.run true true s1
              (V2Gate.SendCommand (8 # 10) ::
               repeat (V2Gate.Settle 0 V2Gate.Resolved)
                      (2 * writesPerSend true true)) in
  V2Gate.v2Sending V2Gate.initial = false /\
  V2Gate.inflight V2Gate.initial = [] /\
  coyote_v2.connected (V2Gate.v2State V2Gate.initial) = true /\
  V2Gate.v2Pending s1 = Some (3 # 10) /\
  V2Gate.transmitted s2 =
    V2Gate.transmitted V2Gate.initial ++
    [0; V2Gate.levelOf (8 # 10); V2Gate.levelOf (3 # 10)] /\
  V2Gate.latest (V2Gate.transmitted s2) = Some (V2Gate.levelOf (3 # 10)).
Proof.
  intros s1 s2.
  pose proof (X19_stop_strands_pending true true V2Gate.initial (3 # 10) (8 # 10)
                eq_refl eq_refl eq_refl) as W.
  cbv zeta in W. fold s1 in W. fold s2 in W.
  destruct W as ((_ & _ & P & _) & _ & _ & _ & T & L).
  split; [ reflexivity | ]. split; [ reflexivity | ]. split; [ reflexivity | ].
  split; [ exact P | ]. split; [ exact T | exact L ].
Defined.

(** ** The session value engine

    As everywhere in this development the numbers are exact rationals: the
    bounds below are those of the formulas, before any rounding of the
    floating-point operations. *)

(** Every arc keeps its range inside [0, 1]. *)
Lemma arcFn_unit (arcName : string) (t : Q) :
  (0 <= t <= 1)%Q ->
  (0 <= config.min (config.arcFn arcName t))%Q /\
  (config.min (config.arcFn arcName t) <= config.max (config.arcFn arcName t))%Q /\
  (config.max (config.arcFn arcName t) <= 1)%Q.
Proof.
  intros [T0 T1]. unfold config.arcFn.
  destruct (find _ config.SESSION_ARCS) as [[name arc] |] eqn:F.
  2:{ cbn. repeat split; discriminate. }
  apply find_some in F. destruct F as [I _]. cbn [snd]. cbn in I.
  repeat (destruct I as [I | I];
          [ injection I as _ <-; cbn [config.min config.max];
            try (repeat split; lra) | ]);
    try destruct I.
  - destruct (Q.max_spec 0 (t - (1 - t * (4 # 5)) / 2)) as [[M1 E1] | [M1 E1]];
      destruct (Q.min_spec 1 (t + (1 - t * (4 # 5)) / 2)) as [[M2 E2] | [M2 E2]];
      rewrite E1, E2;
      change ((1 - t * (4 # 5)) / 2)%Q with ((1 - t * (4 # 5)) * (1 # 2))%Q in *;
      repeat split; lra.
  - destruct (Q.max_spec 0 (1 - t - (1 - t * (4 # 5)) / 2)) as [[M1 E1] | [M1 E1]];
      destruct (Q.min_spec 1 (1 - t + (1 - t * (4 # 5)) / 2)) as [[M2 E2] | [M2 E2]];
      rewrite E1, E2;
      change ((1 - t * (4 # 5)) / 2)%Q with ((1 - t * (4 # 5)) * (1 # 2))%Q in *;
      repeat split; lra.
Qed.

(** A point of the segment from [lo] to [hi]. *)
Lemma affine_bounds (lo hi a : Q) :
  (lo <= hi)%Q -> (0 <= a)%Q -> (a <= 1)%Q ->
  (lo <= lo + a * (hi - lo) <= hi)%Q.
Proof.
  intros H A0 A1.
  assert (P : (0 <= a * (hi - lo))%Q) by (apply Qmult_le_0_compat; lra).
  assert (R : (0 <= (1 - a) * (hi - lo))%Q) by (apply Qmult_le_0_compat; lra).
  split; lra.
Qed.

Lemma affine_mono (lo hi a b : Q) :
  (lo <= hi)%Q -> (a <= b)%Q ->
  (lo + (hi - lo) * a <= lo + (hi - lo) * b)%Q.
Proof.
  intros H AB.
  assert (P : (0 <= (hi - lo) * (b - a))%Q) by (apply Qmult_le_0_compat; lra).
  lra.
Qed.

Lemma applySessionArc_bounds (arcName : string) (lo hi t : Q) :
  (lo <= hi)%Q -> (0 <= t <= 1)%Q ->
  (lo <= config.min (config.applySessionArc arcName lo hi t))%Q /\
  (config.min (config.applySessionArc arcName lo hi t) <=
   config.max (config.applySessionArc arcName lo hi t))%Q /\
  (config.max (config.applySessionArc arcName lo hi t) <= hi)%Q.
Proof.
  intros H T. destruct (arcFn_unit arcName t T) as (A & B & C).
  unfold config.applySessionArc. cbn [config.min config.max].
  set (n := config.arcFn arcName t) in *.
  pose proof (affine_bounds lo hi (config.min n) H A ltac:(lra)) as [L1 _].
  pose proof (affine_bounds lo hi (config.max n) H ltac:(lra) C) as [_ L2].
  pose proof (affine_mono lo hi (config.min n) (config.max n) H B) as L3.
  repeat split; lra.
Qed.

(** Every entry of every pattern lies in [0, 1], and no pattern is empty. *)
Lemma patternOf_unit (patternName : string) (x : Q) :
  In x (engine.patternOf patternName) -> (0 <= x <= 1)%Q.
Proof.
  assert (T : forallb (fun entry : string * list Q =>
                         forallb (fun x => (Qle_bool 0 x && Qle_bool x 1)%bool)
                                 (snd entry)) engine.PATTERNS = true)
    by reflexivity.
  unfold engine.patternOf.
  destruct (find _ engine.PATTERNS) as [entry |] eqn:F.
  - apply find_some in F. destruct F as [I _].
    rewrite forallb_forall in T. specialize (T entry I).
    rewrite forallb_forall in T. intros Hx. specialize (T x Hx).
    apply andb_true_iff in T. destruct T as [A B].
    split; apply Qle_bool_iff; assumption.
  - intros [<- | []]. split; discriminate.
Qed.

Lemma patternOf_nonempty (patternName : string) :
  (0 < List.length (engine.patternOf patternName))%nat.
Proof.
  assert (T : forallb (fun entry : string * list Q =>
                         (0 <? List.length (snd entry))%nat) engine.PATTERNS = true)
    by reflexivity.
  unfold engine.patternOf.
  destruct (find _ engine.PATTERNS) as [entry |] eqn:F; [ | cbn; lia ].
  apply find_some in F. destruct F as [I _].
  rewrite forallb_forall in T. specialize (T entry I).
  apply Nat.ltb_lt. exact T.
Qed.

(** The entry read by [getPatternValue] at a non-negative index. *)
Lemma pattern_entry (patternName : string) (index : Z) :
  0 <= index ->
  let pattern := engine.patternOf patternName in
  let k := Z.rem index (Z.of_nat (List.length pattern)) in
  exists x,
    (if k <? 0 then None else nth_error pattern (Z.to_nat k)) = Some x /\
    In x pattern.
Proof.
  intros H pattern k.
  pose proof (patternOf_nonempty patternName) as N. fold pattern in N.
  assert (K : 0 <= k < Z.of_nat (List.length pattern))
    by (unfold k; apply Z.rem_bound_pos; lia).
  destruct (k <? 0) eqn:E; [ apply Z.ltb_lt in E; lia | ].
  destruct (nth_error pattern (Z.to_nat k)) as [x |] eqn:X.
  - exists x. split; [ reflexivity | ]. apply (nth_error_In _ _ X).
  - apply nth_error_None in X. lia.
Qed.

(** X20.  For [random] and for every key of [PATTERNS], at a non-negative
    index and for a range [lo <= hi], [getPatternValue] returns a number,
    never [NaN], and that number lies in [lo, hi].  A named pattern repeats
    with the period that [getPatternLength] reports; [constant] gives [hi]
    at every index; [random] stays strictly below [hi] when the range is
    not a point. *)
Theorem X20_pattern_value_in_range
        (r : Q) (patternName : string) (index : Z) (lo hi : Q) :
  engine.knownPattern patternName = true ->
  0 <= index -> (lo <= hi)%Q -> (0 <= r < 1)%Q ->
  (exists v,
      engine.getPatternValue r patternName index lo hi = Some v /\
      (lo <= v <= hi)%Q /\
      (patternName = "constant" -> v == hi)%Q /\
      (patternName = "random" -> lo < hi -> v < hi)%Q) /\
  0 < engine.getPatternLength patternName /\
  (patternName <> "random" ->
   forall r',
     engine.getPatternValue r' patternName
       (index + engine.getPatternLength patternName) lo hi =
     engine.getPatternValue r patternName index lo hi).
Proof.
  intros _ I H [R0 R1].
  pose proof (patternOf_nonempty patternName) as N.
  unfold engine.getPatternValue, engine.getPatternLength.
  destruct (String.eqb patternName "random") eqn:E.
  - apply String.eqb_eq in E. subst patternName.
    split; [ | split; [ lia | intros C; contradiction C; reflexivity ] ].
    eexists. split; [ reflexivity | ].
    split; [ apply affine_bounds; lra | ].
    split; [ discriminate | ].
    intros _ L.
    assert (P : (0 < (1 - r) * (hi - lo))%Q) by (apply Qmult_lt_0_compat; lra).
    lra.
  - apply String.eqb_neq in E. cbv zeta.
    destruct (pattern_entry patternName index I) as [x [X Ix]].
    cbv zeta in X. rewrite X.
    destruct (patternOf_unit patternName x Ix) as [X0 X1].
    assert (Hn : 0 < Z.of_nat (List.length (engine.patternOf patternName))) by lia.
    split; [ | split; [ lia | ] ].
    + eexists. split; [ reflexivity | ].
      split; [ apply affine_bounds; assumption | ].
      split; [ | intros C; contradiction (E C) ].
      intros ->. cbn in Ix. destruct Ix as [<- | []]. ring.
    + intros _ r'.
      replace (Z.rem (index + Z.of_nat (List.length (engine.patternOf patternName)))
                     (Z.of_nat (List.length (engine.patternOf patternName))))
        with (Z.rem index (Z.of_nat (List.length (engine.patternOf patternName)))).
      * rewrite X. reflexivity.
      * generalize dependent (Z.of_nat (List.length (engine.patternOf patternName))).
        intros n _ Hn. rewrite !Z.rem_mod_nonneg by lia.
        replace (index + n) with (index + 1 * n) by ring.
        rewrite Z.mod_add by lia. reflexivity.
Qed.

(** X20 for [wave] at index 10, in the range 0.1 to 0.7: entry 3 of 7, the
    value 0.7. *)
Lemma X20_pattern_value_in_range_witness :
  engine.knownPattern "wave" = true /\
  engine.getPatternValue (1 # 2) "wave" 10 (1 # 10) (7 # 10) =
    Some ((1 # 10) + 1 * ((7 # 10) - (1 # 10)))%Q /\
  engine.getPatternLength "wave" = 7 /\
  engine.getPatternValue (1 # 2) "wave" 17 (1 # 10) (7 # 10) =
  engine.getPatternValue (1 # 2) "wave" 10 (1 # 10) (7 # 10).
Proof.
  assert (I : 0 <= 10) by lia.
  assert (H : ((1 # 10) <= (7 # 10))%Q) by discriminate.
  assert (R : (0 <= 1 # 2 < 1)%Q) by (split; [ discriminate | reflexivity ]).
  destruct (X20_pattern_value_in_range (1 # 2) "wave" 10 (1 # 10) (7 # 10)
              eq_refl I H R) as (_ & _ & P).
  split; [ reflexivity | ]. split; [ reflexivity | ]. split; [ reflexivity | ].
  apply (P ltac:(discriminate) (1 # 2)).
Defined.

(** X21.  For an arc of [SESSION_ARCS], a configured range [lo <= hi] and a
    progress in [0, 1], the effective range of [applySessionArc] is a
    sub-range of the configured one: [lo <= min <= max <= hi].  With the
    arc [constant] it is the configured range itself. *)
Theorem X21_effective_range_within_configured
        (arcName : string) (lo hi t : Q) :
  engine.knownArc arcName = true ->
  (lo <= hi)%Q -> (0 <= t <= 1)%Q ->
  let range := config.applySessionArc arcName lo hi t in
  (lo <= config.min range)%Q /\
  (config.min range <= config.max range)%Q /\
  (config.max range <= hi)%Q /\
  (arcName = "constant" ->
   config.min range == lo /\ config.max range == hi)%Q.
Proof.
  intros _ H T range.
  destruct (applySessionArc_bounds arcName lo hi t H T) as (A & B & C).
  repeat (split; [ assumption | ]).
  intros ->. unfold range, config.applySessionArc. cbn. split; ring.
Qed.

(** X21 for the default intensity settings a quarter into the session:
    [close_up] on [0.1, 0.7] gives [0.25, 0.7]. *)
Lemma X21_effective_range_within_configured_witness :
  let range := config.applySessionArc "close_up" (1 # 10) (7 # 10) (1 # 4) in
  engine.knownArc "close_up" = true /\
  (config.min range == 1 # 4)%Q /\ (config.max range == 7 # 10)%Q /\
  ((1 # 10) <= config.min range)%Q /\ (config.max range <= 7 # 10)%Q.
Proof.
  intros range.
  assert (H : ((1 # 10) <= (7 # 10))%Q) by discriminate.
  assert (T : (0 <= 1 # 4 <= 1)%Q) by (split; discriminate).
  destruct (X21_effective_range_within_configured "close_up" (1 # 10) (7 # 10)
              (1 # 4) eq_refl H T) as (A & _ & C & _).
  split; [ reflexivity | ]. split; [ reflexivity | ]. split; [ reflexivity | ].
  split; [ exact A | exact C ].
Defined.

(** The clamp of [getSessionProgress]. *)
Lemma clamp01_spec (q : Q) :
  (0 <= Qmin 1 (Qmax 0 q) <= 1)%Q /\
  (1 <= Qmin 1 (Qmax 0 q) <-> 1 <= q)%Q /\
  (q <= 0 -> Qmin 1 (Qmax 0 q) == 0)%Q /\
  (forall q', q <= q' -> Qmin 1 (Qmax 0 q) <= Qmin 1 (Qmax 0 q'))%Q.
Proof.
  pose proof (Q.max_spec 0 q) as M. pose proof (Q.min_spec 1 (Qmax 0 q)) as N.
  split; [ split; destruct M as [[? ?] | [? ?]], N as [[? ?] | [? ?]]; lra | ].
  split; [ split; intros ?; destruct M as [[? ?] | [? ?]], N as [[? ?] | [? ?]]; lra | ].
  split; [ intros ?; destruct M as [[? ?] | [? ?]], N as [[? ?] | [? ?]]; lra | ].
  intros q' L.
  pose proof (Q.max_spec 0 q') as M'. pose proof (Q.min_spec 1 (Qmax 0 q')) as N'.
  destruct M as [[? ?] | [? ?]], N as [[? ?] | [? ?]],
    M' as [[? ?] | [? ?]], N' as [[? ?] | [? ?]]; lra.
Qed.

Lemma quotient_order (x y d : Q) :
  (0 < d)%Q ->
  ((x <= y -> x / d <= y / d) /\ (1 <= x / d <-> d <= x) /\
   (x <= 0 -> x / d <= 0))%Q.
Proof.
  intros D.
  assert (I : (0 < / d)%Q) by (apply Qinv_lt_0_compat; exact D).
  assert (N : ~ (d == 0)%Q) by lra.
  pose proof (Qmult_div_r x d N) as Ex.
  unfold Qdiv in *.
  split; [ | split ].
  - intros L. apply Qmult_le_compat_r; lra.
  - split; intros L.
    + assert (P : (0 <= d * (x * / d - 1))%Q) by (apply Qmult_le_0_compat; lra).
      lra.
    + assert (P : (0 <= (x - d) * / d)%Q) by (apply Qmult_le_0_compat; lra).
      assert (Q1 : (d * / d == 1)%Q) by (apply Qmult_inv_r; exact N).
      lra.
  - intros L.
    assert (P : (0 <= (0 - x) * / d)%Q) by (apply Qmult_le_0_compat; lra).
    lra.
Qed.

(** X22.  [getSessionProgress] returns [NaN] only for a session of duration
    0 read at its start time; every number it returns lies in [0, 1].  For
    a positive duration the progress is 0 up to the start time, never
    decreases as the clock advances, and [isSessionComplete] holds exactly
    when the elapsed time has reached the duration.  [createSession] stores
    the duration in milliseconds, so a session of [sessionDuration] seconds
    is complete exactly from [1000 * sessionDuration] ms after its start. *)
Theorem X22_session_progress (now : Z) (session : engine.Session) :
  (forall progress,
      engine.getSessionProgress now session = Some progress ->
      (0 <= progress <= 1)%Q) /\
  (engine.getSessionProgress now session = None <->
   (engine.duration session == 0)%Q /\ now = engine.startTime session) /\
  ((0 < engine.duration session)%Q ->
   (engine.isSessionComplete now session = true <->
    (engine.duration session <= inject_Z (now - engine.startTime session))%Q) /\
   (now <= engine.startTime session ->
    exists progress,
      engine.getSessionProgress now session = Some progress /\
      (progress == 0)%Q) /\
   (forall later, now <= later ->
      exists progress progress',
        engine.getSessionProgress now session = Some progress /\
        engine.getSessionProgress later session = Some progress' /\
        (progress <= progress')%Q)) /\
  (forall settings start dI dD dR,
      (0 < engine.sessionDuration settings)%Q ->
      engine.isSessionComplete now
        (engine.createSession settings start dI dD dR) = true <->
      (engine.sessionDuration settings * 1000 <= inject_Z (now - start))%Q).
Proof.
  assert (Pos : forall (s : engine.Session) (t : Z),
             (0 < engine.duration s)%Q ->
             engine.getSessionProgress t s =
             Some (Qmin 1 (Qmax 0 (inject_Z (t - engine.startTime s) /
                                   engine.duration s)))).
  { intros s t D. unfold engine.getSessionProgress.
    destruct (Qeq_bool (engine.duration s) 0) eqn:E; [ | reflexivity ].
    apply Qeq_bool_iff in E. lra. }
  assert (Done : forall (s : engine.Session) (t : Z),
             (0 < engine.duration s)%Q ->
             engine.isSessionComplete t s = true <->
             (engine.duration s <= inject_Z (t - engine.startTime s))%Q).
  { intros s t D. unfold engine.isSessionComplete. rewrite (Pos s t D).
    rewrite Qle_bool_iff.
    destruct (clamp01_spec (inject_Z (t - engine.startTime s) / engine.duration s))
      as (_ & C & _).
    destruct (quotient_order (inject_Z (t - engine.startTime s)) 0
                (engine.duration s) D) as (_ & Q1 & _).
    rewrite C. exact Q1. }
  split; [ | split; [ | split ] ].
  - intros progress. unfold engine.getSessionProgress.
    destruct (Qeq_bool (engine.duration session) 0).
    + destruct (0 <? now - engine.startTime session);
        [ intros [= <-]; split; discriminate | ].
      destruct (now - engine.startTime session <? 0);
        [ intros [= <-]; split; discriminate | discriminate ].
    + intros [= <-]. apply clamp01_spec.
  - unfold engine.getSessionProgress.
    destruct (Qeq_bool (engine.duration session) 0) eqn:E.
    + apply Qeq_bool_iff in E.
      destruct (0 <? now - engine.startTime session) eqn:A.
      { apply Z.ltb_lt in A. split; [ discriminate | intros [_ H]; lia ]. }
      destruct (now - engine.startTime session <? 0) eqn:B.
      { apply Z.ltb_lt in B. split; [ discriminate | intros [_ H]; lia ]. }
      apply Z.ltb_ge in A, B. split; [ | reflexivity ].
      intros _. split; [ exact E | lia ].
    + split; [ discriminate | ]. intros [H _].
      apply Qeq_bool_iff in H. congruence.
  - intros D. split; [ apply Done; exact D | ]. split.
    + intros L. eexists. split; [ apply Pos; exact D | ].
      destruct (clamp01_spec (inject_Z (now - engine.startTime session) /
                              engine.duration session)) as (_ & _ & Z0 & _).
      apply Z0.
      destruct (quotient_order (inject_Z (now - engine.startTime session)) 0
                  (engine.duration session) D) as (_ & _ & Q0).
      apply Q0. change 0%Q with (inject_Z 0). rewrite <- Zle_Qle. lia.
    + intros later L. eexists. eexists.
      split; [ apply Pos; exact D | ]. split; [ apply Pos; exact D | ].
      destruct (clamp01_spec (inject_Z (now - engine.startTime session) /
                              engine.duration session)) as (_ & _ & _ & Mono).
      apply Mono.
      destruct (quotient_order (inject_Z (now - engine.startTime session))
                  (inject_Z (later - engine.startTime session))
                  (engine.duration session) D) as (Q0 & _).
      apply Q0. rewrite <- Zle_Qle. lia.
  - intros settings start dI dD dR D.
    rewrite Done; cbn [engine.createSession engine.duration engine.startTime].
    + reflexivity.
    + lra.
Qed.

(** One call of [advanceCategory] on a state whose current pattern is one of
    its patterns. *)
Lemma advanceCategory_step (c : config.CategoryState)
      (sw : config.SwitchSettings) (r1 : Q) (r2 : PrimFloat.float) :
  (0 <= r1 < 1)%Q ->
  In (config.currentPattern c) (config.patterns c) ->
  0 <= config.index c ->
  let c' := config.advanceCategory c sw r1 r2 in
  config.patterns c' = config.patterns c /\
  In (config.currentPattern c') (config.patterns c) /\
  0 <= config.index c' <= config.index c + 1 /\
  ((List.length (config.patterns c) <= 1)%nat ->
   config.currentPattern c' = config.currentPattern c /\
   config.index c' = config.index c + 1 /\
   config.instancesRemaining c' = config.instancesRemaining c - 1).
Proof.
  intros R I X c'. unfold c', config.advanceCategory. cbv zeta.
  destruct ((config.instancesRemaining c - 1 <=? 0) &&
            (1 <? List.length (config.patterns c))%nat)%bool eqn:E.
  - apply andb_true_iff in E. destruct E as [_ E]. apply Nat.ltb_lt in E.
    cbn [config.patterns config.currentPattern config.index
         config.instancesRemaining].
    split; [ reflexivity | ]. split; [ | split; [ lia | intros L; lia ] ].
    set (others := filter _ (config.patterns c)).
    destruct (0 <? List.length others)%nat eqn:O.
    + assert (N : others <> []).
      { apply Nat.ltb_lt in O. destruct others; [ cbn in O; lia | discriminate ]. }
      destruct (pickRandom_member r1 others R N) as [x [-> Ix]].
      apply filter_In in Ix. apply Ix.
    + assert (N : config.patterns c <> []).
      { destruct (config.patterns c); [ cbn in E; lia | discriminate ]. }
      destruct (pickRandom_member r1 (config.patterns c) R N) as [x [-> Ix]].
      exact Ix.
  - cbn [config.patterns config.currentPattern config.index
         config.instancesRemaining].
    repeat split; try assumption; lia.
Qed.

Lemma advanceCategory_run (sw : config.SwitchSettings) (ds : list engine.Draw) :
  forall c0 : config.CategoryState,
    Forall (fun d => engine.unitDraw (engine.pick d)) ds ->
    In (config.currentPattern c0) (config.patterns c0) ->
    0 <= config.index c0 ->
    let c := fold_left
               (fun c d => config.advanceCategory c sw (engine.pick d)
                                                  (engine.instances d))
               ds c0 in
    config.patterns c = config.patterns c0 /\
    In (config.currentPattern c) (config.patterns c0) /\
    0 <= config.index c <= config.index c0 + Z.of_nat (List.length ds) /\
    ((List.length (config.patterns c0) <= 1)%nat ->
     config.currentPattern c = config.currentPattern c0 /\
     config.index c = config.index c0 + Z.of_nat (List.length ds) /\
     config.instancesRemaining c =
       config.instancesRemaining c0 - Z.of_nat (List.length ds)).
Proof.
  induction ds as [| d ds IH]; intros c0 F I X.
  - cbn. repeat split; try assumption; lia.
  - inversion F as [| ? ? Fd Fds]; subst.
    destruct (advanceCategory_step c0 sw (engine.pick d) (engine.instances d)
                Fd I X) as (P & M & B & S).
    cbn [fold_left].
    set (c1 := config.advanceCategory c0 sw (engine.pick d) (engine.instances d)) in *.
    assert (I1 : In (config.currentPattern c1) (config.patterns c1))
      by (rewrite P; exact M).
    destruct (IH c1 Fds I1 ltac:(lia)) as (P' & M' & B' & S').
    cbv zeta in *. rewrite P in *.
    split; [ exact P' | ]. split; [ exact M' | ].
    split; [ cbn [List.length]; lia | ].
    intros L. destruct (S L) as (S1 & S2 & S3).
    destruct (S' L) as (S1' & S2' & S3').
    cbn [List.length]. repeat split; [ congruence | lia | lia ].
Qed.

Lemma createCategoryState_start (patterns : list string)
      (sw : config.SwitchSettings) (d : engine.Draw) :
  engine.unitDraw (engine.pick d) ->
  let selected := if (0 <? List.length patterns)%nat then patterns
                  else ["constant"] in
  let c := engine.createCategoryState patterns sw d in
  config.patterns c = selected /\ In (config.currentPattern c) selected /\
  config.index c = 0.
Proof.
  intros R selected c. unfold c, engine.createCategoryState. cbv zeta.
  fold selected. cbn [config.patterns config.currentPattern config.index].
  assert (N : selected <> []).
  { unfold selected. destruct patterns; cbn; discriminate. }
  destruct (pickRandom_member (engine.pick d) selected R N) as [x [-> Ix]].
  repeat split. exact Ix.
Qed.

(** X23.  A category state keeps, through its creation and any number of
    [advanceCategory] calls with draws in [0, 1): the pattern list chosen at
    creation (the configured one, or [constant] alone when none is
    configured), a current pattern that is one of that list, and an index
    that is never negative and counts at most the calls made.  With a single
    pattern the state never switches: the pattern stays, the index counts
    every call and [instancesRemaining] decreases without bound. *)
Theorem X23_category_state_invariant
        (patterns : list string) (sw : config.SwitchSettings)
        (d0 : engine.Draw) (ds : list engine.Draw) :
  engine.unitDraw (engine.pick d0) ->
  Forall (fun d => engine.unitDraw (engine.pick d)) ds ->
  let selected := if (0 <? List.length patterns)%nat then patterns
                  else ["constant"] in
  let c0 := engine.createCategoryState patterns sw d0 in
  let c := fold_left
             (fun c d => config.advanceCategory c sw (engine.pick d)
                                                (engine.instances d))
             ds c0 in
  config.patterns c = selected /\
  In (config.currentPattern c) selected /\
  0 <= config.index c <= Z.of_nat (List.length ds) /\
  ((List.length selected <= 1)%nat ->
   config.currentPattern c = config.currentPattern c0 /\
   config.index c = Z.of_nat (List.length ds) /\
   config.instancesRemaining c =
     config.instancesRemaining c0 - Z.of_nat (List.length ds)) /\
  (patterns = [] -> config.currentPattern c = "constant").
Proof.
  intros R0 F selected c0 c.
  destruct (createCategoryState_start patterns sw d0 R0) as (P0 & M0 & X0).
  fold selected c0 in P0, M0, X0.
  assert (I0 : In (config.currentPattern c0) (config.patterns c0))
    by (rewrite P0; exact M0).
  destruct (advanceCategory_run sw ds c0 F I0 ltac:(lia)) as (P & M & B & S).
  fold c in P, M, B, S. rewrite P0 in P, M, S. rewrite X0 in B, S.
  split; [ exact P | ]. split; [ exact M | ]. split; [ lia | ].
  split; [ intros L; destruct (S L) as (S1 & S2 & S3); repeat split; assumption || lia | ].
  intros ->. cbn in selected. unfold selected in M.
  destruct M as [<- | []]. reflexivity.
Qed.

(** X23 on the default intensity patterns with the window [2, 2]: the state
    created on [surge] switches at the second call. *)
Lemma X23_category_state_invariant_witness :
  let d := engine.mkDraw (1 # 2) (Number 1 (-1)) in
  let c0 := engine.createCategoryState ["climb"; "surge"; "wave"]
              (config.mkSwitch 2 2) d in
  let c := fold_left
             (fun c d => config.advanceCategory c (config.mkSwitch 2 2)
                           (engine.pick d) (engine.instances d))
             [d; d; d] c0 in
  engine.unitDraw (engine.pick d) /\
  config.currentPattern c0 = "surge" /\
  config.currentPattern c = "wave" /\ config.index c = 1 /\
  In (config.currentPattern c) ["climb"; "surge"; "wave"] /\
  0 <= config.index c <= 3.
Proof.
  intros d c0 c.
  assert (R : engine.unitDraw (engine.pick d))
    by (split; [ discriminate | reflexivity ]).
  assert (F : Forall (fun d => engine.unitDraw (engine.pick d)) [d; d; d])
    by (repeat constructor; discriminate).
  destruct (X23_category_state_invariant ["climb"; "surge"; "wave"]
              (config.mkSwitch 2 2) d [d; d; d] R F) as (_ & M & B & _).
  split; [ exact R | ]. split; [ reflexivity | ]. split; [ reflexivity | ].
  split; [ reflexivity | ]. split; [ exact M | exact B ].
Defined.

Lemma getPatternValue_within (r : Q) (patternName : string) (index : Z)
      (lo hi : Q) :
  0 <= index -> (lo <= hi)%Q -> (0 <= r < 1)%Q ->
  engine.within lo hi (engine.getPatternValue r patternName index lo hi).
Proof.
  intros I H [R0 R1]. unfold engine.getPatternValue.
  destruct (String.eqb patternName "random").
  - cbn. apply affine_bounds; lra.
  - cbv zeta. destruct (pattern_entry patternName index I) as [x [X Ix]].
    cbv zeta in X. rewrite X. cbn.
    destruct (patternOf_unit patternName x Ix) as [X0 X1].
    apply affine_bounds; assumption.
Qed.

Lemma within_wider (lo hi lo' hi' : Q) (v : option Q) :
  (lo <= lo')%Q -> (hi' <= hi)%Q ->
  engine.within lo' hi' v -> engine.within lo hi v.
Proof. destruct v as [x |]; cbn; [ intros; lra | tauto ]. Qed.

Lemma progress_defined (now : Z) (session : engine.Session) :
  (0 < engine.duration session)%Q ->
  exists progress,
    engine.getSessionProgress now session = Some progress /\
    (0 <= progress <= 1)%Q.
Proof.
  intros D. unfold engine.getSessionProgress.
  destruct (Qeq_bool (engine.duration session) 0) eqn:E.
  - apply Qeq_bool_iff in E. lra.
  - eexists. split; [ reflexivity | ]. apply clamp01_spec.
Qed.

(** The value [getNextValues] computes for one category. *)
Lemma category_value_within (arcName : string) (lo hi progress r : Q)
      (state : config.CategoryState) :
  (lo <= hi)%Q -> (0 <= progress <= 1)%Q -> (0 <= r < 1)%Q ->
  0 <= config.index state ->
  let range := config.applySessionArc arcName lo hi progress in
  engine.within lo hi
    (engine.getPatternValue r (config.currentPattern state)
       (config.index state) (config.min range) (config.max range)).
Proof.
  intros H P R X range.
  destruct (applySessionArc_bounds arcName lo hi progress H P) as (A & B & C).
  fold range in A, B, C.
  apply (within_wider _ _ (config.min range) (config.max range)); try assumption.
  apply getPatternValue_within; assumption.
Qed.

(** What every session reached from [createSession] satisfies. *)
Lemma getNextValues_step (settings : engine.Settings)
      (session : engine.Session) (now : Z) (d : engine.Draws) :
  (engine.c_min (engine.s_intensity settings) <=
   engine.c_max (engine.s_intensity settings))%Q ->
  (engine.c_min (engine.s_delay settings) <=
   engine.c_max (engine.s_delay settings))%Q ->
  (engine.c_min (engine.s_reward settings) <=
   engine.c_max (engine.s_reward settings))%Q ->
  (0 < engine.duration session)%Q ->
  engine.unitDraws d ->
  0 <= config.index (engine.intensity session) ->
  0 <= config.index (engine.delay session) ->
  0 <= config.index (engine.reward session) ->
  exists values session',
    engine.getNextValues settings session now d = Some (values, session') /\
    engine.within (engine.c_min (engine.s_intensity settings))
                  (engine.c_max (engine.s_intensity settings))
                  (engine.v_intensity values) /\
    engine.within (engine.c_min (engine.s_delay settings) * 1000)
                  (engine.c_max (engine.s_delay settings) * 1000)
                  (engine.v_delay values) /\
    engine.within (engine.c_min (engine.s_reward settings) * 1000)
                  (engine.c_max (engine.s_reward settings) * 1000)
                  (engine.v_reward values) /\
    (0 <= engine.v_progress values <= 1)%Q /\
    engine.getSessionProgress now session = Some (engine.v_progress values) /\
    session' =
      {| engine.intensity :=
           config.advanceCategory (engine.intensity session)
             (engine.patternSwitch settings)
             (engine.pick (engine.advanceI d)) (engine.instances (engine.advanceI d));
         engine.delay :=
           config.advanceCategory (engine.delay session)
             (engine.patternSwitch settings)
             (engine.pick (engine.advanceD d)) (engine.instances (engine.advanceD d));
         engine.reward :=
           config.advanceCategory (engine.reward session)
             (engine.patternSwitch settings)
             (engine.pick (engine.advanceR d)) (engine.instances (engine.advanceR d));
         engine.step := engine.step session + 1;
         engine.startTime := engine.startTime session;
         engine.duration := engine.duration session |}.
Proof.
  intros HI HD HR D (RI & RD & RR & _) XI XD XR.
  destruct (progress_defined now session D) as [progress [P B]].
  unfold engine.getNextValues. rewrite P. cbv zeta.
  eexists. eexists. split; [ reflexivity | ].
  cbn [engine.v_intensity engine.v_delay engine.v_reward engine.v_progress].
  split; [ apply category_value_within; assumption | ].
  split; [ apply category_value_within; try assumption;
           apply Qmult_le_compat_r; [ assumption | discriminate ] | ].
  split; [ apply category_value_within; try assumption;
           apply Qmult_le_compat_r; [ assumption | discriminate ] | ].
  split; [ exact B | ]. split; reflexivity.
Qed.

(** Induction along a played session: a property of sessions that every
    call re-establishes holds at the end, and what it gives for one call
    holds for every returned object. *)
Lemma play_invariant (settings : engine.Settings)
      (Inv : engine.Session -> Prop) (Good : engine.Values -> Prop)
      (Ok : engine.Draws -> Prop) :
  (forall session now d,
      Inv session -> Ok d ->
      exists values session',
        engine.getNextValues settings session now d = Some (values, session') /\
        Good values /\ Inv session' /\
        engine.step session' = engine.step session + 1) ->
  forall calls session,
    Inv session -> Forall (fun c => Ok (snd c)) calls ->
    exists values final,
      engine.play settings session calls = Some (values, final) /\
      List.length values = List.length calls /\
      Forall Good values /\ Inv final /\
      engine.step final = engine.step session + Z.of_nat (List.length calls).
Proof.
  intros Step. induction calls as [| [now d] calls IH]; intros session I F.
  - exists [], session. cbn. repeat split; try assumption; [ constructor | lia ].
  - inversion F as [| ? ? Fd Fc]; subst. cbn [snd] in Fd.
    destruct (Step session now d I Fd) as (v & s' & E & G & I' & S').
    destruct (IH s' I' Fc) as (vs & final & E' & L & G' & If & Sf).
    exists (v :: vs), final. cbn [engine.play]. rewrite E, E'.
    split; [ reflexivity | ]. split; [ cbn; lia | ].
    split; [ constructor; assumption | ]. split; [ exact If | ].
    cbn [List.length]. lia.
Qed.

(** The selection list of a well-formed category holds known names only. *)
Lemma selected_known (patterns : list string) (p : string) :
  forallb engine.knownPattern patterns = true ->
  In p (if (0 <? List.length patterns)%nat then patterns else ["constant"]) ->
  engine.knownPattern p = true.
Proof.
  intros K. destruct patterns as [| a l]; cbn [List.length Nat.ltb Nat.leb].
  - intros [<- | []]. reflexivity.
  - intros I. rewrite forallb_forall in K. apply K. exact I.
Qed.

(** X24.  A session created from settings with a positive duration, known
    pattern and arc names and non-empty ranges, and played with draws in
    [0, 1) at arbitrary clock readings: every call of [getNextValues]
    returns numbers, never [NaN]; the intensity lies in the configured
    intensity range, the delay and the reward in the configured ranges
    converted to milliseconds, the progress in [0, 1]; [step] counts the
    calls; and each category is left on a known pattern of its selection
    list at a non-negative index. *)
Theorem X24_session_values_within_settings
        (settings : engine.Settings) (start : Z)
        (dI dD dR : engine.Draw) (calls : list (Z * engine.Draws)) :
  engine.wellFormed (engine.s_intensity settings) ->
  engine.wellFormed (engine.s_delay settings) ->
  engine.wellFormed (engine.s_reward settings) ->
  (0 < engine.sessionDuration settings)%Q ->
  engine.unitDraw (engine.pick dI) ->
  engine.unitDraw (engine.pick dD) ->
  engine.unitDraw (engine.pick dR) ->
  Forall (fun c => engine.unitDraws (snd c)) calls ->
  exists values final,
    engine.play settings (engine.createSession settings start dI dD dR) calls =
      Some (values, final) /\
    List.length values = List.length calls /\
    engine.step final = Z.of_nat (List.length calls) /\
    Forall
      (fun v =>
         engine.within (engine.c_min (engine.s_intensity settings))
                       (engine.c_max (engine.s_intensity settings))
                       (engine.v_intensity v) /\
         engine.within (engine.c_min (engine.s_delay settings) * 1000)
                       (engine.c_max (engine.s_delay settings) * 1000)
                       (engine.v_delay v) /\
         engine.within (engine.c_min (engine.s_reward settings) * 1000)
                       (engine.c_max (engine.s_reward settings) * 1000)
                       (engine.v_reward v) /\
         (0 <= engine.v_progress v <= 1)%Q)
      values /\
    Forall
      (fun c : config.CategoryState =>
         engine.knownPattern (config.currentPattern c) = true /\
         In (config.currentPattern c) (config.patterns c) /\
         0 <= config.index c)
      [engine.intensity final; engine.delay final; engine.reward final].
Proof.
  intros (KI & _ & HI) (KD & _ & HD) (KR & _ & HR) D RI RD RR F.
  set (CatOk := fun (cfg : engine.Category) (c : config.CategoryState) =>
                  config.patterns c =
                    (if (0 <? List.length (engine.c_patterns cfg))%nat
                     then engine.c_patterns cfg else ["constant"]) /\
                  In (config.currentPattern c) (config.patterns c) /\
                  0 <= config.index c).
  set (Inv := fun s : engine.Session =>
                (0 < engine.duration s)%Q /\
                CatOk (engine.s_intensity settings) (engine.intensity s) /\
                CatOk (engine.s_delay settings) (engine.delay s) /\
                CatOk (engine.s_reward settings) (engine.reward s)).
  assert (Adv : forall cfg c sw r1 r2,
             (0 <= r1 < 1)%Q -> CatOk cfg c ->
             CatOk cfg (config.advanceCategory c sw r1 r2)).
  { intros cfg c sw r1 r2 R (P & M & X).
    destruct (advanceCategory_step c sw r1 r2 R M X) as (P' & M' & B' & _).
    unfold CatOk. rewrite P'. repeat split; [ exact P | exact M' | lia ]. }
  assert (New : forall cfg sw d,
             engine.unitDraw (engine.pick d) ->
             CatOk cfg (engine.createCategoryState (engine.c_patterns cfg) sw d)).
  { intros cfg sw d R.
    destruct (createCategoryState_start (engine.c_patterns cfg) sw d R)
      as (P & M & X).
    unfold CatOk. rewrite P. repeat split; [ exact M | lia ]. }
  pose proof (play_invariant settings Inv
                (fun v =>
                   engine.within (engine.c_min (engine.s_intensity settings))
                                 (engine.c_max (engine.s_intensity settings))
                                 (engine.v_intensity v) /\
                   engine.within (engine.c_min (engine.s_delay settings) * 1000)
                                 (engine.c_max (engine.s_delay settings) * 1000)
                                 (engine.v_delay v) /\
                   engine.within (engine.c_min (engine.s_reward settings) * 1000)
                                 (engine.c_max (engine.s_reward settings) * 1000)
                                 (engine.v_reward v) /\
                   (0 <= engine.v_progress v <= 1)%Q)
                engine.unitDraws) as Play.
  destruct (Play) with (calls := calls)
                       (session := engine.createSession settings start dI dD dR)
    as (values & final & E & L & G & (Df & CI & CD & CR) & S).
  - intros session now d (Ds & OI & OD & OR) U.
    destruct (getNextValues_step settings session now d HI HD HR Ds U
                ltac:(apply OI) ltac:(apply OD) ltac:(apply OR))
      as (v & s' & E & WI & WD & WR & WP & _ & ->).
    exists v. eexists. split; [ exact E | ].
    split; [ repeat split; try assumption; apply WP | ].
    destruct U as (_ & _ & _ & UI & UD & UR).
    split; [ | reflexivity ].
    unfold Inv. cbn [engine.duration engine.intensity engine.delay engine.reward].
    split; [ exact Ds | ].
    split; [ apply Adv; assumption | ].
    split; apply Adv; assumption.
  - unfold Inv. cbn [engine.createSession engine.duration engine.intensity
                     engine.delay engine.reward].
    split; [ lra | ]. split; [ apply New; exact RI | ].
    split; apply New; assumption.
  - exact F.
  - exists values, final. split; [ exact E | ]. split; [ exact L | ].
    split; [ rewrite S; reflexivity | ]. split; [ exact G | ].
    repeat constructor;
      match goal with
      | |- engine.knownPattern _ = true =>
          first [ destruct CI as (P & M & _); rewrite P in M;
                  apply (selected_known _ _ KI M)
                | destruct CD as (P & M & _); rewrite P in M;
                  apply (selected_known _ _ KD M)
                | destruct CR as (P & M & _); rewrite P in M;
                  apply (selected_known _ _ KR M) ]
      | _ => first [ apply CI | apply CD | apply CR ]
      end.
Qed.

(** X24 on [DEFAULT_SETTINGS]: a session started at time 0 and read at 0 s
    and at 300 s, every draw being 1/2. *)
Lemma X24_session_values_within_settings_witness :
  let d := engine.mkDraw (1 # 2) (Number 1 (-1)) in
  let ds := engine.mkDraws (1 # 2) (1 # 2) (1 # 2) d d d in
  let calls := [(0, ds); (300000, ds)] in
  engine.wellFormed (engine.s_intensity engine.DEFAULT_SETTINGS) /\
  engine.wellFormed (engine.s_delay engine.DEFAULT_SETTINGS) /\
  engine.wellFormed (engine.s_reward engine.DEFAULT_SETTINGS) /\
  (0 < engine.sessionDuration engine.DEFAULT_SETTINGS)%Q /\
  engine.unitDraws ds /\
  exists values final,
    engine.play engine.DEFAULT_SETTINGS
      (engine.createSession engine.DEFAULT_SETTINGS 0 d d d) calls =
      Some (values, final) /\
    List.length values = 2%nat /\
    engine.step final = 2 /\
    Forall
      (fun v =>
         engine.within (1 # 10) (7 # 10) (engine.v_intensity v) /\
         engine.within (4 * 1000) (12 * 1000) (engine.v_delay v) /\
         engine.within ((5 # 10) * 1000) ((12 # 10) * 1000) (engine.v_reward v) /\
         (0 <= engine.v_progress v <= 1)%Q)
      values.
Proof.
  intros d ds calls.
  assert (U : engine.unitDraw (1 # 2)) by (split; [ discriminate | reflexivity ]).
  assert (W1 : engine.wellFormed (engine.s_intensity engine.DEFAULT_SETTINGS))
    by (repeat split; discriminate).
  assert (W2 : engine.wellFormed (engine.s_delay engine.DEFAULT_SETTINGS))
    by (repeat split; discriminate).
  assert (W3 : engine.wellFormed (engine.s_reward engine.DEFAULT_SETTINGS))
    by (repeat split; discriminate).
  assert (D : (0 < engine.sessionDuration engine.DEFAULT_SETTINGS)%Q)
    by reflexivity.
  assert (Us : engine.unitDraws ds) by (repeat split; discriminate).
  assert (F : Forall (fun c : Z * engine.Draws => engine.unitDraws (snd c)) calls)
    by (repeat constructor; discriminate).
  repeat (split; [ assumption | ]).
  destruct (X24_session_values_within_settings engine.DEFAULT_SETTINGS 0 d d d
              calls W1 W2 W3 D U U U F)
    as (values & final & E & L & S & G & _).
  exists values, final. repeat split; assumption.
Defined.

(** X25.  When [shouldGreyOutMin] holds for the intensity category, that
    is, when its arc is [constant] and its only pattern is [constant], every
    intensity returned during the session equals the configured maximum,
    whatever the configured minimum is. *)
Theorem X25_greyed_out_min_is_irrelevant
        (settings : engine.Settings) (start : Z)
        (dI dD dR : engine.Draw) (calls : list (Z * engine.Draws)) :
  shouldGreyOutMin (engine.metapattern (engine.s_intensity settings))
                   (engine.c_patterns (engine.s_intensity settings)) = true ->
  (0 < engine.sessionDuration settings)%Q ->
  engine.unitDraw (engine.pick dI) ->
  exists values final,
    engine.play settings (engine.createSession settings start dI dD dR) calls =
      Some (values, final) /\
    List.length values = List.length calls /\
    Forall
      (fun v => exists x,
           engine.v_intensity v = Some x /\
           (x == engine.c_max (engine.s_intensity settings))%Q)
      values /\
    config.currentPattern (engine.intensity final) = "constant" /\
    config.index (engine.intensity final) = Z.of_nat (List.length calls).
Proof.
  intros G D R.
  unfold shouldGreyOutMin, isConstantOnly in G.
  apply andb_true_iff in G. destruct G as [GM GP].
  apply String.eqb_eq in GM.
  destruct (engine.c_patterns (engine.s_intensity settings)) as [| p [| q l]] eqn:EP;
    try discriminate GP.
  apply String.eqb_eq in GP. subst p.
  set (Inv := fun s : engine.Session =>
                (0 < engine.duration s)%Q /\
                config.patterns (engine.intensity s) = ["constant"] /\
                config.currentPattern (engine.intensity s) = "constant" /\
                config.index (engine.intensity s) = engine.step s /\
                0 <= engine.step s).
  destruct (play_invariant settings Inv
              (fun v => exists x,
                   engine.v_intensity v = Some x /\
                   (x == engine.c_max (engine.s_intensity settings))%Q)
              (fun _ => True))
    with (calls := calls)
         (session := engine.createSession settings start dI dD dR)
    as (values & final & E & L & Good & (_ & _ & C & X & _) & S).
  - intros session now d (Ds & P & C & X & N) _.
    destruct (progress_defined now session Ds) as [progress [Pr _]].
    unfold engine.getNextValues. rewrite Pr. cbv zeta.
    eexists. eexists. split; [ reflexivity | ].
    cbn [engine.v_intensity engine.step].
    split.
    + rewrite C, GM. unfold engine.getPatternValue.
      change (String.eqb "constant" "random") with false. cbv iota.
      change (engine.patternOf "constant") with [1%Q]. cbv zeta.
      change (Z.of_nat (List.length [1%Q])) with 1.
      rewrite Z.rem_1_r. cbn [Z.ltb Z.compare Z.to_nat nth_error].
      eexists. split; [ reflexivity | ].
      unfold config.applySessionArc. cbn. ring.
    + split; [ | reflexivity ].
      unfold Inv. cbn [engine.duration engine.intensity engine.step].
      unfold config.advanceCategory. cbv zeta. rewrite P.
      change (1 <? List.length ["constant"])%nat with false.
      rewrite andb_false_r.
      cbn [config.patterns config.currentPattern config.index].
      repeat split; try assumption; lia.
  - unfold Inv. cbn [engine.createSession engine.duration engine.intensity
                     engine.step].
    split; [ lra | ]. rewrite EP.
    destruct (createCategoryState_start ["constant"]
                (engine.patternSwitch settings) dI R) as (P & M & X).
    cbv zeta in P, M, X.
    change (if (0 <? List.length ["constant"])%nat
            then ["constant"] else ["constant"]) with ["constant"] in P, M.
    split; [ exact P | ]. destruct M as [<- | []].
    split; [ reflexivity | ]. split; [ exact X | lia ].
  - induction calls; constructor; [ exact I | assumption ].
  - exists values, final. split; [ exact E | ]. split; [ exact L | ].
    split; [ exact Good | ]. split; [ exact C | ].
    rewrite X, S. reflexivity.
Qed.

(** X25 with arc and pattern both [constant] on the range 0.1 to 0.7: the
    intensity is 0.7 at the start and halfway through. *)
Lemma X25_greyed_out_min_is_irrelevant_witness :
  let settings :=
    engine.mkSettings 600
      (engine.mkCategorySettings "constant" ["constant"] (1 # 10) (7 # 10))
      (engine.s_delay engine.DEFAULT_SETTINGS)
      (engine.s_reward engine.DEFAULT_SETTINGS)
      (config.mkSwitch 8 16) in
  let d := engine.mkDraw (1 # 2) (Number 1 (-1)) in
  let ds := engine.mkDraws (1 # 2) (1 # 2) (1 # 2) d d d in
  shouldGreyOutMin "constant" ["constant"] = true /\
  (0 < engine.sessionDuration settings)%Q /\
  engine.unitDraw (engine.pick d) /\
  exists values final,
    engine.play settings (engine.createSession settings 0 d d d)
                [(0, ds); (300000, ds)] = Some (values, final) /\
    Forall (fun v => exists x, engine.v_intensity v = Some x /\ (x == 7 # 10)%Q)
           values.
Proof.
  intros settings d ds.
  assert (G : shouldGreyOutMin "constant" ["constant"] = true) by reflexivity.
  assert (D : (0 < engine.sessionDuration settings)%Q) by reflexivity.
  assert (U : engine.unitDraw (engine.pick d))
    by (split; [ discriminate | reflexivity ]).
  repeat (split; [ assumption | ]).
  destruct (X25_greyed_out_min_is_irrelevant settings 0 d d d
              [(0, ds); (300000, ds)] G D U)
    as (values & final & E & _ & Good & _).
  exists values, final. split; assumption.
Defined.

(** ** Speech matching *)

Lemma includes_empty (t : string) : includes t "" = true.
Proof. destruct t; reflexivity. Qed.

Lemma list_ascii_length (s : string) :
  List.length (list_ascii_of_string s) = String.length s.
Proof. induction s as [| c s IH]; cbn; [ reflexivity | rewrite IH; reflexivity ]. Qed.

(** The ratio of [overlap] is a number for a non-empty phrase, between 0
    and 1. *)
Lemma overlap_ratio (t e : string) :
  (e = "" /\ recognition.overlap t e = None) \/
  (e <> "" /\ exists ratio, recognition.overlap t e = Some ratio /\
                              (0 <= ratio <= 1)%Q).
Proof.
  unfold recognition.overlap. cbv zeta.
  destruct e as [| c e]; [ left; split; reflexivity | right ].
  split; [ discriminate | ].
  set (chars := list_ascii_of_string (String c e)).
  set (count := List.length (filter _ chars)).
  assert (L : (count <= String.length (String c e))%nat).
  { unfold count. rewrite <- list_ascii_length. apply filter_length_le. }
  set (n := String.length (String c e)) in *.
  assert (N : (0 < n)%nat) by (unfold n; cbn; lia).
  replace (Nat.eqb n 0) with false by (symmetry; apply Nat.eqb_neq; lia).
  eexists. split; [ reflexivity | ].
  assert (P : (0 < inject_Z (Z.of_nat n))%Q).
  { change 0%Q with (inject_Z 0). rewrite <- Zlt_Qlt. lia. }
  split.
  - apply Qle_shift_div_l; [ exact P | ]. rewrite Qmult_0_l.
    change 0%Q with (inject_Z 0). rewrite <- Zle_Qle. lia.
  - apply Qle_shift_div_r; [ exact P | ]. rewrite Qmult_1_l.
    rewrite <- Zle_Qle. lia.
Qed.

(** X26.  [fuzzyMatch] always returns a confidence that is a number between
    0 and 1: the quotient by the length of the cleaned phrase is never
    0 / 0, because an empty cleaned phrase is matched by an earlier rule.
    The result is a match exactly when its method is not 'none'; a match by
    overlap has a confidence of at least the threshold, and a result that is
    no match has one below it.  The exact rule has confidence 1, the
    substring rule 0.9 and the keyword rule 0.8. *)
Theorem X26_fuzzyMatch_result
        (transcript expected : string) (options : recognition.Options) :
  let result := recognition.fuzzyMatch transcript expected options in
  exists confidence,
    recognition.r_confidence result = Some confidence /\
    (0 <= confidence <= 1)%Q /\
    (recognition.r_match result = true <->
     recognition.r_method result <> recognition.noMatch) /\
    match recognition.r_method result with
    | recognition.exactMatch =>
        recognition.clean transcript = recognition.clean expected /\
        (confidence == 1)%Q
    | recognition.substringMatch =>
        includes (recognition.clean transcript) (recognition.clean expected) = true /\
        (confidence == 9 # 10)%Q
    | recognition.keywordMatch =>
        includes (recognition.clean transcript)
                 (recognition.keyWord (recognition.clean expected)) = true /\
        (confidence == 8 # 10)%Q
    | recognition.overlapMatch =>
        recognition.clean expected <> "" /\
        (recognition.threshold options <= confidence)%Q
    | recognition.noMatch =>
        recognition.clean expected <> "" /\
        (confidence < recognition.threshold options)%Q
    end.
Proof.
  intros result. unfold result, recognition.fuzzyMatch. cbv zeta.
  set (t := recognition.clean transcript). set (e := recognition.clean expected).
  destruct (String.eqb t e) eqn:E1.
  { apply String.eqb_eq in E1. exists 1%Q. cbn.
    repeat split; try discriminate; try reflexivity; exact E1. }
  destruct (recognition.substring options && includes t e)%bool eqn:E2.
  { apply andb_true_iff in E2. destruct E2 as [_ E2]. exists (9 # 10)%Q. cbn.
    repeat split; try discriminate; try reflexivity; exact E2. }
  destruct (includes t (recognition.keyWord e)) eqn:E3.
  { exists (8 # 10)%Q. cbn.
    repeat split; try discriminate; try reflexivity. }
  destruct (overlap_ratio t e) as [[Z O] | [N [ratio [O [R0 R1]]]]].
  { exfalso. rewrite Z in E3. cbn in E3. rewrite includes_empty in E3.
    discriminate E3. }
  rewrite O.
  destruct (Qle_bool (recognition.threshold options) ratio) eqn:T.
  - exists ratio. cbn. apply Qle_bool_iff in T.
    repeat split; try assumption; try discriminate; try reflexivity.
  - exists ratio. cbn.
    repeat split; try assumption; try discriminate.
    + intros H. contradiction H. reflexivity.
    + apply Qnot_le_lt. intros H. apply Qle_bool_iff in H. congruence.
Qed.

Lemma string_app_assoc (a b c : string) :
  ((a ++ b) ++ c)%string = (a ++ b ++ c)%string.
Proof. induction a as [| x a IH]; cbn; [ reflexivity | rewrite IH; reflexivity ]. Qed.

Lemma toLowerCase_app (a b : string) :
  toLowerCase (a ++ b) = (toLowerCase a ++ toLowerCase b)%string.
Proof. induction a as [| c a IH]; cbn; [ reflexivity | rewrite IH; reflexivity ]. Qed.

(** [toLowerCase] changes letters only. *)
Lemma lowerChar_other (c : ascii) :
  recognition.isWord c = false -> lowerChar c = c.
Proof.
  unfold recognition.isWord, lowerChar. cbv zeta. intros H.
  apply orb_false_iff in H. destruct H as [H _].
  apply orb_false_iff in H. destruct H as [H _].
  apply orb_false_iff in H. destruct H as [_ H].
  rewrite H. reflexivity.
Qed.

Lemma punctuation_cons (c : ascii) (p : string) :
  punctuation (String c p) = true ->
  recognition.isWord c = false /\ recognition.isSpace c = false /\
  punctuation p = true.
Proof.
  unfold punctuation. cbn [list_ascii_of_string forallb]. intros H.
  apply andb_true_iff in H. destruct H as [H1 H2].
  apply negb_true_iff in H1. apply orb_false_iff in H1.
  destruct H1 as [W S]. repeat split; assumption.
Qed.

Lemma toLowerCase_punctuation (p : string) :
  punctuation p = true -> toLowerCase p = p.
Proof.
  induction p as [| c p IH]; intros H; [ reflexivity | ].
  destruct (punctuation_cons c p H) as (W & _ & P).
  cbn. rewrite (lowerChar_other c W), (IH P). reflexivity.
Qed.

Lemma removeOthers_punctuation (p : string) :
  punctuation p = true -> recognition.removeOthers p = "".
Proof.
  induction p as [| c p IH]; intros H; [ reflexivity | ].
  destruct (punctuation_cons c p H) as (W & S & P).
  cbn. rewrite W, S. cbn. apply IH. exact P.
Qed.

Lemma removeOthers_app (a b : string) :
  recognition.removeOthers (a ++ b) =
  (recognition.removeOthers a ++ recognition.removeOthers b)%string.
Proof.
  induction a as [| c a IH]; cbn; [ reflexivity | ].
  destruct (recognition.isWord c || recognition.isSpace c)%bool; cbn;
    rewrite IH; reflexivity.
Qed.

Lemma trimEnd_punctuation (p : string) :
  punctuation p = true -> recognition.trimEnd p = p.
Proof.
  induction p as [| c p IH]; intros H; [ reflexivity | ].
  destruct (punctuation_cons c p H) as (_ & S & P).
  cbn. rewrite (IH P). destruct p; [ rewrite S | ]; reflexivity.
Qed.

Lemma trimEnd_before_punctuation (y p : string) :
  p <> "" -> punctuation p = true ->
  recognition.trimEnd (y ++ p) = (y ++ p)%string.
Proof.
  intros N P. induction y as [| c y IH]; cbn.
  - apply trimEnd_punctuation. exact P.
  - rewrite IH. destruct (y ++ p)%string eqn:E; [ | reflexivity ].
    destruct y; cbn in E; [ contradiction | discriminate ].
Qed.

(** What [trimStart] leaves of a phrase that ends in a space and
    punctuation: the punctuation alone, or a text that still ends in a space
    before it. *)
Lemma trimStart_before_punctuation (a p : string) :
  p <> "" -> punctuation p = true ->
  recognition.trimStart (a ++ " " ++ p) = p \/
  exists y, recognition.trimStart (a ++ " " ++ p) = ((y ++ " ") ++ p)%string.
Proof.
  intros N P. induction a as [| c a IH].
  - left. cbn. destruct p as [| c p]; [ contradiction | ].
    destruct (punctuation_cons c p P) as (_ & S & _). cbn. rewrite S. reflexivity.
  - cbn [append recognition.trimStart].
    destruct (recognition.isSpace c); [ exact IH | ].
    right. exists (String c a). rewrite string_app_assoc. reflexivity.
Qed.

Lemma split_nonempty (sep : ascii) (s : string) : recognition.split sep s <> [].
Proof.
  destruct s as [| c s]; cbn; [ discriminate | ].
  destruct (Ascii.eqb c sep); [ discriminate | ].
  destruct (recognition.split sep s); discriminate.
Qed.

Lemma split_trailing (sep : ascii) (z : string) :
  recognition.split sep (z ++ String sep "") = recognition.split sep z ++ [""].
Proof.
  induction z as [| c z IH]; cbn.
  - rewrite Ascii.eqb_refl. reflexivity.
  - destruct (Ascii.eqb c sep); rewrite IH; [ reflexivity | ].
    pose proof (split_nonempty sep z) as N.
    destruct (recognition.split sep z); [ contradiction | reflexivity ].
Qed.

Lemma keyWord_trailing_space (z : string) :
  recognition.keyWord (z ++ " ") = "".
Proof. unfold recognition.keyWord. rewrite split_trailing. apply last_last. Qed.

(** The cleaned form of a phrase that ends in a space and punctuation. *)
Lemma clean_before_punctuation (w p : string) :
  p <> "" -> punctuation p = true ->
  recognition.clean (w ++ " " ++ p) = "" \/
  exists z, recognition.clean (w ++ " " ++ p) = (z ++ " ")%string.
Proof.
  intros N P. unfold recognition.clean, recognition.trim.
  rewrite toLowerCase_app.
  change (toLowerCase (" " ++ p)) with (" " ++ toLowerCase p)%string.
  rewrite (toLowerCase_punctuation p P).
  destruct (trimStart_before_punctuation (toLowerCase w) p N P) as [-> | [y ->]].
  - left. rewrite (trimEnd_punctuation p P). apply removeOthers_punctuation.
    exact P.
  - right. rewrite (trimEnd_before_punctuation _ p N P).
    rewrite !removeOthers_app, (removeOthers_punctuation p P).
    exists (recognition.removeOthers y). cbn.
    rewrite string_app_assoc. reflexivity.
Qed.

(** X27.  A prompt that ends in a space followed by punctuation only, such
    as "I obey !", is matched by every transcript, the empty one included,
    with a confidence of at least 0.8 and whatever the options are: [clean]
    trims before it removes the punctuation, so the cleaned prompt ends in a
    space (or is empty), its last word is the empty string, and every
    string includes the empty string. *)
Theorem X27_trailing_punctuation_matches_anything
        (transcript w p : string) (options : recognition.Options) :
  p <> "" -> punctuation p = true ->
  let expected := (w ++ " " ++ p)%string in
  let result := recognition.fuzzyMatch transcript expected options in
  recognition.keyWord (recognition.clean expected) = "" /\
  recognition.r_match result = true /\
  recognition.r_method result <> recognition.overlapMatch /\
  exists confidence,
    recognition.r_confidence result = Some confidence /\
    ((8 # 10) <= confidence)%Q.
Proof.
  intros N P expected result.
  assert (K : recognition.keyWord (recognition.clean expected) = "").
  { destruct (clean_before_punctuation w p N P) as [E | [z E]];
      unfold expected; rewrite E; [ reflexivity | apply keyWord_trailing_space ]. }
  split; [ exact K | ].
  unfold result, recognition.fuzzyMatch. cbv zeta. rewrite K, includes_empty.
  destruct (String.eqb _ _).
  { cbn. repeat split; try discriminate. eexists. split; [ reflexivity | discriminate ]. }
  destruct (_ && _)%bool.
  { cbn. repeat split; try discriminate. eexists. split; [ reflexivity | discriminate ]. }
  cbn. repeat split; try discriminate. eexists. split; [ reflexivity | discriminate ].
Qed.

(** X27 for the prompt "I obey !" and a silent transcript. *)
Lemma X27_trailing_punctuation_matches_anything_witness :
  "!" <> "" /\ punctuation "!" = true /\
  recognition.clean "I obey !" = "i obey " /\
  recognition.fuzzyMatch "" "I obey !" recognition.defaultOptions =
    recognition.mkResult true (Some (8 # 10)) recognition.keywordMatch /\
  recognition.r_match
    (recognition.fuzzyMatch "" "I obey !" recognition.defaultOptions) = true.
Proof.
  assert (N : "!" <> "") by discriminate.
  assert (P : punctuation "!" = true) by reflexivity.
  destruct (X27_trailing_punctuation_matches_anything "" "I obey" "!"
              recognition.defaultOptions N P) as (_ & M & _).
  split; [ exact N | ]. split; [ exact P | ].
  split; [ reflexivity | ]. split; [ reflexivity | exact M ].
Defined.

(** ** [escapeHtml] *)

Lemma replaceAll_app (c : ascii) (r a b : string) :
  replaceAll c r (a ++ b) = (replaceAll c r a ++ replaceAll c r b)%string.
Proof.
  induction a as [| x a IH]; cbn; [ reflexivity | ].
  destruct (Ascii.eqb x c); rewrite IH; [ | reflexivity ].
  rewrite string_app_assoc. reflexivity.
Qed.

Lemma escapeHtml_cons (c : ascii) (s : string) :
  escapeHtml (String c s) = (escapeChar c ++ escapeHtml s)%string.
Proof.
  unfold escapeHtml, escapeChar. cbn [replaceAll].
  destruct (Ascii.eqb c doubleQuote) eqn:E1.
  { rewrite !replaceAll_app. reflexivity. }
  cbn [replaceAll]. destruct (Ascii.eqb c "<") eqn:E2.
  { rewrite !replaceAll_app. reflexivity. }
  cbn [replaceAll]. destruct (Ascii.eqb c ">") eqn:E3; reflexivity.
Qed.

Lemma escapeChar_clean (c x : ascii) :
  In x (list_ascii_of_string (escapeChar c)) -> isMarkup x = false.
Proof.
  unfold escapeChar.
  destruct (Ascii.eqb c doubleQuote) eqn:E1;
    [ cbn; intros H; repeat (destruct H as [<- | H]; [ reflexivity | ]); destruct H | ].
  destruct (Ascii.eqb c "<") eqn:E2;
    [ cbn; intros H; repeat (destruct H as [<- | H]; [ reflexivity | ]); destruct H | ].
  destruct (Ascii.eqb c ">") eqn:E3;
    [ cbn; intros H; repeat (destruct H as [<- | H]; [ reflexivity | ]); destruct H | ].
  cbn. intros [<- | []]. unfold isMarkup. rewrite E1, E2, E3. reflexivity.
Qed.

Lemma list_ascii_app (a b : string) :
  list_ascii_of_string (a ++ b) = list_ascii_of_string a ++ list_ascii_of_string b.
Proof. induction a as [| c a IH]; cbn; [ reflexivity | rewrite IH; reflexivity ]. Qed.

Lemma string_length_app (a b : string) :
  String.length (a ++ b) = (String.length a + String.length b)%nat.
Proof. induction a as [| c a IH]; cbn; [ reflexivity | rewrite IH; reflexivity ]. Qed.

(** X28.  The three replacements of [escapeHtml], applied one after the
    other to the whole string, amount to one pass that replaces each
    character on its own: a double quote by [&quot;], [<] by [&lt;], [>] by
    [&gt;], any other character by itself.  The output contains none of the
    three characters, is never shorter than the input, and is the input
    itself when the input contains none of them, so escaping twice is
    escaping once.  The ampersand is not replaced, so two different inputs
    can give the same output. *)
Theorem X28_escapeHtml_one_pass (str : string) :
  escapeHtml str = concatMap escapeChar str /\
  forallb (fun c => negb (isMarkup c)) (list_ascii_of_string (escapeHtml str)) = true /\
  (String.length str <= String.length (escapeHtml str))%nat /\
  (forallb (fun c => negb (isMarkup c)) (list_ascii_of_string str) = true ->
   escapeHtml str = str) /\
  escapeHtml (escapeHtml str) = escapeHtml str /\
  (escapeHtml "<" = escapeHtml "&lt;" /\ "<" <> "&lt;").
Proof.
  assert (One : forall s, escapeHtml s = concatMap escapeChar s).
  { induction s as [| c s IH]; [ reflexivity | ].
    rewrite escapeHtml_cons, IH. reflexivity. }
  assert (Clean : forall s,
             forallb (fun c => negb (isMarkup c))
                     (list_ascii_of_string (escapeHtml s)) = true).
  { induction s as [| c s IH]; [ reflexivity | ].
    rewrite escapeHtml_cons, list_ascii_app, forallb_app, IH, andb_true_r.
    apply forallb_forall. intros x Hx.
    rewrite (escapeChar_clean c x Hx). reflexivity. }
  assert (Same : forall s,
             forallb (fun c => negb (isMarkup c)) (list_ascii_of_string s) = true ->
             escapeHtml s = s).
  { induction s as [| c s IH]; [ reflexivity | ].
    cbn [list_ascii_of_string forallb]. intros H.
    apply andb_true_iff in H. destruct H as [Hc Hs].
    rewrite escapeHtml_cons, (IH Hs). unfold escapeChar.
    apply negb_true_iff in Hc. unfold isMarkup in Hc.
    apply orb_false_iff in Hc. destruct Hc as [Hc E3].
    apply orb_false_iff in Hc. destruct Hc as [E1 E2].
    rewrite E1, E2, E3. reflexivity. }
  split; [ apply One | ]. split; [ apply Clean | ].
  split.
  - induction str as [| c s IH]; [ cbn; lia | ].
    rewrite escapeHtml_cons, string_length_app. cbn [String.length].
    assert (L : (1 <= String.length (escapeChar c))%nat).
    { unfold escapeChar.
      destruct (Ascii.eqb c doubleQuote); [ cbn; lia | ].
      destruct (Ascii.eqb c "<"); [ cbn; lia | ].
      destruct (Ascii.eqb c ">"); cbn; lia. }
    lia.
  - split; [ apply Same | ].
    split; [ apply Same; apply Clean | ].
    split; [ reflexivity | discriminate ].
Qed.
